(** * Room ranking by the Analytic Hierarchy Process: the frontend decision code

    A shallow embedding of the JavaScript decision code of the room
    selection frontend and the properties it has:

    - [frontend/src/utils/ahpCalculations.js]: [buildComparisonMatrix],
      [calculateWeights];
    - [frontend/src/api/mockApi.js]: [scoreCriterion],
      [calculateComfortScore], [calculateHealthScore],
      [calculateUsabilityScore], [evaluateRooms];
    - [frontend/src/constants/euStandards.js]: the [EU_STANDARDS] table.

    Number model.  A JavaScript number is an IEEE-754 double.  Here a number
    is an exact rational extended with [+Infinity], [-Infinity] and [NaN];
    the special values follow the IEEE rules the code relies on (a non-zero
    number divided by zero is infinite, [0/0], [Infinity - Infinity] and
    [Infinity * 0] are [NaN], every comparison with [NaN] is false).  The
    model is exact arithmetic: finite results are not rounded, they do not
    overflow, and there is one zero, so a statement about numbers is a
    statement about numbers other than the negative zero.  The
    geometric-mean weights need n-th roots, which no rational model has:
    that part is stated over the real numbers (module [Re]).

    Where the doubles of the program part from exact arithmetic, module
    [Double] evaluates the code on the doubles themselves (the binary64
    numbers of the kernel, rounded to the nearest, ties to even), and the
    statement that depends on it says which arithmetic it is about. *)

From Stdlib Require Import QArith Qabs Lqa Reals Lra Permutation Sorted Floats.
From stdpp Require Import gmap strings list.

#[local] Set Warnings "-inexact-float".

(* ===================================================================== *)
(** * Part I: definitions                                                 *)
(* ===================================================================== *)

(** ** JavaScript numbers *)

(** A number in exact arithmetic: a rational, or one of the three special
    values.  [Fin 0] is the zero [+0]; the negative zero is not a value of
    this type. *)
Inductive num : Type :=
  | Fin (q : Q)
  | PInf
  | NInf
  | NaN.

Declare Scope js_scope.
Delimit Scope js_scope with js.
Bind Scope js_scope with num.

Definition neg (a : num) : num :=
  match a with
  | Fin q => Fin (- q)%Q
  | PInf => NInf
  | NInf => PInf
  | NaN => NaN
  end.

(** The sum of two finite numbers is exact: it is neither rounded to a
    double nor replaced by an infinity when it is large. *)
Definition add (a b : num) : num :=
  match a, b with
  | NaN, _ | _, NaN => NaN
  | Fin x, Fin y => Fin (x + y)%Q
  | PInf, NInf | NInf, PInf => NaN
  | PInf, _ | _, PInf => PInf
  | NInf, _ | _, NInf => NInf
  end.

Definition sub (a b : num) : num := add a (neg b).

(** The sign of an infinite product or quotient, from the signs of its
    operands; [Eq] stands for a zero operand. *)
Definition signed_inf (s t : comparison) : num :=
  match s, t with
  | Gt, Gt | Lt, Lt => PInf
  | Gt, Lt | Lt, Gt => NInf
  | _, _ => NaN
  end.

Definition mul (a b : num) : num :=
  match a, b with
  | NaN, _ | _, NaN => NaN
  | Fin x, Fin y => Fin (x * y)%Q
  | Fin x, PInf | PInf, Fin x => signed_inf (x ?= 0)%Q Gt
  | Fin x, NInf | NInf, Fin x => signed_inf (x ?= 0)%Q Lt
  | PInf, PInf | NInf, NInf => PInf
  | PInf, NInf | NInf, PInf => NInf
  end.

(** The quotient of two finite numbers is exact.  A finite number over the
    zero [+0] is infinite with the sign of the numerator, and [0 / 0] is
    [NaN]. *)
Definition div (a b : num) : num :=
  match a, b with
  | NaN, _ | _, NaN => NaN
  | Fin x, Fin y =>
      if Qeq_bool y 0 then signed_inf (x ?= 0)%Q Gt else Fin (x / y)%Q
  | Fin _, (PInf | NInf) => Fin 0%Q
  | PInf, Fin y => match (y ?= 0)%Q with Lt => NInf | _ => PInf end
  | NInf, Fin y => match (y ?= 0)%Q with Lt => PInf | _ => NInf end
  | _, _ => NaN
  end.

(** [a < b], [a <= b], [a === b]: all false as soon as one side is [NaN]. *)
Definition ltb (a b : num) : bool :=
  match a, b with
  | NaN, _ | _, NaN => false
  | Fin x, Fin y => match (x ?= y)%Q with Lt => true | _ => false end
  | NInf, NInf | PInf, _ | _, NInf => false
  | NInf, _ | _, PInf => true
  end.

Definition leb (a b : num) : bool :=
  match a, b with
  | NaN, _ | _, NaN => false
  | Fin x, Fin y => match (x ?= y)%Q with Gt => false | _ => true end
  | NInf, _ | _, PInf => true
  | PInf, _ | _, NInf => false
  end.

Definition gtb (a b : num) : bool := ltb b a.
Definition geb (a b : num) : bool := leb b a.

Definition strict_eq (a b : num) : bool :=
  match a, b with
  | Fin x, Fin y => Qeq_bool x y
  | PInf, PInf | NInf, NInf => true
  | _, _ => false
  end.

Notation "a + b" := (add a b) : js_scope.
Notation "a - b" := (sub a b) : js_scope.
Notation "a * b" := (mul a b) : js_scope.
Notation "a / b" := (div a b) : js_scope.
Notation "a <? b" := (ltb a b) : js_scope.
Notation "a <=? b" := (leb a b) : js_scope.
Notation "a >? b" := (gtb a b) : js_scope.
Notation "a >=? b" := (geb a b) : js_scope.
Notation "a === b" := (strict_eq a b) (at level 70) : js_scope.

(** [Math.max] and [Math.min] of two arguments: [NaN] if either is. *)
Definition Math_max (a b : num) : num :=
  match a, b with
  | NaN, _ | _, NaN => NaN
  | _, _ => if ltb a b then b else a
  end.

Definition Math_min (a b : num) : num :=
  match a, b with
  | NaN, _ | _, NaN => NaN
  | _, _ => if ltb b a then b else a
  end.

(** Truthiness of a number: [0] and [NaN] are falsy. *)
Definition truthy (a : num) : bool :=
  match a with
  | Fin q => negb (Qeq_bool q 0)
  | NaN => false
  | PInf | NInf => true
  end.

(** A property that may be absent: [None] is [undefined] (or [null]).
    In a comparison or in arithmetic an absent number behaves as [NaN]. *)
Definition to_num (v : option num) : num :=
  match v with
  | Some a => a
  | None => NaN
  end.

Definition truthy_opt (v : option num) : bool :=
  match v with
  | Some a => truthy a
  | None => false
  end.

(** The numbers that are not [NaN], and the finite ones. *)
Definition is_number (a : num) : Prop := a <> NaN.

Definition finite (a : num) : Prop := exists q, a = Fin q.

(** A finite number of a magnitude of at most [1e300]: no sum or difference
    of two such numbers overflows a double. *)
Definition moderate_magnitude (q : Q) : Prop := (Qabs q <= 1e300)%Q.

Definition moderate (a : num) : Prop := exists q, a = Fin q /\ moderate_magnitude q.

(** A desirability score lies between 0 and 1. *)
Definition in_unit_interval (s : num) : Prop :=
  (Fin 0 <=? s)%js = true /\ (s <=? Fin 1)%js = true.

(** ** mockApi.js: the score of one criterion *)

Definition scoreCriterion
    (value : option num) (userMin userMax absoluteMin absoluteMax : num) : num :=
  match value with
  | None => Fin 0%Q
  | Some value =>
      if (value >=? userMin)%js && (value <=? userMax)%js then Fin 1
      else if (value <? userMin)%js then
        let range := (userMin - absoluteMin)%js in
        let distance := (userMin - value)%js in
        Math_max (Fin 0%Q) (Fin 1%Q - (distance / range) * Fin 0.7%Q)%js
      else
        let range := (absoluteMax - userMax)%js in
        let distance := (value - userMax)%js in
        Math_max (Fin 0%Q) (Fin 1%Q - (distance / range) * Fin 0.7%Q)%js
  end.

(** ** constants/euStandards.js: the absolute ranges *)

(** [{ min, max }]; a bound the object lacks is [undefined] and behaves as
    [NaN]. *)
Record Range : Type := mkRange { range_min : num; range_max : num }.

Record Standards : Type := mkStandards {
  std_temperature : Range;
  std_co2 : Range;
  std_humidity : Range;
  std_noise : Range;
  std_light : Range;
  std_voc : Range;
  std_airQuality : Range;
  std_pm25 : Range;
  std_pm10 : Range
}.

Definition EU_STANDARDS : Standards := {|
  std_temperature := mkRange (Fin 18) (Fin 27);
  std_co2 := mkRange (Fin 400) (Fin 1000);
  std_humidity := mkRange (Fin 30) (Fin 70);
  std_noise := mkRange (Fin 30) (Fin 45);
  std_light := mkRange (Fin 200) (Fin 750);
  std_voc := mkRange (Fin 0) (Fin 400);
  std_airQuality := mkRange (Fin 0) (Fin 100);
  std_pm25 := mkRange (Fin 0) (Fin 75);
  std_pm10 := mkRange (Fin 0) (Fin 150)
|}.

(** ** mockApi.js: rooms, profiles and the three group scores *)

(** A room of [aggregated_rooms.json]; a reading the file does not carry is
    [None]. *)
Record Room : Type := mkRoom {
  room_id : string;
  name : string;
  temperature : option num;
  co2 : option num;
  humidity : option num;
  air_quality : option num;
  voc : option num;
  pm25 : option num;
  pm10 : option num;
  noise : option num;
  light : option num;
  seating_capacity : option num;
  has_projector : bool;
  computers : option num;
  has_robots : bool
}.

(** [preferences.profile_adjustments]: the preferred range of each
    criterion, when the user set one. *)
Record Profile : Type := mkProfile {
  profile_temperature : option Range;
  profile_humidity : option Range;
  profile_noise : option Range;
  profile_light : option Range;
  profile_co2 : option Range;
  profile_voc : option Range;
  profile_pm25 : option Range;
  profile_pm10 : option Range
}.

Definition empty_profile : Profile :=
  mkProfile None None None None None None None None.

(** [x || d] on an object that may be absent. *)
Definition or_default {A : Type} (x : option A) (d : A) : A :=
  match x with
  | Some a => a
  | None => d
  end.

(** [reading ? scoreCriterion(reading, ...) : 0.8] *)
Definition score_or_default
    (reading : option num) (user : Range) (absolute : Range) : num :=
  if truthy_opt reading
  then scoreCriterion reading (range_min user) (range_max user)
         (range_min absolute) (range_max absolute)
  else Fin 0.8%Q.

(** The leaf scores of [calculateComfortScore], one per local constant. *)
Definition tempScore (room : Room) (profile : Profile) : num :=
  let tempProfile := or_default (profile_temperature profile) (mkRange (Fin 20) (Fin 24)) in
  scoreCriterion (temperature room)
    (range_min tempProfile) (range_max tempProfile)
    (range_min (std_temperature EU_STANDARDS))
    (range_max (std_temperature EU_STANDARDS)).

Definition humidScore (room : Room) (profile : Profile) : num :=
  let humidProfile := or_default (profile_humidity profile) (mkRange (Fin 40) (Fin 60)) in
  scoreCriterion (humidity room)
    (range_min humidProfile) (range_max humidProfile)
    (range_min (std_humidity EU_STANDARDS))
    (range_max (std_humidity EU_STANDARDS)).

Definition noiseScore (room : Room) (profile : Profile) : num :=
  let noiseProfile := or_default (profile_noise profile) (mkRange (Fin 30) (Fin 35)) in
  score_or_default (noise room) noiseProfile (std_noise EU_STANDARDS).

Definition lightScore (room : Room) (profile : Profile) : num :=
  let lightProfile := or_default (profile_light profile) (mkRange (Fin 300) (Fin 500)) in
  score_or_default (light room) lightProfile (std_light EU_STANDARDS).

Definition calculateComfortScore (room : Room) (profile : Profile) : num :=
  (tempScore room profile * Fin 0.35%Q
   + humidScore room profile * Fin 0.25%Q
   + noiseScore room profile * Fin 0.2%Q
   + lightScore room profile * Fin 0.2%Q)%js.

(** The leaf scores of [calculateHealthScore]. *)
Definition co2Score (room : Room) (profile : Profile) : num :=
  let co2Profile := or_default (profile_co2 profile) (mkRange (Fin 400) (Fin 800)) in
  scoreCriterion (co2 room)
    (range_min co2Profile) (range_max co2Profile)
    (range_min (std_co2 EU_STANDARDS))
    (range_max (std_co2 EU_STANDARDS)).

Definition aqScore (room : Room) : num :=
  score_or_default (air_quality room) (mkRange (Fin 0) (Fin 50))
    (std_airQuality EU_STANDARDS).

Definition vocScore (room : Room) (profile : Profile) : num :=
  let vocProfile := or_default (profile_voc profile) (mkRange (Fin 0) (Fin 200)) in
  score_or_default (voc room) vocProfile (std_voc EU_STANDARDS).

Definition pm25Score (room : Room) (profile : Profile) : num :=
  let pm25Profile := or_default (profile_pm25 profile) (mkRange (Fin 0) (Fin 15)) in
  score_or_default (pm25 room) pm25Profile (std_pm25 EU_STANDARDS).

Definition pm10Score (room : Room) (profile : Profile) : num :=
  let pm10Profile := or_default (profile_pm10 profile) (mkRange (Fin 0) (Fin 45)) in
  score_or_default (pm10 room) pm10Profile (std_pm10 EU_STANDARDS).

Definition calculateHealthScore (room : Room) (profile : Profile) : num :=
  (co2Score room profile * Fin 0.4%Q
   + aqScore room * Fin 0.2%Q
   + vocScore room profile * Fin 0.15%Q
   + pm25Score room profile * Fin 0.15%Q
   + pm10Score room profile * Fin 0.1%Q)%js.

Definition calculateUsabilityScore (room : Room) : num :=
  let score := Fin 0.5%Q in
  let score := if has_projector room then (score + Fin 0.2%Q)%js else score in
  let score :=
    if (to_num (computers room) >? Fin 0)%js
    then (score + Math_min (Fin 0.3%Q) (to_num (computers room) / Fin 100))%js
    else score in
  let score := if has_robots room then (score + Fin 0.15%Q)%js else score in
  let score :=
    if (to_num (seating_capacity room) >=? Fin 30)%js
    then (score + Fin 0.1%Q)%js
    else score in
  Math_min (Fin 1) score.

(** ** Array.prototype.sort

    The comparator's result is read as by the language's [SortCompare]: a
    [NaN] counts as [+0].  The sort is stable (ECMAScript 2019), and for a
    consistent comparator every stable sort returns the same array; the
    model is the insertion sort that moves an element to the right only past
    elements it must follow.

    For a comparator that is not consistent the language leaves the order
    to the engine, and [js_sort] is then one of the orders allowed, not the
    one of a given engine.  The comparator of [evaluateRooms],
    [b.final_score - a.final_score], is consistent when no final score is
    [NaN] and when all of them are; with a [NaN] score among numbers it is
    not.  What is stated about the order is stated for the first two cases
    only; that the result is a rearrangement of the input holds for every
    engine and every comparator. *)

Definition SortCompare {A : Type} (comparefn : A -> A -> num) (x y : A) : num :=
  match comparefn x y with
  | NaN => Fin 0
  | v => v
  end.

Fixpoint sort_insert {A : Type} (comparefn : A -> A -> num) (x : A) (sorted : list A)
    : list A :=
  match sorted with
  | [] => [x]
  | y :: rest =>
      if (SortCompare comparefn x y >? Fin 0)%js
      then y :: sort_insert comparefn x rest
      else x :: sorted
  end.

Fixpoint js_sort {A : Type} (comparefn : A -> A -> num) (l : list A) : list A :=
  match l with
  | [] => []
  | x :: rest => sort_insert comparefn x (js_sort comparefn rest)
  end.

(** ** mockApi.js: evaluateRooms *)

(** [preferences.weights]; a weight the object lacks behaves as [NaN]. *)
Record Weights : Type := mkWeights { Comfort : num; Health : num; Usability : num }.

(** The hard requirements the page collects ([FacilityRequirements.jsx]). *)
Record FacilityRequirements : Type := mkFacilityRequirements {
  min_seating : option num;
  videoprojector : option bool;
  required_computers : option bool;
  min_training_robots : option num
}.

Record Preferences : Type := mkPreferences {
  profile_adjustments : option Profile;
  weights : option Weights;
  consistencyRatio : option num;
  facility_requirements : option FacilityRequirements
}.

(** [{ ...room, comfort_score, health_score, usability_score, final_score }] *)
Record ScoredRoom : Type := mkScoredRoom {
  scored_room : Room;
  comfort_score : num;
  health_score : num;
  usability_score : num;
  final_score : num
}.

Record RankedRoom : Type := mkRankedRoom {
  rank : nat;
  ranked_room_id : string;
  ranked_room_name : string;
  ranked_final_score : num;
  ranked_comfort_score : num;
  ranked_health_score : num;
  ranked_usability_score : num;
  ranked_temperature : option num;
  ranked_co2 : option num;
  ranked_humidity : option num;
  ranked_air_quality : option num;
  ranked_voc : option num;
  ranked_pm25 : option num;
  ranked_pm10 : option num;
  ranked_noise : option num;
  ranked_light : option num;
  ranked_seating_capacity : option num;
  ranked_has_projector : bool;
  ranked_computers : option num;
  ranked_has_robots : bool
}.

Record Evaluation : Type := mkEvaluation {
  rankings : list RankedRoom;
  result_weights : Weights;
  consistency_ratio : num;
  is_consistent : bool
}.

Definition default_weights : Weights :=
  mkWeights (Fin 0.40%Q) (Fin 0.35%Q) (Fin 0.25%Q).

(** The body of [roomsData.map((room) => ...)]. *)
Definition scoreRoom (profile : Profile) (weights : Weights) (room : Room) : ScoredRoom :=
  let comfortScore := calculateComfortScore room profile in
  let healthScore := calculateHealthScore room profile in
  let usabilityScore := calculateUsabilityScore room in
  let finalScore :=
    (comfortScore * Comfort weights
     + healthScore * Health weights
     + usabilityScore * Usability weights)%js in
  mkScoredRoom room comfortScore healthScore usabilityScore finalScore.

(** [(a, b) => b.final_score - a.final_score] *)
Definition by_final_score (a b : ScoredRoom) : num :=
  (final_score b - final_score a)%js.

(** The body of [.map((room, index) => ...)]. *)
Definition toRanked (index : nat) (room : ScoredRoom) : RankedRoom := {|
  rank := index + 1;
  ranked_room_id := room_id (scored_room room);
  ranked_room_name := name (scored_room room);
  ranked_final_score := final_score room;
  ranked_comfort_score := comfort_score room;
  ranked_health_score := health_score room;
  ranked_usability_score := usability_score room;
  ranked_temperature := temperature (scored_room room);
  ranked_co2 := co2 (scored_room room);
  ranked_humidity := humidity (scored_room room);
  ranked_air_quality := air_quality (scored_room room);
  ranked_voc := voc (scored_room room);
  ranked_pm25 := pm25 (scored_room room);
  ranked_pm10 := pm10 (scored_room room);
  ranked_noise := noise (scored_room room);
  ranked_light := light (scored_room room);
  ranked_seating_capacity := seating_capacity (scored_room room);
  ranked_has_projector := has_projector (scored_room room);
  ranked_computers := computers (scored_room room);
  ranked_has_robots := has_robots (scored_room room)
|}.

(** The value the promise of [evaluateRooms] resolves to.  [roomsData] is
    the imported room file, here an argument.  The requirements of
    [preferences.facility_requirements] are never read. *)
Definition evaluateRooms (roomsData : list Room) (preferences : Preferences)
    : Evaluation :=
  let profile := or_default (profile_adjustments preferences) empty_profile in
  let weights := or_default (weights preferences) default_weights in
  let scoredRooms := map (scoreRoom profile weights) roomsData in
  let ranked := imap toRanked (js_sort by_final_score scoredRooms) in
  {| rankings := ranked;
     result_weights := weights;
     consistency_ratio :=
       if truthy_opt (consistencyRatio preferences)
       then to_num (consistencyRatio preferences)
       else Fin 0.05%Q;
     is_consistent := true |}.

(** ** ahpCalculations.js: buildComparisonMatrix *)

(** A matrix is an array of rows. *)
Definition matrix_get {A : Type} (m : list (list A)) (i j : nat) : option A :=
  m !! i ≫= fun row => row !! j.

(** [matrix[i][j] = v] *)
Definition matrix_set {A : Type} (m : list (list A)) (i j : nat) (v : A)
    : list (list A) :=
  alter (fun row => <[j := v]> row) i m.

(** [criteria[i]] inside a template literal. *)
Definition criterion_at (criteria : list string) (i : nat) : string :=
  default "undefined"%string (criteria !! i).

Definition comparison_key (criteria : list string) (i j : nat) : string :=
  (criterion_at criteria i +:+ "-" +:+ criterion_at criteria j)%string.

(** The body of the inner loop, for one pair [i < j]. *)
Definition compare_pair
    (criteria : list string) (comparisons : gmap string num)
    (i j : nat) (matrix : list (list num)) : list (list num) :=
  let key := comparison_key criteria i j in
  let reverseKey := comparison_key criteria j i in
  if truthy_opt (comparisons !! key) then
    let matrix := matrix_set matrix i j (to_num (comparisons !! key)) in
    matrix_set matrix j i (Fin 1 / to_num (comparisons !! key))%js
  else if truthy_opt (comparisons !! reverseKey) then
    let matrix := matrix_set matrix j i (to_num (comparisons !! reverseKey)) in
    matrix_set matrix i j (Fin 1 / to_num (comparisons !! reverseKey))%js
  else
    let matrix := matrix_set matrix i j (Fin 1) in
    matrix_set matrix j i (Fin 1).

(** [for (let j = i + 1; j < n; j++)] *)
Definition inner_loop
    (criteria : list string) (comparisons : gmap string num)
    (n i : nat) (matrix : list (list num)) : list (list num) :=
  foldl (fun m j => compare_pair criteria comparisons i j m) matrix
    (seq (i + 1) (n - (i + 1))).

Definition buildComparisonMatrix
    (criteria : list string) (comparisons : gmap string num) : list (list num) :=
  let n := length criteria in
  let matrix := replicate n (replicate n (Fin 1)) in
  foldl (fun m i => inner_loop criteria comparisons n i m) matrix (seq 0 n).

(** ** ahpCalculations.js: calculateWeights, over the real numbers

    The n-th root of [Math.pow(product, 1 / n)] leaves the rationals, so
    the weights are computed on numbers whose finite values are real
    numbers.  The special values behave as above. *)

Module Re.

Inductive rnum : Type :=
  | RFin (r : R)
  | RPInf
  | RNInf
  | RNaN.

Definition Rsign (r : R) : comparison :=
  if Rlt_dec 0 r then Gt else if Rlt_dec r 0 then Lt else Eq.

Definition radd (a b : rnum) : rnum :=
  match a, b with
  | RNaN, _ | _, RNaN => RNaN
  | RFin x, RFin y => RFin (x + y)
  | RPInf, RNInf | RNInf, RPInf => RNaN
  | RPInf, _ | _, RPInf => RPInf
  | RNInf, _ | _, RNInf => RNInf
  end.

Definition rsigned_inf (s t : comparison) : rnum :=
  match s, t with
  | Gt, Gt | Lt, Lt => RPInf
  | Gt, Lt | Lt, Gt => RNInf
  | _, _ => RNaN
  end.

Definition rmul (a b : rnum) : rnum :=
  match a, b with
  | RNaN, _ | _, RNaN => RNaN
  | RFin x, RFin y => RFin (x * y)
  | RFin x, RPInf | RPInf, RFin x => rsigned_inf (Rsign x) Gt
  | RFin x, RNInf | RNInf, RFin x => rsigned_inf (Rsign x) Lt
  | RPInf, RPInf | RNInf, RNInf => RPInf
  | RPInf, RNInf | RNInf, RPInf => RNInf
  end.

Definition rdiv (a b : rnum) : rnum :=
  match a, b with
  | RNaN, _ | _, RNaN => RNaN
  | RFin x, RFin y =>
      if Req_dec_T y 0 then rsigned_inf (Rsign x) Gt else RFin (x / y)
  | RFin _, (RPInf | RNInf) => RFin 0
  | RPInf, RFin y => match Rsign y with Lt => RNInf | _ => RPInf end
  | RNInf, RFin y => match Rsign y with Lt => RPInf | _ => RNInf end
  | _, _ => RNaN
  end.

Definition is_integer (y : R) : bool :=
  if Req_dec_T y (IZR (Int_part y)) then true else false.

Definition is_odd_integer (y : R) : bool :=
  is_integer y && Z.odd (Int_part y).

(** [Math.pow(x, y)]. *)
Definition Math_pow (x y : rnum) : rnum :=
  match y with
  | RNaN => RNaN
  | RFin e =>
      match Rsign e with
      | Eq => RFin 1
      | se =>
          match x with
          | RNaN => RNaN
          | RFin b =>
              match Rsign b with
              | Gt => RFin (Rpower b e)
              | Eq => match se with Gt => RFin 0 | _ => RPInf end
              | Lt => if is_integer e then RFin (powerRZ b (Int_part e)) else RNaN
              end
          | RPInf => match se with Gt => RPInf | _ => RFin 0 end
          | RNInf =>
              match se with
              | Gt => if is_odd_integer e then RNInf else RPInf
              | _ => RFin 0
              end
          end
      end
  | RPInf | RNInf =>
      match x with
      | RNaN => RNaN
      | RFin b =>
          match Rsign (Rabs b - 1) with
          | Eq => RNaN
          | Gt => match y with RPInf => RPInf | _ => RFin 0 end
          | Lt => match y with RPInf => RFin 0 | _ => RPInf end
          end
      | RPInf | RNInf => match y with RPInf => RPInf | _ => RFin 0 end
      end
  end.

(** [matrix[i][j]]: a missing entry is [undefined], [NaN] in a product. *)
Definition entry (matrix : list (list rnum)) (i j : nat) : rnum :=
  default RNaN (matrix_get matrix i j).

(** The inner loop: [product *= matrix[i][j]] for [j] from [0] to [n - 1]. *)
Definition row_product (matrix : list (list rnum)) (n i : nat) : rnum :=
  foldl (fun product j => rmul product (entry matrix i j)) (RFin 1) (seq 0 n).

Definition calculateWeights (matrix : list (list rnum)) : list rnum :=
  let n := length matrix in
  let weights :=
    map (fun i => Math_pow (row_product matrix n i) (rdiv (RFin 1) (RFin (INR n))))
      (seq 0 n) in
  let sum := foldl radd (RFin 0) weights in
  map (fun w => rdiv w sum) weights.

(** *** The consistency ratio *)

Definition rneg (a : rnum) : rnum :=
  match a with
  | RFin x => RFin (- x)
  | RPInf => RNInf
  | RNInf => RPInf
  | RNaN => RNaN
  end.

Definition rsub (a b : rnum) : rnum := radd a (rneg b).

(** [RANDOM_INDEX[n]]; [None] for a size the table does not list. *)
Definition RANDOM_INDEX (n : nat) : option R :=
  match n with
  | 1 => Some 0 | 2 => Some 0 | 3 => Some 0.58 | 4 => Some 0.90
  | 5 => Some 1.12 | 6 => Some 1.24 | 7 => Some 1.32 | 8 => Some 1.41
  | 9 => Some 1.45 | 10 => Some 1.49
  | _ => None
  end%R.

(** [weights[j]] *)
Definition weight_at (weights : list rnum) (j : nat) : rnum :=
  default RNaN (weights !! j).

Definition calculateLambdaMax (matrix : list (list rnum)) (weights : list rnum) : rnum :=
  let n := length matrix in
  let weightedSum :=
    map (fun i =>
           foldl (fun acc j => radd acc (rmul (entry matrix i j) (weight_at weights j)))
             (RFin 0) (seq 0 n))
        (seq 0 n) in
  let lambdaMax :=
    foldl (fun acc i => radd acc (rdiv (weight_at weightedSum i) (weight_at weights i)))
      (RFin 0) (seq 0 n) in
  rdiv lambdaMax (RFin (INR n)).

Definition calculateCI (lambdaMax : rnum) (n : nat) : rnum :=
  rdiv (rsub lambdaMax (RFin (INR n))) (rsub (RFin (INR n)) (RFin 1)).

Definition calculateConsistencyRatio
    (matrix : list (list rnum)) (weights : list rnum) : rnum :=
  let n := length matrix in
  if (n <? 3)%nat then RFin 0
  else
    let lambdaMax := calculateLambdaMax matrix weights in
    let CI := calculateCI lambdaMax n in
    let RI :=
      match RANDOM_INDEX n with
      | Some r => if Req_dec_T r 0 then 1.49%R else r
      | None => 1.49%R
      end in
    rdiv CI (RFin RI).

(** *** Matrices and vectors of real numbers *)

Definition Rsum (v : list R) : R := foldr Rplus 0%R v.

Definition Rprod (v : list R) : R := foldr Rmult 1%R v.

Definition normalize (v : list R) : list R := map (fun x => (x / Rsum v)%R) v.

Definition dot (u v : list R) : R := Rsum (zip_with Rmult u v).



(** The matrix as [calculateWeights] receives it. *)
Definition as_numbers (M : list (list R)) : list (list rnum) := map (map RFin) M.

(** [M[i][j] = w_i / w_j] *)
Definition rank_one (w : list R) : list (list R) :=
  map (fun wi => map (fun wj => (wi / wj)%R) w) w.







(** The geometric-mean method in the words of the specification: "for each
    row i, compute the N-th root of the product of its entries; normalize
    the resulting vector by its sum". *)
Definition geometric_mean (n : nat) (row : list R) : R :=
  Rpower (foldl Rmult 1%R row) (1 / INR n).

Definition geometric_mean_weights (M : list (list R)) : list R :=
  normalize (map (geometric_mean (length M)) M).

(** A matrix whose entries are all positive. *)
Definition positive_matrix (M : list (list R)) : Prop :=
  Forall (Forall (fun x => (0 < x)%R)) M.

(** A priority vector of length [n]: finite entries that are not negative
    and sum to 1. *)
Definition priority_vector (n : nat) (ws : list rnum) : Prop :=
  exists v, ws = map RFin v /\ length v = n /\
            Forall (fun x => (0 <= x)%R) v /\ Rsum v = 1%R.

(** The matrix [calculateWeights] gets from a judgment of magnitude -3. *)
Definition negative_matrix : list (list R) :=
  [ [1; -3]; [-1 / 3; 1] ]%R.

(** A perfectly consistent matrix: [w = (2, 1)]. *)
Definition two_to_one : list (list R) := [ [1; 2]; [1 / 2; 1] ]%R.



End Re.

(** The two entries one pass of the inner loop stores for a pair [i < j]:
    [upper_entry] at [(i, j)] and [lower_entry] at [(j, i)]. *)
Definition upper_entry
    (criteria : list string) (comparisons : gmap string num) (i j : nat) : num :=
  let key := comparison_key criteria i j in
  let reverseKey := comparison_key criteria j i in
  if truthy_opt (comparisons !! key) then to_num (comparisons !! key)
  else if truthy_opt (comparisons !! reverseKey)
       then (Fin 1 / to_num (comparisons !! reverseKey))%js
       else Fin 1.

Definition lower_entry
    (criteria : list string) (comparisons : gmap string num) (i j : nat) : num :=
  let key := comparison_key criteria i j in
  let reverseKey := comparison_key criteria j i in
  if truthy_opt (comparisons !! key) then (Fin 1 / to_num (comparisons !! key))%js
  else if truthy_opt (comparisons !! reverseKey)
       then to_num (comparisons !! reverseKey)
       else Fin 1.

(** An [n] by [n] array of rows. *)
Definition square {A : Type} (n : nat) (m : list (list A)) : Prop :=
  length m = n /\ Forall (fun row => length row = n) m.

(** ** How a call completes

    None of the functions above contains a [throw]; with numbers as
    arguments every operation they use is defined, so every call completes
    normally. *)

Inductive completion (A : Type) : Type :=
  | Returns (value : A)
  | Throws (message : string).

Arguments Returns {A} value.
Arguments Throws {A} message.

Definition call_buildComparisonMatrix
    (criteria : list string) (comparisons : gmap string num)
    : completion (list (list num)) :=
  Returns (buildComparisonMatrix criteria comparisons).

(** A magnitude that is zero or negative, and a judgment map that carries
    one. *)
Definition non_positive (a : num) : bool := (a <=? Fin 0)%js.

Definition has_non_positive_judgment (comparisons : gmap string num) : Prop :=
  exists key x, comparisons !! key = Some x /\ non_positive x = true.

(** Every judgment of the map is a positive finite magnitude. *)
Definition positive_judgments (comparisons : gmap string num) : Prop :=
  forall key x, comparisons !! key = Some x -> exists q, x = Fin q /\ (0 < q)%Q.

(** ** Example data *)

(** A room without any reading or facility. *)
Definition bare_room : Room :=
  mkRoom "Room_0" "Room 0" None None None None None None None None None
    None false None false.

(** A room known by its seats only. *)
Definition room_with_seats (id : string) (seats : Q) : Room :=
  mkRoom id id None None None None None None None None None
    (Some (Fin seats)) false None false.

Definition five_rooms : list Room :=
  [ room_with_seats "Room_1" 62; room_with_seats "Room_2" 45;
    room_with_seats "Room_3" 30; room_with_seats "Room_4" 20;
    room_with_seats "Room_5" 15 ].

(** The preferences of a request whose only content is [min_seating: 50]. *)
Definition min_seating_50 : Preferences :=
  mkPreferences None None None
    (Some (mkFacilityRequirements (Some (Fin 50)) None None None)).

(** Rooms that differ in temperature only: [Room_B] and [Room_C] tie. *)
Definition room_at (id : string) (celsius : Q) : Room :=
  mkRoom id id (Some (Fin celsius)) None None None None None None None None
    None false None false.

Definition tied_rooms : list Room :=
  [ room_at "Room_A" 26; room_at "Room_B" 22; room_at "Room_C" 21;
    room_at "Room_D" 17 ].

Definition no_preferences : Preferences := mkPreferences None None None None.

(** The criteria and the initial judgments of [PreferenceMatrix.jsx]. *)
Definition main_criteria : list string :=
  [ "Comfort"; "Health"; "Usability" ]%string.

Definition initial_comparisons : gmap string num :=
  <[ "Comfort-Health"%string := Fin 3 ]>
    (<[ "Comfort-Usability"%string := Fin 5 ]>
       (<[ "Health-Usability"%string := Fin 2 ]> ∅)).

(** A judgment map with one negative magnitude. *)
Definition negative_comparisons : gmap string num :=
  <[ "A-B"%string := Fin (-3) ]> ∅.

(** ** Well-formed inputs of the scoring *)

(** A reading that is absent or a finite number. *)
Definition finite_reading (v : option num) : Prop :=
  match v with
  | None => True
  | Some a => finite a
  end.

Definition finite_readings (room : Room) : Prop :=
  finite_reading (temperature room) /\ finite_reading (humidity room) /\
  finite_reading (noise room) /\ finite_reading (light room) /\
  finite_reading (co2 room) /\ finite_reading (air_quality room) /\
  finite_reading (voc room) /\ finite_reading (pm25 room) /\
  finite_reading (pm10 room).

(** A preferred range with finite bounds that stays inside an absolute
    range. *)
Definition range_within (user absolute : Range) : Prop :=
  exists a b lo hi,
    user = mkRange (Fin a) (Fin b) /\ absolute = mkRange (Fin lo) (Fin hi) /\
    (lo <= a)%Q /\ (b <= hi)%Q.

Definition preferred_within (user : option Range) (absolute : Range) : Prop :=
  match user with
  | None => True
  | Some r => range_within r absolute
  end.

(** Every range the profile sets stays inside the range of the standard. *)
Definition profile_within (profile : Profile) : Prop :=
  preferred_within (profile_temperature profile) (std_temperature EU_STANDARDS) /\
  preferred_within (profile_humidity profile) (std_humidity EU_STANDARDS) /\
  preferred_within (profile_noise profile) (std_noise EU_STANDARDS) /\
  preferred_within (profile_light profile) (std_light EU_STANDARDS) /\
  preferred_within (profile_co2 profile) (std_co2 EU_STANDARDS) /\
  preferred_within (profile_voc profile) (std_voc EU_STANDARDS) /\
  preferred_within (profile_pm25 profile) (std_pm25 EU_STANDARDS) /\
  preferred_within (profile_pm10 profile) (std_pm10 EU_STANDARDS).

(** Group weights that are finite, not negative and sum to at most 1. *)
Definition weights_within (w : Weights) : Prop :=
  exists c h u,
    w = mkWeights (Fin c) (Fin h) (Fin u) /\
    (0 <= c)%Q /\ (0 <= h)%Q /\ (0 <= u)%Q /\ (c + h + u <= 1)%Q.

(** A room with a temperature, a noise level and computers. *)
Definition measured_room : Room :=
  mkRoom "Room_M" "Room M" (Some (Fin 25)) (Some (Fin 900)) (Some (Fin 45))
    None None None None (Some (Fin 40)) None
    (Some (Fin 30)) true (Some (Fin 20)) false.

(** ** Judgment maps used as examples *)

(** Both directions of one pair, supplied with contradicting magnitudes. *)
Definition both_directions : gmap string num :=
  <[ "A-B"%string := Fin 3 ]> (<[ "B-A"%string := Fin 5 ]> ∅).

(** Only the reverse direction of the pair. *)
Definition reverse_only : gmap string num :=
  <[ "B-A"%string := Fin 5 ]> ∅.
(** ** ahpCalculations.js: isConsistent and calculateAHPWeights *)

(** [a < b] on the numbers of [Re]; false as soon as one side is [NaN]. *)
Definition rltb (a b : Re.rnum) : bool :=
  match a, b with
  | Re.RNaN, _ | _, Re.RNaN => false
  | Re.RFin x, Re.RFin y => if Rlt_dec x y then true else false
  | Re.RNInf, Re.RNInf | Re.RPInf, _ | _, Re.RNInf => false
  | Re.RNInf, _ | _, Re.RPInf => true
  end.

Definition isConsistent (cr : Re.rnum) : bool := rltb cr (Re.RFin 0.1%R).

(** The entries of the matrix built, rationals, read as real numbers. *)
Definition to_real (a : num) : Re.rnum :=
  match a with
  | Fin q => Re.RFin (Q2R q)
  | PInf => Re.RPInf
  | NInf => Re.RNInf
  | NaN => Re.RNaN
  end.

(** The real value of a finite number. *)
Definition real_value (a : num) : R :=
  match a with
  | Fin q => Q2R q
  | _ => 0%R
  end.

(** [object[key] = value] for a number on a plain object, the map of its own
    properties: the property is written, except under the name
    ["__proto__"], where the assignment reaches the setter inherited from
    [Object.prototype], which ignores a value that is not an object. *)
Definition assign {A : Type} (object : gmap string A) (key : string) (value : A)
    : gmap string A :=
  if String.eqb key "__proto__" then object else <[key := value]> object.

(** [criteria.forEach((criterion, index) => { weights[criterion] =
    weightArray[index] })] on the empty object. *)
Definition weights_object (weightArray : list Re.rnum) (criteria : list string)
    : gmap string Re.rnum :=
  foldl (fun weights entry => assign weights entry.2 (Re.weight_at weightArray entry.1))
    ∅ (imap pair criteria).

Record AHPWeights : Type := mkAHPWeights {
  ahp_weights : gmap string Re.rnum;
  ahp_consistencyRatio : Re.rnum;
  ahp_isConsistent : bool
}.

Definition calculateAHPWeights
    (criteria : list string) (comparisons : gmap string num) : AHPWeights :=
  let matrix := map (map to_real) (buildComparisonMatrix criteria comparisons) in
  let weightArray := Re.calculateWeights matrix in
  let cr := Re.calculateConsistencyRatio matrix weightArray in
  {| ahp_weights := weights_object weightArray criteria;
     ahp_consistencyRatio := cr;
     ahp_isConsistent := isConsistent cr |}.

(** One judgment for two criteria. *)
Definition comfort_over_health : gmap string num :=
  <[ "Comfort-Health"%string := Fin 3 ]> ∅.

(** ** ahpCalculations.js: the estimate of calculateLambdaMax *)

(** The entries of a matrix and of a vector of real numbers, by index. *)
Definition real_entry (M : list (list R)) (i j : nat) : R :=
  default 0%R (matrix_get M i j).

Definition real_weight (v : list R) (j : nat) : R := default 0%R (v !! j).

(** The value [calculateLambdaMax] computes on finite entries: the mean over
    the rows of [(M v)_i / v_i]. *)
Definition lambda_estimate (M : list (list R)) (v : list R) : R :=
  let n := length M in
  (Re.Rsum (map (fun i =>
               Re.Rsum (map (fun j => real_entry M i j * real_weight v j) (seq 0 n))
               / real_weight v i)
          (seq 0 n))
   / INR n)%R.

(** [M[i][j] * M[j][i] = 1] *)
Definition reciprocal_matrix (M : list (list R)) : Prop :=
  forall i j a b,
    matrix_get M i j = Some a -> matrix_get M j i = Some b -> (a * b = 1)%R.

(** ** apiClient.js: transformPreferencesToBackendFormat *)

(** [Math.abs] *)
Definition Math_abs (a : num) : num :=
  match a with
  | Fin q => Fin (Qabs q)
  | PInf | NInf => PInf
  | NaN => NaN
  end.

Definition saatyValues : list num := [Fin 1; Fin 3; Fin 5; Fin 7; Fin 9].

(** The callback of the [reduce]:
    [Math.abs(curr - scaled) < Math.abs(prev - scaled) ? curr : prev]. *)
Definition nearer (scaled prev curr : num) : num :=
  if (Math_abs (curr - scaled) <? Math_abs (prev - scaled))%js then curr else prev.

(** [saatyValues.reduce(callback)] starts from the first value of the array,
    which is never empty. *)
Definition toSaatyScale (weight : num) : num :=
  let scaled := (Fin 1 + (weight * Fin 8))%js in
  match saatyValues with
  | first :: rest => foldl (nearer scaled) first rest
  | [] => NaN
  end.

(** [a || b] on a property that may be absent. *)
Definition or_else (a : option num) (b : num) : num :=
  if truthy_opt a then to_num a else b.

Record CriteriaWeights : Type := mkCriteriaWeights {
  cw_temperature : num;
  cw_humidity : num;
  cw_sound : num;
  cw_co2 : num;
  cw_facilities : num;
  cw_availability : num
}.

(** The [criteria_weights] of the request, from the [weights] object of the
    preferences. *)
Definition criteria_weights (weights : gmap string num) : CriteriaWeights :=
  let comfortWeight :=
    or_else (weights !! "Comfort"%string)
      (or_else (weights !! "comfort"%string) (Fin 0.40%Q)) in
  let healthWeight :=
    or_else (weights !! "Health"%string)
      (or_else (weights !! "health"%string) (Fin 0.35%Q)) in
  let usabilityWeight :=
    or_else (weights !! "Usability"%string)
      (or_else (weights !! "usability"%string) (Fin 0.25%Q)) in
  {| cw_temperature := toSaatyScale (comfortWeight * Fin 0.35%Q)%js;
     cw_humidity := toSaatyScale (comfortWeight * Fin 0.25%Q)%js;
     cw_sound := toSaatyScale (comfortWeight * Fin 0.25%Q)%js;
     cw_co2 := toSaatyScale healthWeight;
     cw_facilities := toSaatyScale (usabilityWeight * Fin 0.6%Q)%js;
     cw_availability := toSaatyScale (usabilityWeight * Fin 0.4%Q)%js |}.

(** The weights of a user who cares about comfort most. *)
Definition comfort_first : gmap string num :=
  <[ "Comfort"%string := Fin 0.6%Q ]>
  (<[ "Health"%string := Fin 0.3%Q ]>
   (<[ "Usability"%string := Fin 0.1%Q ]> ∅)).

(** Weights of 0, as an object that gives every group no importance. *)
Definition zero_weights : gmap string num :=
  <[ "Comfort"%string := Fin 0 ]>
  (<[ "Health"%string := Fin 0 ]>
   (<[ "Usability"%string := Fin 0 ]> ∅)).

(** ** apiClient.js: transformBackendResponseToFrontend, the category scores *)

(** The [criteria_scores] of a ranked room: a key is absent ([undefined]),
    or holds [null] ([Some None]) or a number. *)
Definition CriteriaScores : Type := gmap string (option num).

(** [criteria_scores[key]] when it is neither [undefined] nor [null]. *)
Definition score_value (criteria_scores : CriteriaScores) (key : string) : option num :=
  match criteria_scores !! key with
  | Some (Some value) => Some value
  | _ => None
  end.

(** The first candidate key that holds a score, else the fallback. *)
Fixpoint pickScore (criteria_scores : CriteriaScores)
    (candidates : list string) (fallback : num) : num :=
  match candidates with
  | [] => fallback
  | key :: rest =>
      match score_value criteria_scores key with
      | Some value => value
      | None => pickScore criteria_scores rest fallback
      end
  end.

(** [values.length] as a number. *)
Definition length_number {A : Type} (l : list A) : num :=
  Fin (inject_Z (Z.of_nat (length l))).

(** The mean of the scores the candidate keys hold; [None] is [null]. *)
Definition averageScores (criteria_scores : CriteriaScores)
    (candidates : list string) : option num :=
  let values := omap (score_value criteria_scores) candidates in
  if (length values =? 0)%nat then None
  else Some (foldl add (Fin 0) values / length_number values)%js.

Record CategoryScores : Type := mkCategoryScores {
  category_comfort : num;
  category_health : num;
  category_usability : num
}.

(** The three category scores of a ranked room, from its criteria scores. *)
Definition categoryScores (criteria_scores : CriteriaScores) : CategoryScores :=
  let tempScore := pickScore criteria_scores ["temperature"; "Temperature"]%string (Fin 0.8%Q) in
  let humidityScore := pickScore criteria_scores ["humidity"; "Humidity"]%string (Fin 0.8%Q) in
  let soundScore := pickScore criteria_scores ["sound"; "Noise"]%string (Fin 0.8%Q) in
  let lightScore := pickScore criteria_scores ["lighting"; "Lighting"]%string (Fin 0.8%Q) in
  let co2Score := pickScore criteria_scores ["co2"; "CO2"]%string (Fin 0.8%Q) in
  let vocScore := pickScore criteria_scores ["voc"; "VOC"]%string (Fin 0.8%Q) in
  let facilitiesFromSub :=
    averageScores criteria_scores
      ["seating_capacity"; "SeatingCapacity"; "equipment"; "Equipment";
       "av_facilities"; "AVFacilities"]%string in
  let facilitiesScore :=
    pickScore criteria_scores ["facilities"; "Facilities"]%string
      (default (Fin 0.8%Q) facilitiesFromSub) in
  let availabilityScore :=
    pickScore criteria_scores ["availability"; "Availability"]%string (Fin 1) in
  {| category_comfort :=
       ((tempScore + humidityScore + soundScore + lightScore) / Fin 4)%js;
     category_health := ((co2Score + vocScore) / Fin 2)%js;
     category_usability := ((facilitiesScore + availabilityScore) / Fin 2)%js |}.

(** The scores of a room the backend rated on some criteria only. *)
Definition partial_scores : CriteriaScores :=
  <[ "temperature"%string := Some (Fin 0.9%Q) ]>
  (<[ "CO2"%string := Some (Fin 0) ]>
   (<[ "equipment"%string := Some (Fin 0.5%Q) ]>
    (<[ "availability"%string := None ]> ∅))).

(** ** constants/euStandards.js: the whole table, getDefaultProfile,
       isOptimal and getCategory *)

(** [{ min, max }] of a category; the air criteria give a [max] only. *)
Record Band : Type := mkBand { band_min : option num; band_max : option num }.

Record Categories : Type := mkCategories {
  excellent : option Band;
  good : option Band;
  acceptable : option Band
}.

Record SeasonData : Type := mkSeasonData {
  season_optimalMin : num;
  season_optimalMax : num
}.

(** [{ [SEASONS.WINTER]: ..., [SEASONS.SUMMER]: ... }] *)
Record Seasons : Type := mkSeasons { WINTER : SeasonData; SUMMER : SeasonData }.

(** Every object literal inherits the members of [Object.prototype]: eleven
    functions and the accessor [__proto__], which reads as the prototype
    itself.  Each of them is truthy, and none has a property named
    [optimalMin], [optimalMax], [categories] or [seasons]. *)
Definition Object_prototype : list string :=
  ["constructor"; "__defineGetter__"; "__defineSetter__"; "hasOwnProperty";
   "__lookupGetter__"; "__lookupSetter__"; "isPrototypeOf"; "propertyIsEnumerable";
   "toString"; "valueOf"; "__proto__"; "toLocaleString"]%string.

Definition inherited (key : string) : bool :=
  existsb (String.eqb key) Object_prototype.

(** What [object[key]] finds on an object literal: a property of the object
    itself, a member inherited from [Object.prototype], or nothing
    ([undefined]). *)
Inductive member (A : Type) : Type :=
  | Own (value : A)
  | Inherited
  | Undefined.

Arguments Own {A} value.
Arguments Inherited {A}.
Arguments Undefined {A}.

(** The properties of the object itself, in the order of the literal. *)
Fixpoint own_property {A : Type} (object : list (string * A)) (key : string) : option A :=
  match object with
  | [] => None
  | (k, v) :: rest => if String.eqb key k then Some v else own_property rest key
  end.

(** [object[key]] on an object literal. *)
Definition property {A : Type} (object : list (string * A)) (key : string) : member A :=
  match own_property object key with
  | Some value => Own value
  | None => if inherited key then Inherited else Undefined
  end.

(** [seasons[season]] *)
Definition season_data (seasons : Seasons) (season : string) : member SeasonData :=
  property [("winter"%string, WINTER seasons); ("summer"%string, SUMMER seasons)] season.

Record Standard : Type := mkStandard {
  st_min : num;
  st_max : num;
  st_seasons : option Seasons;
  optimalMin : option num;
  optimalMax : option num;
  categories : Categories
}.

Definition band (lo hi : Q) : option Band := Some (mkBand (Some (Fin lo)) (Some (Fin hi))).

Definition band_up_to (hi : Q) : option Band := Some (mkBand None (Some (Fin hi))).

(** The entries of [EU_STANDARDS], in the order of the source. *)
Definition standards_table : list (string * Standard) :=
  [ ("temperature",
     mkStandard (Fin 18) (Fin 27)
       (Some (mkSeasons (mkSeasonData (Fin 20) (Fin 24)) (mkSeasonData (Fin 23) (Fin 26))))
       (Some (Fin 20)) (Some (Fin 24))
       (mkCategories (band 20 24) (band 19 25) (band 18 27)));
    ("co2",
     mkStandard (Fin 400) (Fin 1000) None (Some (Fin 400)) (Some (Fin 800))
       (mkCategories (band_up_to 600) (band_up_to 800) (band_up_to 1000)));
    ("humidity",
     mkStandard (Fin 30) (Fin 70) None (Some (Fin 40)) (Some (Fin 60))
       (mkCategories (band 40 60) (band 35 65) (band 30 70)));
    ("noise",
     mkStandard (Fin 30) (Fin 45) None (Some (Fin 30)) (Some (Fin 35))
       (mkCategories (band_up_to 30) (band_up_to 35) (band_up_to 45)));
    ("light",
     mkStandard (Fin 200) (Fin 750) None (Some (Fin 300)) (Some (Fin 500))
       (mkCategories (band 300 500) (band 250 600) (band 200 750)));
    ("voc",
     mkStandard (Fin 0) (Fin 400) None (Some (Fin 0)) (Some (Fin 200))
       (mkCategories (band_up_to 100) (band_up_to 200) (band_up_to 400)));
    ("airQuality",
     mkStandard (Fin 0) (Fin 100) None (Some (Fin 0)) (Some (Fin 50))
       (mkCategories (band_up_to 25) (band_up_to 50) (band_up_to 100)));
    ("pm25",
     mkStandard (Fin 0) (Fin 75) None (Some (Fin 0)) (Some (Fin 15))
       (mkCategories (band_up_to 5) (band_up_to 15) (band_up_to 35)));
    ("pm10",
     mkStandard (Fin 0) (Fin 150) None (Some (Fin 0)) (Some (Fin 45))
       (mkCategories (band_up_to 15) (band_up_to 45) (band_up_to 75))) ]%string.

(** The body of the [forEach] of [getDefaultProfile].  In
    [seasons[season] || seasons[SEASONS.WINTER]] an inherited member is
    truthy and is taken; its [optimalMin] and [optimalMax] are
    [undefined]. *)
Definition default_range (season key : string) (standard : Standard) : Range :=
  match (if String.eqb key "temperature" then st_seasons standard else None) with
  | Some seasons =>
      match season_data seasons season with
      | Own seasonData =>
          mkRange (season_optimalMin seasonData) (season_optimalMax seasonData)
      | Inherited => mkRange NaN NaN
      | Undefined =>
          let seasonData := WINTER seasons in
          mkRange (season_optimalMin seasonData) (season_optimalMax seasonData)
      end
  | None => mkRange (to_num (optimalMin standard)) (to_num (optimalMax standard))
  end.

(** [getDefaultProfile(season)]; an argument left out is ['winter'].  The
    keys are those of the table, so every assignment [profile[key] = ...]
    stores its range. *)
Definition getDefaultProfile (season : option string) : gmap string Range :=
  let season := default "winter"%string season in
  foldl (fun profile entry => <[entry.1 := default_range season entry.1 entry.2]> profile)
    ∅ standards_table.

(** The temperature range [getDefaultProfile] arrives at, by season
    argument. *)
Definition default_temperature (season : string) : Range :=
  if String.eqb season "summer" then mkRange (Fin 23) (Fin 26)
  else if inherited season then mkRange NaN NaN
  else mkRange (Fin 20) (Fin 24).

(** The profile object as the scoring functions read it, property by
    property. *)
Definition profile_of_object (profile : gmap string Range) : Profile :=
  {| profile_temperature := profile !! "temperature"%string;
     profile_humidity := profile !! "humidity"%string;
     profile_noise := profile !! "noise"%string;
     profile_light := profile !! "light"%string;
     profile_co2 := profile !! "co2"%string;
     profile_voc := profile !! "voc"%string;
     profile_pm25 := profile !! "pm25"%string;
     profile_pm10 := profile !! "pm10"%string |}.

(** [isOptimal(criterion, value)], for a number [value].  An inherited
    member passes [if (!standard) return false], and both of its bounds are
    [undefined]. *)
Definition isOptimal (criterion : string) (value : num) : bool :=
  match property standards_table criterion with
  | Undefined => false
  | Inherited => true
  | Own standard =>
      if match optimalMin standard with
         | Some m => (value <? m)%js
         | None => false
         end then false
      else if match optimalMax standard with
              | Some m => (value >? m)%js
              | None => false
              end then false
      else true
  end.

(** [(min === undefined || value >= min) && (max === undefined || value <= max)] *)
Definition in_band (value : num) (b : Band) : bool :=
  match band_min b with
  | None => true
  | Some m => (value >=? m)%js
  end
  &&
  match band_max b with
  | None => true
  | Some m => (value <=? m)%js
  end.

Definition in_category (value : num) (category : option Band) : bool :=
  match category with
  | Some b => in_band value b
  | None => false
  end.

(** [getCategory(criterion, value)], for a number [value].  An inherited
    member passes [if (!standard) return 'unknown']; its [categories] are
    [undefined], and reading [categories.excellent] raises a [TypeError]. *)
Definition getCategory (criterion : string) (value : num) : completion string :=
  match property standards_table criterion with
  | Undefined => Returns "unknown"%string
  | Inherited => Throws "TypeError"
  | Own standard =>
      Returns
        (if in_category value (excellent (categories standard)) then "excellent"
         else if in_category value (good (categories standard)) then "good"
         else if in_category value (acceptable (categories standard)) then "acceptable"
         else "poor")%string
  end.

(** ** hooks/useRoomRanking.js: evaluateRooms *)

(** What a rejected call throws: an [Error] carries a message only, the
    error of a failed request may carry the response of the server and the
    request. *)
Record ErrorResponse : Type := mkErrorResponse {
  status : nat;
  data_message : option string
}.

Record Thrown : Type := mkThrown {
  err_response : option ErrorResponse;
  err_request : bool;
  err_message : string
}.

(** [new Error(message)] *)
Definition new_Error (message : string) : Thrown := mkThrown None false message.

Inductive outcome (A : Type) : Type :=
  | Resolved (value : A)
  | Rejected (err : Thrown).

Arguments Resolved {A} value.
Arguments Rejected {A} err.

(** A string in a condition: the empty string is falsy. *)
Definition truthy_string (s : string) : bool := negb (String.eqb s "").

(** The message the [catch] block derives from what was thrown. *)
Definition errorMessage (err : Thrown) : string :=
  let errorMessage := "Failed to evaluate rooms"%string in
  match err_response err with
  | Some response =>
      if (status response =? 400)%nat
      then "Invalid preferences. Please check your inputs."%string
      else if (status response =? 404)%nat
      then "API endpoint not found. Backend may not be running."%string
      else if (status response =? 500)%nat
      then "Server error. Please try again later."%string
      else if (status response =? 503)%nat
      then "Service unavailable. Backend may be down."%string
      else match data_message response with
           | Some message => if truthy_string message then message else errorMessage
           | None => errorMessage
           end
  | None =>
      if err_request err
      then "Cannot connect to backend. Please check if the server is running."%string
      else if truthy_string (err_message err) then err_message err
      else errorMessage
  end.

(** The state of the hook. *)
Record HookState : Type := mkHookState {
  hook_rankings : option Evaluation;
  loading : bool;
  error : option string
}.

(** The [try] block, over the client it calls; a response that is empty or
    lacks its rankings is [None]. *)
Definition try_evaluateRooms
    (api : Preferences -> outcome (option Evaluation))
    (preferences : option Preferences) : outcome Evaluation :=
  match preferences with
  | None => Rejected (new_Error "Preferences are required")
  | Some preferences =>
      match api preferences with
      | Rejected err => Rejected err
      | Resolved None => Rejected (new_Error "Invalid response from server")
      | Resolved (Some result) =>
          if (length (rankings result) =? 0)%nat
          then Rejected (new_Error "No rooms match your criteria")
          else Resolved result
      end
  end.

(** [evaluateRooms] of the hook: the state it leaves and what the caller
    gets. *)
Definition useRoomRanking_evaluateRooms
    (api : Preferences -> outcome (option Evaluation))
    (preferences : option Preferences) (state : HookState)
    : HookState * outcome Evaluation :=
  (* setLoading(true); setError(null) *)
  let state := mkHookState (hook_rankings state) true None in
  match try_evaluateRooms api preferences with
  | Resolved result =>
      (* setRankings(result); finally setLoading(false) *)
      (mkHookState (Some result) false (error state), Resolved result)
  | Rejected err =>
      (* setError(errorMessage); finally setLoading(false) *)
      (mkHookState (hook_rankings state) false (Some (errorMessage err)),
       Rejected (new_Error (errorMessage err)))
  end.

(** [apiClient.evaluateRooms] with the mock in use: the promise of
    [mockApi.evaluateRooms] always resolves. *)
Definition mock_evaluateRooms (roomsData : list Room) (preferences : Preferences)
    : outcome (option Evaluation) :=
  Resolved (Some (evaluateRooms roomsData preferences)).

(** A state left by an earlier, failed call. *)
Definition failed_state : HookState :=
  mkHookState None false (Some "Failed to evaluate rooms"%string).

(** ** Rooms that meet the preferences *)

(** The preferred ranges in force: those of the profile, else the fallbacks
    of the scoring functions. *)
Definition preferred_temperature (profile : Profile) : Range :=
  or_default (profile_temperature profile) (mkRange (Fin 20) (Fin 24)).
Definition preferred_humidity (profile : Profile) : Range :=
  or_default (profile_humidity profile) (mkRange (Fin 40) (Fin 60)).
Definition preferred_noise (profile : Profile) : Range :=
  or_default (profile_noise profile) (mkRange (Fin 30) (Fin 35)).
Definition preferred_light (profile : Profile) : Range :=
  or_default (profile_light profile) (mkRange (Fin 300) (Fin 500)).
Definition preferred_co2 (profile : Profile) : Range :=
  or_default (profile_co2 profile) (mkRange (Fin 400) (Fin 800)).
Definition preferred_air_quality : Range := mkRange (Fin 0) (Fin 50).
Definition preferred_voc (profile : Profile) : Range :=
  or_default (profile_voc profile) (mkRange (Fin 0) (Fin 200)).
Definition preferred_pm25 (profile : Profile) : Range :=
  or_default (profile_pm25 profile) (mkRange (Fin 0) (Fin 15)).
Definition preferred_pm10 (profile : Profile) : Range :=
  or_default (profile_pm10 profile) (mkRange (Fin 0) (Fin 45)).

(** A reading inside a preferred range. *)
Definition inside (reading : option num) (user : Range) : Prop :=
  exists v, reading = Some v /\
    (v >=? range_min user)%js = true /\ (v <=? range_max user)%js = true.

(** A reading inside a preferred range that is not 0. *)
Definition inside_nonzero (reading : option num) (user : Range) : Prop :=
  inside reading user /\ truthy_opt reading = true.

(** The room with other air readings. *)
Definition with_air_readings (room : Room) (air_quality voc pm25 pm10 : option num)
    : Room :=
  mkRoom (room_id room) (name room) (temperature room) (co2 room) (humidity room)
    air_quality voc pm25 pm10 (noise room) (light room)
    (seating_capacity room) (has_projector room) (computers room) (has_robots room).

(** A room whose readings all are inside the fallback ranges. *)
Definition preferred_room : Room :=
  mkRoom "Room_P" "Room P" (Some (Fin 22)) (Some (Fin 600)) (Some (Fin 50))
    (Some (Fin 20)) (Some (Fin 100)) (Some (Fin 10)) (Some (Fin 20))
    (Some (Fin 32)) (Some (Fin 400))
    (Some (Fin 30)) true (Some (Fin 20)) false.

(** Row [i] of the matrix is, entry by entry, at least row [j]. *)
Definition dominates (M : list (list R)) (i j : nat) : Prop :=
  exists row_i row_j,
    M !! i = Some row_i /\ M !! j = Some row_j /\ Forall2 Rle row_j row_i.

(** ** Rooms compared by their facilities *)

(** A count that is absent on the left, or finite on both sides and not
    larger on the left. *)
Definition count_at_most (a b : option num) : Prop :=
  match a with
  | None => True
  | Some x => exists p q, x = Fin p /\ b = Some (Fin q) /\ (p <= q)%Q
  end.

(** The second room has every facility of the first, and at least as many
    computers and seats. *)
Definition at_least_as_equipped (room room' : Room) : Prop :=
  (has_projector room = true -> has_projector room' = true) /\
  (has_robots room = true -> has_robots room' = true) /\
  count_at_most (computers room) (computers room') /\
  count_at_most (seating_capacity room) (seating_capacity room').

(** ** components/ProfileAdjuster.jsx: the profile the sliders edit *)

Definition displayCriteria : list string :=
  ["temperature"; "co2"; "humidity"; "noise"; "light"; "voc"; "pm25"; "pm10"]%string.

(** The state update of [handleCriterionChange]: the slider sets the [max]
    of the criterion and keeps its [min], which falls back to the optimal
    minimum of the table.  The profile is a plain object, [prev] holds its
    own properties: what [prev[criterion]] inherits has no [min].  For a
    name the table inherits the fallback is [undefined]; for a name the
    table does not know it raises a [TypeError].  The computed key of the
    new object literal makes a property of its own under any name. *)
Definition handleCriterionChange
    (prev : gmap string Range) (criterion : string) (value : num)
    : completion (gmap string Range) :=
  let previous_min := range_min <$> prev !! criterion in
  if truthy_opt previous_min
  then Returns (<[criterion := mkRange (to_num previous_min) value]> prev)
  else
    match property standards_table criterion with
    | Own standard =>
        Returns (<[criterion := mkRange (to_num (optimalMin standard)) value]> prev)
    | Inherited => Returns (<[criterion := mkRange NaN value]> prev)
    | Undefined => Throws "TypeError"
    end.

(** The bounds of the slider of a displayed criterion: the [min] and [max]
    of its entry in the table. *)
Definition slider_range (criterion : string) : option Range :=
  (fun standard => mkRange (st_min standard) (st_max standard))
    <$> own_property standards_table criterion.

(** The preferences of the page before the comparison matrix reported its
    weights: [weights: {}], [consistencyRatio: 0], an empty profile and no
    requirement set. *)
Definition initial_page_preferences : Preferences :=
  mkPreferences (Some empty_profile) (Some (mkWeights NaN NaN NaN)) (Some (Fin 0))
    (Some (mkFacilityRequirements None None None None)).

(** Judgments of the three pairs that are transitive: 6 = 2 * 3. *)
Definition transitive_comparisons : gmap string num :=
  <[ "Comfort-Health"%string := Fin 2 ]>
  (<[ "Comfort-Usability"%string := Fin 6 ]>
   (<[ "Health-Usability"%string := Fin 3 ]> ∅)).

(** ** The same code on double-precision numbers

    The numbers of the program are IEEE 754 doubles.  This module repeats
    [scoreCriterion], the weighted sum of [calculateHealthScore] and
    [buildComparisonMatrix] on the doubles themselves, to evaluate the code
    where rounding, overflow or the negative zero make a difference. *)

Module Double.

(** A number is falsy when it is [0], [-0] or [NaN]. *)
Definition truthy (a : float) : bool :=
  negb (PrimFloat.eqb a 0%float || PrimFloat.is_nan a).

Definition truthy_opt (v : option float) : bool :=
  match v with
  | Some a => truthy a
  | None => false
  end.

Definition to_num (v : option float) : float :=
  match v with
  | Some a => a
  | None => nan
  end.

(** [Math.max(a, b)]: [NaN] if an argument is, and [+0] above [-0]. *)
Definition Math_max (a b : float) : float :=
  if PrimFloat.is_nan a || PrimFloat.is_nan b then nan
  else if PrimFloat.ltb a b then b
  else if PrimFloat.ltb b a then a
  else if PrimFloat.eqb a 0%float then PrimFloat.add a b
  else a.

Definition scoreCriterion
    (value : option float) (userMin userMax absoluteMin absoluteMax : float) : float :=
  match value with
  | None => 0%float
  | Some value =>
      if PrimFloat.leb userMin value && PrimFloat.leb value userMax then 1%float
      else if PrimFloat.ltb value userMin then
        let range := (userMin - absoluteMin)%float in
        let distance := (userMin - value)%float in
        Math_max 0 (1 - (distance / range) * 0.7)%float
      else
        let range := (absoluteMax - userMax)%float in
        let distance := (value - userMax)%float in
        Math_max 0 (1 - (distance / range) * 0.7)%float
  end.

(** The [return] of [calculateHealthScore], from its five leaf scores. *)
Definition weighted_health (co2Score aqScore vocScore pm25Score pm10Score : float) : float :=
  (co2Score * 0.4 + aqScore * 0.2 + vocScore * 0.15 + pm25Score * 0.15
   + pm10Score * 0.1)%float.

Definition compare_pair
    (criteria : list string) (comparisons : gmap string float)
    (i j : nat) (matrix : list (list float)) : list (list float) :=
  let key := comparison_key criteria i j in
  let reverseKey := comparison_key criteria j i in
  if truthy_opt (comparisons !! key) then
    let matrix := matrix_set matrix i j (to_num (comparisons !! key)) in
    matrix_set matrix j i (1 / to_num (comparisons !! key))%float
  else if truthy_opt (comparisons !! reverseKey) then
    let matrix := matrix_set matrix j i (to_num (comparisons !! reverseKey)) in
    matrix_set matrix i j (1 / to_num (comparisons !! reverseKey))%float
  else
    let matrix := matrix_set matrix i j 1%float in
    matrix_set matrix j i 1%float.

Definition inner_loop
    (criteria : list string) (comparisons : gmap string float)
    (n i : nat) (matrix : list (list float)) : list (list float) :=
  foldl (fun m j => compare_pair criteria comparisons i j m) matrix
    (seq (i + 1) (n - (i + 1))).

Definition buildComparisonMatrix
    (criteria : list string) (comparisons : gmap string float) : list (list float) :=
  let n := length criteria in
  let matrix := replicate n (replicate n 1%float) in
  foldl (fun m i => inner_loop criteria comparisons n i m) matrix (seq 0 n).

(** The one judgment [A-B: 49]. *)
Definition one_judgment : gmap string float := <[ "A-B"%string := 49%float ]> ∅.

End Double.

(** A profile whose temperature range has a [min] only, and three rooms of
    which the second alone has a temperature reading. *)
Definition min_only_preferences : Preferences :=
  mkPreferences
    (Some (mkProfile (Some (mkRange (Fin 20) NaN)) None None None None None None None))
    None None None.

Definition three_rooms : list Room :=
  [ mkRoom "Room_A" "Room A" None None None None None None None None None
      None false None false;
    mkRoom "Room_B" "Room B" (Some (Fin 22)) None None None None None None None None
      None false None false;
    mkRoom "Room_C" "Room C" None None None None None None None None None
      None true None false ].

(* ===================================================================== *)
(** * Part II: properties                                                 *)
(* ===================================================================== *)

(** Linear arithmetic over the rationals and over the reals. *)
Ltac qlra := Lqa.lra.
Ltac rlra := Lra.lra.

(** ** Comparisons of finite numbers *)

Lemma ltb_Fin (x y : Q) : (Fin x <? Fin y)%js = true <-> (x < y)%Q.
Proof.
  unfold ltb. rewrite Qlt_alt. destruct (x ?= y)%Q; split; congruence.
Qed.

Lemma leb_Fin (x y : Q) : (Fin x <=? Fin y)%js = true <-> (x <= y)%Q.
Proof.
  unfold leb. rewrite Qle_alt. destruct (x ?= y)%Q; split; congruence.
Qed.

Lemma ltb_Fin_false (x y : Q) : (Fin x <? Fin y)%js = false <-> (y <= x)%Q.
Proof.
  rewrite <- not_true_iff_false, ltb_Fin. split; [apply Qnot_lt_le | apply Qle_not_lt].
Qed.

Lemma leb_Fin_false (x y : Q) : (Fin x <=? Fin y)%js = false <-> (y < x)%Q.
Proof.
  rewrite <- not_true_iff_false, leb_Fin. split; [apply Qnot_le_lt | apply Qlt_not_le].
Qed.

Lemma Qeq_bool_false_iff (x y : Q) : Qeq_bool x y = false <-> ~ (x == y)%Q.
Proof.
  rewrite <- not_true_iff_false, Qeq_bool_iff. reflexivity.
Qed.

Lemma Qcompare_0_Gt (x : Q) : (0 < x)%Q -> (x ?= 0)%Q = Gt.
Proof. intros H. apply Qgt_alt. exact H. Qed.

Lemma Qdiv_nonneg (d r : Q) : (0 <= d)%Q -> (0 < r)%Q -> (0 <= d / r)%Q.
Proof.
  intros Hd Hr. apply Qle_shift_div_l; [exact Hr | qlra].
Qed.

(** ** The linear decay of [scoreCriterion] *)

(** The penalised score [max(0, 1 - (distance / range) * 0.7)] lies in
    [[0, 1]] as soon as the distance is positive and the range is not
    negative; a zero range gives an infinite quotient and the score 0. *)
Lemma decay_bounds (distance range : Q) :
  (0 < distance)%Q -> (0 <= range)%Q ->
  in_unit_interval
    (Math_max (Fin 0) (Fin 1 - (Fin distance / Fin range) * Fin 0.7%Q)%js).
Proof.
  intros Hd Hr. unfold div.
  destruct (Qeq_bool range 0) eqn:E.
  - rewrite (Qcompare_0_Gt _ Hd). vm_compute. split; reflexivity.
  - apply Qeq_bool_false_iff in E.
    assert (Hpos : (0 < range)%Q).
    { destruct (Qle_lt_or_eq _ _ Hr) as [H | H]; [exact H | symmetry in H; contradiction]. }
    assert (Hq : (0 <= distance / range)%Q) by (apply Qdiv_nonneg; qlra).
    cbn [mul sub add neg Math_max].
    destruct (Fin 0 <? Fin (1 + - (distance / range * 0.7)))%js eqn:L.
    + apply ltb_Fin in L. split; apply leb_Fin; qlra.
    + split; apply leb_Fin; qlra.
Qed.

(** ** Doubles: where rounding, overflow and the negative zero show *)

(** With the preferred minimum [-0] on the absolute minimum [0] the range is
    [-0], the quotient [-Infinity] and the score [+Infinity]. *)
Lemma scoreCriterion_negative_zero :
  Double.scoreCriterion (Some (-1)%float) neg_zero 50 0 100 = infinity.
Proof. reflexivity. Qed.

(** Near the largest double both the range and the distance overflow, and
    the score is [NaN]. *)
Lemma scoreCriterion_overflow :
  Double.scoreCriterion (Some (-1e308)%float) 1e308 1e308 (-1e308) 1e308 = nan.
Proof. reflexivity. Qed.

(** On the absolute bound the score is the double [1 - 0.7], which is not
    the double 0.3. *)
Lemma scoreCriterion_rounded_bound :
  Double.scoreCriterion (Some 18%float) 20 24 18 27 = 0.30000000000000004%float /\
  PrimFloat.eqb 0.30000000000000004 0.3 = false.
Proof. split; reflexivity. Qed.

(** Rounding can lift a score just below 1 to 1: a reading that is not
    inside the inverted range [[1, 0.5]] scores exactly 1. *)
Lemma scoreCriterion_rounded_up :
  Double.scoreCriterion (Some 0.99999999999999989%float) 1 0.5 (-1000) 100 = 1%float.
Proof. reflexivity. Qed.

(** Five leaf scores of 1 add up to a health score above 1. *)
Lemma weighted_health_rounded :
  Double.weighted_health 1 1 1 1 1 = 1.0000000000000002%float /\
  PrimFloat.ltb 1 (Double.weighted_health 1 1 1 1 1) = true.
Proof. split; reflexivity. Qed.

(** For the judgments 1 to 9 of the Saaty scale the product of a judgment
    and its rounded inverse is 1. *)
Lemma reciprocal_products_to_nine :
  forallb (fun x => PrimFloat.eqb (x * (1 / x)) 1) [1; 2; 3; 4; 5; 6; 7; 8; 9]%float
  = true.
Proof. reflexivity. Qed.

(** C1 (as stated, fails): the ranges are not checked.  With a preferred
    minimum of 15 below the absolute minimum of 18, the value 10 is scored
    13/6, above 1.  With the preferred range [[22, 20]] (the threshold
    slider moves the maximum below the minimum), the value 21 is above
    [userMax] and yet gets the score of the lower branch, 33/40, not the
    9/10 of the upper one. *)
Lemma scoreCriterion_unchecked_ranges :
  (let score := scoreCriterion (Some (Fin 10)) (Fin 15) (Fin 22) (Fin 18) (Fin 27) in
   (Fin 10 <? Fin 15)%js = true /\
   (score === Fin (13 # 6))%js = true /\
   ~ in_unit_interval score) /\
  (let score := scoreCriterion (Some (Fin 21)) (Fin 22) (Fin 20) (Fin 18) (Fin 27) in
   (Fin 21 >? Fin 20)%js = true /\
   (score === Fin (33 # 40))%js = true /\
   (Math_max (Fin 0)
      (Fin 1 - ((Fin 21 - Fin 20) / (Fin 27 - Fin 20)) * Fin 0.7%Q)
    === Fin (9 # 10))%js = true).
Proof.
  vm_compute. repeat split. intros [_ H]. discriminate H.
Qed.

Lemma scoreCriterion_inside (v userMin userMax absMin absMax : num) :
  (v >=? userMin)%js = true -> (v <=? userMax)%js = true ->
  scoreCriterion (Some v) userMin userMax absMin absMax = Fin 1.
Proof.
  intros H1 H2. unfold scoreCriterion. rewrite H1, H2. reflexivity.
Qed.

Lemma scoreCriterion_below (v userMin userMax absMin absMax : num) :
  (v <? userMin)%js = true ->
  scoreCriterion (Some v) userMin userMax absMin absMax
  = Math_max (Fin 0) (Fin 1 - ((userMin - v) / (userMin - absMin)) * Fin 0.7%Q)%js.
Proof.
  intros H. unfold scoreCriterion. rewrite H.
  replace (v >=? userMin)%js with false; [reflexivity |].
  symmetry. unfold geb. destruct v, userMin; try reflexivity; try discriminate H.
  apply leb_Fin_false. apply ltb_Fin in H. exact H.
Qed.

Lemma scoreCriterion_above (v userMin userMax absMin absMax : num) :
  (v >? userMax)%js = true -> (v <? userMin)%js = false ->
  scoreCriterion (Some v) userMin userMax absMin absMax
  = Math_max (Fin 0) (Fin 1 - ((v - userMax) / (absMax - userMax)) * Fin 0.7%Q)%js.
Proof.
  intros H1 H2. unfold scoreCriterion. rewrite H2.
  replace (v <=? userMax)%js with false; [rewrite andb_false_r; reflexivity |].
  symmetry. unfold gtb in H1. destruct v, userMax; try reflexivity; try discriminate H1.
  apply leb_Fin_false. apply ltb_Fin in H1. exact H1.
Qed.

Lemma scoreCriterion_bounded (x a b lo hi : Q) :
  (lo <= a)%Q -> (b <= hi)%Q ->
  in_unit_interval (scoreCriterion (Some (Fin x)) (Fin a) (Fin b) (Fin lo) (Fin hi)).
Proof.
  intros Hlo Hhi. unfold scoreCriterion, geb.
  destruct (Fin a <=? Fin x)%js eqn:E1; [destruct (Fin x <=? Fin b)%js eqn:E2 |]; cbn [andb].
  - split; reflexivity.
  - apply leb_Fin_false in E2.
    replace (Fin x <? Fin a)%js with false
      by (symmetry; apply ltb_Fin_false; apply leb_Fin in E1; exact E1).
    cbn [sub add neg]. apply decay_bounds; qlra.
  - apply leb_Fin_false in E1.
    replace (Fin x <? Fin a)%js with true by (symmetry; apply ltb_Fin; exact E1).
    cbn [sub add neg]. apply decay_bounds; qlra.
Qed.

(** C1 (amended): [scoreCriterion] returns 0 for a missing value, exactly 1
    inside the preferred range, the decayed score
    [max(0, 1 - ((userMin - value) / (userMin - absMin)) * 0.7)] below it and
    the symmetric one above it (for a value that is not also below
    [userMin]); for finite arguments other than the negative zero, of
    magnitude at most 1e300, with the preferred range inside the absolute
    range, the result lies in [[0, 1]].  The two exclusions are needed: see
    [scoreCriterion_negative_zero] and [scoreCriterion_overflow]. *)
Theorem scoreCriterion_cases (userMin userMax absMin absMax : num) :
  scoreCriterion None userMin userMax absMin absMax = Fin 0 /\
  (forall v, (v >=? userMin)%js = true -> (v <=? userMax)%js = true ->
     scoreCriterion (Some v) userMin userMax absMin absMax = Fin 1) /\
  (forall v, (v <? userMin)%js = true ->
     scoreCriterion (Some v) userMin userMax absMin absMax
     = Math_max (Fin 0)
         (Fin 1 - ((userMin - v) / (userMin - absMin)) * Fin 0.7%Q)%js) /\
  (forall v, (v >? userMax)%js = true -> (v <? userMin)%js = false ->
     scoreCriterion (Some v) userMin userMax absMin absMax
     = Math_max (Fin 0)
         (Fin 1 - ((v - userMax) / (absMax - userMax)) * Fin 0.7%Q)%js) /\
  (forall v, moderate v -> moderate userMin -> moderate userMax ->
     moderate absMin -> moderate absMax ->
     (absMin <=? userMin)%js = true -> (userMax <=? absMax)%js = true ->
     in_unit_interval (scoreCriterion (Some v) userMin userMax absMin absMax)).
Proof.
  split; [reflexivity |]. split; [| split; [| split]].
  - intros v. apply scoreCriterion_inside.
  - intros v. apply scoreCriterion_below.
  - intros v. apply scoreCriterion_above.
  - intros v (x & -> & _) (a & -> & _) (b & -> & _) (lo & -> & _) (hi & -> & _) Hlo Hhi.
    apply scoreCriterion_bounded; apply leb_Fin; assumption.
Qed.

Lemma scoreCriterion_cases_witness :
  scoreCriterion (Some (Fin 23)) (Fin 19) (Fin 22) (Fin 15) (Fin 30)
  = Math_max (Fin 0)
      (Fin 1 - ((Fin 23 - Fin 22) / (Fin 30 - Fin 22)) * Fin 0.7%Q)%js /\
  in_unit_interval (scoreCriterion (Some (Fin 23)) (Fin 19) (Fin 22) (Fin 15) (Fin 30)).
Proof.
  destruct (scoreCriterion_cases (Fin 19) (Fin 22) (Fin 15) (Fin 30))
    as (_ & _ & _ & Habove & Hbound).
  split.
  - apply Habove; reflexivity.
  - apply Hbound;
      try (eexists; split; [reflexivity | vm_compute; discriminate]); reflexivity.
Defined.





(** ** Missing readings *)

Lemma length_sort_insert {A : Type} (comparefn : A -> A -> num) (x : A) (l : list A) :
  length (sort_insert comparefn x l) = S (length l).
Proof.
  induction l as [| y l IH]; cbn [sort_insert]; [reflexivity |].
  destruct (SortCompare comparefn x y >? Fin 0)%js; cbn [length]; congruence.
Qed.

Lemma length_js_sort {A : Type} (comparefn : A -> A -> num) (l : list A) :
  length (js_sort comparefn l) = length l.
Proof.
  induction l as [| x l IH]; cbn [js_sort]; [reflexivity |].
  rewrite length_sort_insert, IH. reflexivity.
Qed.

Lemma length_rankings (roomsData : list Room) (preferences : Preferences) :
  length (rankings (evaluateRooms roomsData preferences)) = length roomsData.
Proof.
  unfold evaluateRooms. cbn [rankings].
  rewrite length_imap, length_js_sort, length_map. reflexivity.
Qed.

(** C6 (as stated, fails): a room without a noise reading gets the noise
    score 0.8, not 0. *)
Lemma missing_noise_scores_default :
  noise bare_room = None /\
  noiseScore bare_room empty_profile = Fin 0.8%Q /\
  (noiseScore bare_room empty_profile === Fin 0)%js = false.
Proof. vm_compute. repeat split. Qed.

(** C6 (amended): a missing reading never raises and every room is ranked;
    a missing temperature, humidity or CO2 reading scores 0, a missing
    noise, light, air quality, VOC, PM2.5 or PM10 reading scores the
    default 0.8. *)
Theorem missing_reading_scores (room : Room) (profile : Profile) :
  (temperature room = None -> tempScore room profile = Fin 0) /\
  (humidity room = None -> humidScore room profile = Fin 0) /\
  (co2 room = None -> co2Score room profile = Fin 0) /\
  (noise room = None -> noiseScore room profile = Fin 0.8%Q) /\
  (light room = None -> lightScore room profile = Fin 0.8%Q) /\
  (air_quality room = None -> aqScore room = Fin 0.8%Q) /\
  (voc room = None -> vocScore room profile = Fin 0.8%Q) /\
  (pm25 room = None -> pm25Score room profile = Fin 0.8%Q) /\
  (pm10 room = None -> pm10Score room profile = Fin 0.8%Q) /\
  (forall roomsData preferences,
     length (rankings (evaluateRooms roomsData preferences)) = length roomsData).
Proof.
  unfold tempScore, humidScore, co2Score, noiseScore, lightScore, aqScore,
    vocScore, pm25Score, pm10Score, score_or_default.
  repeat split; try (intros ->; reflexivity).
  apply length_rankings.
Qed.

Lemma missing_reading_scores_witness :
  tempScore bare_room empty_profile = Fin 0 /\
  pm10Score bare_room empty_profile = Fin 0.8%Q /\
  length (rankings (evaluateRooms [bare_room] no_preferences)) = 1%nat.
Proof.
  destruct (missing_reading_scores bare_room empty_profile)
    as (Ht & _ & _ & _ & _ & _ & _ & _ & Hpm & Hlen).
  split; [apply Ht; reflexivity |].
  split; [apply Hpm; reflexivity |].
  apply (Hlen [bare_room] no_preferences).
Defined.

(** ** The usability score *)

Lemma Math_min_one (q : Q) :
  (1 # 2 <= q)%Q ->
  (Fin 0.5%Q <=? Math_min (Fin 1) (Fin q))%js = true /\
  (Math_min (Fin 1) (Fin q) <=? Fin 1)%js = true.
Proof.
  intros H. cbn [Math_min].
  destruct (Fin q <? Fin 1)%js eqn:E.
  - apply ltb_Fin in E. split; apply leb_Fin; qlra.
  - split; reflexivity.
Qed.

(** The bonus for computers is a finite amount that is not negative. *)
Lemma computers_bonus (c : num) :
  (c >? Fin 0)%js = true ->
  exists q, Math_min (Fin 0.3%Q) (c / Fin 100)%js = Fin q /\ (0 <= q)%Q.
Proof.
  unfold gtb. intros H. destruct c as [x | | |]; try discriminate H.
  - apply ltb_Fin in H. cbn [div Math_min].
    change (Qeq_bool 100 0) with false. cbn iota.
    destruct (Fin (x / 100) <? Fin 0.3%Q)%js.
    + exists (x / 100)%Q. split; [reflexivity | apply Qdiv_nonneg; qlra].
    + exists 0.3%Q. split; [reflexivity | qlra].
  - exists 0.3%Q. split; [reflexivity | qlra].
Qed.

(** Before the cap the score is a finite number not below the base 0.5. *)
Lemma usability_uncapped (room : Room) :
  exists q, calculateUsabilityScore room = Math_min (Fin 1) (Fin q) /\ (1 # 2 <= q)%Q.
Proof.
  unfold calculateUsabilityScore. cbv zeta.
  set (s0 := Fin 0.5%Q).
  assert (H0 : exists q, s0 = Fin q /\ (1 # 2 <= q)%Q)
    by (exists 0.5%Q; split; [reflexivity | qlra]).
  set (s1 := if has_projector room then (s0 + Fin 0.2%Q)%js else s0).
  assert (H1 : exists q, s1 = Fin q /\ (1 # 2 <= q)%Q).
  { destruct H0 as (q & -> & Hq). subst s1. destruct (has_projector room).
    - eexists; split; [reflexivity | qlra].
    - eexists; split; [reflexivity | exact Hq]. }
  clearbody s1. clear H0 s0.
  set (s2 := if (to_num (computers room) >? Fin 0)%js then _ else s1).
  assert (H2 : exists q, s2 = Fin q /\ (1 # 2 <= q)%Q).
  { destruct H1 as (q & -> & Hq). subst s2.
    destruct (to_num (computers room) >? Fin 0)%js eqn:E.
    - destruct (computers_bonus _ E) as (b & -> & Hb).
      eexists; split; [reflexivity | qlra].
    - eexists; split; [reflexivity | exact Hq]. }
  clearbody s2. clear H1 s1.
  set (s3 := if has_robots room then (s2 + Fin 0.15%Q)%js else s2).
  assert (H3 : exists q, s3 = Fin q /\ (1 # 2 <= q)%Q).
  { destruct H2 as (q & -> & Hq). subst s3. destruct (has_robots room).
    - eexists; split; [reflexivity | qlra].
    - eexists; split; [reflexivity | exact Hq]. }
  clearbody s3. clear H2 s2.
  set (s4 := if (to_num (seating_capacity room) >=? Fin 30)%js then _ else s3).
  assert (H4 : exists q, s4 = Fin q /\ (1 # 2 <= q)%Q).
  { destruct H3 as (q & -> & Hq). subst s4.
    destruct (to_num (seating_capacity room) >=? Fin 30)%js.
    - eexists; split; [reflexivity | qlra].
    - eexists; split; [reflexivity | exact Hq]. }
  destruct H4 as (q & -> & Hq). exists q. split; [reflexivity | exact Hq].
Qed.

Lemma usability_bounds (room : Room) :
  (Fin 0.5%Q <=? calculateUsabilityScore room)%js = true /\
  (calculateUsabilityScore room <=? Fin 1)%js = true.
Proof.
  destruct (usability_uncapped room) as (q & -> & Hq). apply Math_min_one. exact Hq.
Qed.

(** C10: the usability score of every room lies in [[0.5, 1.0]]; a room
    with no projector, no computers, no robots and fewer than 30 seats gets
    the base score 0.5; the score is never 0. *)
Theorem calculateUsabilityScore_range (room : Room) :
  ((Fin 0.5%Q <=? calculateUsabilityScore room)%js = true /\
   (calculateUsabilityScore room <=? Fin 1)%js = true) /\
  (has_projector room = false ->
   (to_num (computers room) >? Fin 0)%js = false ->
   has_robots room = false ->
   (to_num (seating_capacity room) >=? Fin 30)%js = false ->
   calculateUsabilityScore room = Fin 0.5%Q) /\
  (calculateUsabilityScore room === Fin 0)%js = false.
Proof.
  pose proof (usability_bounds room) as [Hlo Hhi].
  split; [split; assumption |]. split.
  - intros Hp Hc Hr Hs. unfold calculateUsabilityScore.
    rewrite Hp, Hc, Hr, Hs. reflexivity.
  - destruct (calculateUsabilityScore room) as [q | | |]; try reflexivity.
    apply leb_Fin in Hlo. apply Qeq_bool_false_iff. intros E. qlra.
Qed.

Lemma calculateUsabilityScore_range_witness :
  calculateUsabilityScore (room_with_seats "Room_5" 15) = Fin 0.5%Q.
Proof.
  apply (calculateUsabilityScore_range (room_with_seats "Room_5" 15));
    reflexivity.
Defined.

(** ** The ranking: a stable sort by descending final score *)

Section Sorting.

Context {A : Type} (comparefn : A -> A -> num).

(** [x] has to come after [y]. *)
Let after (x y : A) : bool := (SortCompare comparefn x y >? Fin 0)%js.

Lemma sort_insert_perm (x : A) (l : list A) :
  Permutation (sort_insert comparefn x l) (x :: l).
Proof.
  induction l as [| y l IH]; cbn [sort_insert]; [reflexivity |].
  destruct (SortCompare comparefn x y >? Fin 0)%js; [| reflexivity].
  rewrite IH. apply perm_swap.
Qed.

Lemma js_sort_perm (l : list A) : Permutation (js_sort comparefn l) l.
Proof.
  induction l as [| x l IH]; cbn [js_sort]; [reflexivity |].
  rewrite sort_insert_perm, IH. reflexivity.
Qed.

(** Insertion keeps apart the elements a predicate selects, as long as no
    selected element has to come after another selected one. *)
Lemma sort_insert_filter (P : A -> bool) (x : A) (l : list A) :
  (forall a b, after a b = true -> P a = true -> P b = true -> False) ->
  List.filter P (sort_insert comparefn x l) = List.filter P (x :: l).
Proof.
  intros HP. induction l as [| y l IH]; cbn [sort_insert]; [reflexivity |].
  destruct (SortCompare comparefn x y >? Fin 0)%js eqn:E; [| reflexivity].
  cbn [List.filter] in *. rewrite IH.
  destruct (P x) eqn:Px, (P y) eqn:Py; try reflexivity.
  exfalso. exact (HP x y E Px Py).
Qed.

Lemma js_sort_filter (P : A -> bool) (l : list A) :
  (forall a b, after a b = true -> P a = true -> P b = true -> False) ->
  List.filter P (js_sort comparefn l) = List.filter P l.
Proof.
  intros HP. induction l as [| x l IH]; cbn [js_sort]; [reflexivity |].
  rewrite sort_insert_filter by exact HP.
  cbn [List.filter]. rewrite IH. reflexivity.
Qed.

(** Insertion into a sorted list, for an order [ord] that is transitive on
    the elements at hand and that the comparator decides. *)
Lemma sort_insert_sorted (ok : A -> Prop) (ord : A -> A -> Prop) (x : A) (l : list A) :
  (forall a b c, ok a -> ok b -> ok c -> ord a b -> ord b c -> ord a c) ->
  (forall a b, ok a -> ok b -> after a b = true -> ord b a) ->
  (forall a b, ok a -> ok b -> after a b = false -> ord a b) ->
  ok x -> Forall ok l ->
  StronglySorted ord l -> StronglySorted ord (sort_insert comparefn x l).
Proof.
  intros Htrans Hafter Hnot Hx Hl Hs.
  induction Hs as [| y l Hs IH Hy]; cbn [sort_insert].
  - constructor; [constructor | constructor].
  - apply Forall_cons in Hl as [Oy Ol].
    destruct (SortCompare comparefn x y >? Fin 0)%js eqn:E.
    + constructor; [apply IH; exact Ol |].
      apply (Permutation_Forall (Permutation_sym (sort_insert_perm x l))).
      constructor; [apply Hafter; assumption | exact Hy].
    + assert (Hxy : ord x y) by (apply Hnot; assumption).
      constructor; [constructor; assumption |].
      constructor; [exact Hxy |].
      rewrite Forall_forall in Hy, Ol |- *. intros z Hz.
      apply (Htrans x y z); auto.
Qed.

Lemma js_sort_sorted (ok : A -> Prop) (ord : A -> A -> Prop) (l : list A) :
  (forall a b c, ok a -> ok b -> ok c -> ord a b -> ord b c -> ord a c) ->
  (forall a b, ok a -> ok b -> after a b = true -> ord b a) ->
  (forall a b, ok a -> ok b -> after a b = false -> ord a b) ->
  Forall ok l -> StronglySorted ord (js_sort comparefn l).
Proof.
  intros Htrans Hafter Hnot Hl.
  induction l as [| x l IH]; cbn [js_sort]; [constructor |].
  apply Forall_cons in Hl as [Ox Ol].
  apply (sort_insert_sorted ok ord); auto.
  apply (Permutation_Forall (Permutation_sym (js_sort_perm l))). exact Ol.
Qed.

End Sorting.

Lemma leb_trans (a b c : num) :
  (a <=? b)%js = true -> (b <=? c)%js = true -> (a <=? c)%js = true.
Proof.
  destruct a as [x | | |], b as [y | | |], c as [z | | |];
    try reflexivity; try discriminate.
  rewrite !leb_Fin. apply Qle_trans.
Qed.

Lemma ltb_leb (a b : num) : (a <? b)%js = true -> (a <=? b)%js = true.
Proof.
  destruct a as [x | | |], b as [y | | |]; try reflexivity; try discriminate.
  rewrite ltb_Fin, leb_Fin. apply Qlt_le_weak.
Qed.

Lemma not_ltb_leb (a b : num) :
  is_number a -> is_number b -> (a <? b)%js = false -> (b <=? a)%js = true.
Proof.
  unfold is_number.
  destruct a as [x | | |], b as [y | | |]; try reflexivity; try discriminate;
    try congruence.
  rewrite ltb_Fin_false, leb_Fin. trivial.
Qed.

(** On scores that are numbers the comparator of [evaluateRooms] sends a
    room behind another exactly when its final score is smaller. *)
Lemma by_final_score_after (a b : ScoredRoom) :
  is_number (final_score a) -> is_number (final_score b) ->
  (SortCompare by_final_score a b >? Fin 0)%js = (final_score a <? final_score b)%js.
Proof.
  unfold is_number, SortCompare, by_final_score, gtb.
  destruct (final_score a) as [x | | |], (final_score b) as [y | | |];
    try reflexivity; try congruence.
  intros _ _. cbn [sub add neg].
  destruct (Fin x <? Fin y)%js eqn:E.
  - apply ltb_Fin. apply ltb_Fin in E. qlra.
  - apply ltb_Fin_false. apply ltb_Fin_false in E. qlra.
Qed.

(** Two rooms with an identical final score are never reordered. *)
Lemma by_final_score_ties (score : num) (a b : ScoredRoom) :
  (SortCompare by_final_score a b >? Fin 0)%js = true ->
  (final_score a === score)%js = true -> (final_score b === score)%js = true -> False.
Proof.
  unfold SortCompare, by_final_score, gtb.
  destruct (final_score a) as [x | | |], (final_score b) as [y | | |],
    score as [z | | |]; try discriminate.
  cbn [sub add neg strict_eq]. rewrite ltb_Fin, !Qeq_bool_iff. intros. qlra.
Qed.

Lemma imap_map_compose {A B C : Type} (f : nat -> A -> B) (g : B -> C) (h : A -> C)
    (l : list A) :
  (forall i x, g (f i x) = h x) -> map g (imap f l) = map h l.
Proof.
  intros H. apply list_eq. intros i.
  rewrite !list_lookup_fmap, list_lookup_imap.
  destruct (l !! i); cbn; [rewrite H |]; reflexivity.
Qed.

(** A list that holds a [NaN] next to another score is not in descending
    order, however it is arranged. *)
Lemma descending_no_NaN (l : list num) :
  In NaN l -> (2 <= length l)%nat ->
  ~ StronglySorted (fun x y => (x >=? y)%js = true) l.
Proof.
  intros Hin Hlen Hs. destruct Hs as [| x l Hs Hx]; [cbn in Hlen; lia |].
  pose proof (proj1 (List.Forall_forall _ _) Hx) as Hall. destruct Hin as [-> | Hin].
  - destruct l as [| y l]; [cbn in Hlen; lia |].
    specialize (Hall y (or_introl eq_refl)). destruct y; discriminate Hall.
  - specialize (Hall NaN Hin). destruct x; discriminate Hall.
Qed.

(** C9 (as stated, fails): a final score can be [NaN], and a list of scores
    with a [NaN] has no descending order.  With a profile whose temperature
    range has a [min] only, the room with a temperature reading gets the
    final score [NaN] and the two others 0.421 and 0.471: no arrangement of
    the three is in descending order, and the ranking returned is not. *)
Lemma evaluateRooms_unordered_scores :
  let profile := or_default (profile_adjustments min_only_preferences) empty_profile in
  let scoredRooms := map (scoreRoom profile default_weights) three_rooms in
  (exists a c, map final_score scoredRooms = [Fin a; NaN; Fin c] /\
               (a == 0.421)%Q /\ (c == 0.471)%Q) /\
  (forall arrangement, Permutation arrangement (map final_score scoredRooms) ->
     ~ StronglySorted (fun x y => (x >=? y)%js = true) arrangement) /\
  ~ StronglySorted (fun x y => (x >=? y)%js = true)
      (map ranked_final_score (rankings (evaluateRooms three_rooms min_only_preferences))).
Proof.
  intros profile scoredRooms.
  assert (Hscores : exists a c, map final_score scoredRooms = [Fin a; NaN; Fin c] /\
                                (a == 0.421)%Q /\ (c == 0.471)%Q).
  { eexists _, _. split; [vm_compute; reflexivity |]. split; reflexivity. }
  split; [exact Hscores |].
  destruct Hscores as (a & c & E & _).
  assert (Hany : forall arrangement,
             Permutation arrangement (map final_score scoredRooms) ->
             ~ StronglySorted (fun x y => (x >=? y)%js = true) arrangement).
  { intros arrangement Hp. apply descending_no_NaN.
    - apply (Permutation_in _ (Permutation_sym Hp)). rewrite E. cbn. tauto.
    - rewrite (Permutation_length Hp), E. cbn. lia. }
  split; [exact Hany |].
  apply Hany.
  replace (map ranked_final_score (rankings (evaluateRooms three_rooms min_only_preferences)))
    with (map final_score (js_sort by_final_score scoredRooms))
    by (symmetry; apply imap_map_compose; reflexivity).
  apply Permutation_map. apply js_sort_perm.
Qed.

(** C9 (amended): the result is a rearrangement of the scored rooms and the
    rank of a result is its position counted from 1; when no final score is
    [NaN] the rooms are ranked by a stable sort on the final score: in
    descending order, rooms with an identical final score keeping their
    input order. *)
Theorem evaluateRooms_ranking (roomsData : list Room) (preferences : Preferences) :
  let profile := or_default (profile_adjustments preferences) empty_profile in
  let weights := or_default (weights preferences) default_weights in
  let scoredRooms := map (scoreRoom profile weights) roomsData in
  let sorted := js_sort by_final_score scoredRooms in
  rankings (evaluateRooms roomsData preferences) = imap toRanked sorted /\
  Permutation sorted scoredRooms /\
  (Forall (fun room => is_number (final_score room)) scoredRooms ->
   StronglySorted (fun a b => (final_score a >=? final_score b)%js = true) sorted /\
   forall score,
     List.filter (fun room => (final_score room === score)%js) sorted
     = List.filter (fun room => (final_score room === score)%js) scoredRooms) /\
  (forall index ranked,
     rankings (evaluateRooms roomsData preferences) !! index = Some ranked ->
     rank ranked = (index + 1)%nat /\
     exists room, sorted !! index = Some room /\ ranked = toRanked index room).
Proof.
  intros profile weights scoredRooms sorted.
  assert (Hrank : rankings (evaluateRooms roomsData preferences) = imap toRanked sorted)
    by reflexivity.
  split; [exact Hrank |]. split; [apply js_sort_perm |]. split.
  - intros Hnum. split.
    + apply (js_sort_sorted by_final_score (fun room => is_number (final_score room)));
        [| | | exact Hnum].
      * intros a b c _ _ _ Hab Hbc. unfold geb in *. exact (leb_trans _ _ _ Hbc Hab).
      * intros a b Ha Hb H. rewrite by_final_score_after in H by assumption.
        unfold geb. apply ltb_leb. exact H.
      * intros a b Ha Hb H. rewrite by_final_score_after in H by assumption.
        unfold geb. apply not_ltb_leb; assumption.
    + intros score. apply js_sort_filter. intros a b. apply by_final_score_ties.
  - intros index ranked H. rewrite Hrank, list_lookup_imap in H.
    destruct (sorted !! index) as [room |] eqn:E; [| discriminate H].
    injection H as <-. split; [reflexivity |]. exists room. split; reflexivity.
Qed.

Lemma evaluateRooms_ranking_witness :
  let scoredRooms := map (scoreRoom empty_profile default_weights) tied_rooms in
  StronglySorted (fun a b => (final_score a >=? final_score b)%js = true)
    (js_sort by_final_score scoredRooms) /\
  forall score,
    List.filter (fun room => (final_score room === score)%js)
      (js_sort by_final_score scoredRooms)
    = List.filter (fun room => (final_score room === score)%js) scoredRooms.
Proof.
  destruct (evaluateRooms_ranking tied_rooms no_preferences) as (_ & _ & H & _).
  apply H. repeat constructor; discriminate.
Defined.

(** The tie between [Room_B] and [Room_C] is resolved by the input order. *)
Example tied_rooms_order :
  map (fun r => (rank r, ranked_room_id r))
    (rankings (evaluateRooms tied_rooms no_preferences))
  = [ (1%nat, "Room_B"%string); (2%nat, "Room_C"%string);
      (3%nat, "Room_A"%string); (4%nat, "Room_D"%string) ].
Proof. vm_compute. reflexivity. Qed.

(** ** The comparison matrix *)

Section Matrix.

Context {A : Type}.
Implicit Types (m : list (list A)) (v : A).

Lemma square_get (n : nat) m (a b : nat) :
  square n m -> (a < n)%nat -> (b < n)%nat -> is_Some (matrix_get m a b).
Proof.
  intros [Hlen Hrows] Ha Hb. unfold matrix_get.
  destruct (lookup_lt_is_Some_2 m a) as [row Hrow]; [lia |].
  rewrite Hrow. cbn. apply lookup_lt_is_Some.
  rewrite Forall_lookup in Hrows. rewrite (Hrows _ _ Hrow). exact Hb.
Qed.

Lemma square_set (n : nat) m (i j : nat) v :
  square n m -> square n (matrix_set m i j v).
Proof.
  intros [Hlen Hrows]. unfold matrix_set. split.
  - rewrite length_alter. exact Hlen.
  - apply Forall_alter; [exact Hrows |].
    intros row _ H. rewrite length_insert. exact H.
Qed.

Lemma matrix_get_set_eq m (i j : nat) v :
  is_Some (matrix_get m i j) -> matrix_get (matrix_set m i j v) i j = Some v.
Proof.
  unfold matrix_get, matrix_set. intros [x Hx].
  rewrite list_lookup_alter. rewrite decide_True by reflexivity.
  destruct (m !! i) as [row |]; [| discriminate Hx]. cbn in *.
  apply list_lookup_insert_eq. apply lookup_lt_is_Some. eauto.
Qed.

Lemma matrix_get_set_ne m (i j a b : nat) v :
  (a, b) <> (i, j) -> matrix_get (matrix_set m i j v) a b = matrix_get m a b.
Proof.
  unfold matrix_get, matrix_set. intros Hne.
  rewrite list_lookup_alter. destruct (decide (i = a)) as [-> | Hia]; [| reflexivity].
  destruct (m !! a) as [row |]; [| reflexivity]. cbn.
  apply list_lookup_insert_ne. congruence.
Qed.

End Matrix.

Section Builder.

Variable criteria : list string.
Variable comparisons : gmap string num.

Let n := length criteria.
Let upper := upper_entry criteria comparisons.
Let lower := lower_entry criteria comparisons.

Lemma compare_pair_writes (i j : nat) (m : list (list num)) :
  compare_pair criteria comparisons i j m
  = matrix_set (matrix_set m i j (upper i j)) j i (lower i j)
  \/ compare_pair criteria comparisons i j m
     = matrix_set (matrix_set m j i (lower i j)) i j (upper i j).
Proof.
  unfold compare_pair, upper, lower, upper_entry, lower_entry. cbv zeta.
  destruct (truthy_opt (comparisons !! comparison_key criteria i j));
    [left; reflexivity |].
  destruct (truthy_opt (comparisons !! comparison_key criteria j i));
    [right; reflexivity | left; reflexivity].
Qed.

Lemma compare_pair_square (i j : nat) (m : list (list num)) :
  square n m -> square n (compare_pair criteria comparisons i j m).
Proof.
  intros H. destruct (compare_pair_writes i j m) as [-> | ->];
    repeat apply square_set; exact H.
Qed.

(** One pass of the inner loop changes the entries [(i, j)] and [(j, i)]
    only. *)
Lemma compare_pair_get (i j a b : nat) (m : list (list num)) :
  square n m -> (i < n)%nat -> (j < n)%nat -> i <> j ->
  matrix_get (compare_pair criteria comparisons i j m) a b
  = if decide ((a, b) = (i, j)) then Some (upper i j)
    else if decide ((a, b) = (j, i)) then Some (lower i j)
    else matrix_get m a b.
Proof.
  intros Hsq Hi Hj Hij.
  destruct (decide ((a, b) = (i, j))) as [E1 | N1];
    [| destruct (decide ((a, b) = (j, i))) as [E2 | N2]].
  - injection E1 as -> ->.
    destruct (compare_pair_writes i j m) as [-> | ->].
    + rewrite matrix_get_set_ne by congruence.
      apply matrix_get_set_eq. eapply square_get; eauto.
    + apply matrix_get_set_eq. eapply square_get; eauto using square_set.
  - injection E2 as -> ->.
    destruct (compare_pair_writes i j m) as [-> | ->].
    + apply matrix_get_set_eq. eapply square_get; eauto using square_set.
    + rewrite matrix_get_set_ne by congruence.
      apply matrix_get_set_eq. eapply square_get; eauto.
  - destruct (compare_pair_writes i j m) as [-> | ->];
      rewrite !matrix_get_set_ne by assumption; reflexivity.
Qed.

(** The inner loop over any columns [js] to the right of [i]. *)
Lemma inner_fold_square (i : nat) (js : list nat) (m : list (list num)) :
  square n m ->
  square n (foldl (fun m j => compare_pair criteria comparisons i j m) m js).
Proof.
  revert m. induction js as [| j js IH]; intros m H; cbn [foldl]; [exact H |].
  apply IH. apply compare_pair_square. exact H.
Qed.

Lemma inner_fold_other (i : nat) (js : list nat) (a b : nat) (m : list (list num)) :
  square n m -> (i < n)%nat -> Forall (fun j => (i < j < n)%nat) js ->
  ~ (a = i /\ b ∈ js) -> ~ (b = i /\ a ∈ js) ->
  matrix_get (foldl (fun m j => compare_pair criteria comparisons i j m) m js) a b
  = matrix_get m a b.
Proof.
  revert m. induction js as [| j js IH]; intros m Hsq Hi Hjs Hu Hl; cbn [foldl];
    [reflexivity |].
  apply Forall_cons in Hjs as [Hj Hjs].
  rewrite IH; auto using compare_pair_square.
  - rewrite compare_pair_get by (auto; lia).
    rewrite !decide_False; [reflexivity | |].
    + intros [= -> ->]. apply Hl. split; [reflexivity | left].
    + intros [= -> ->]. apply Hu. split; [reflexivity | left].
  - intros [-> H]. apply Hu. split; [reflexivity | right; exact H].
  - intros [-> H]. apply Hl. split; [reflexivity | right; exact H].
Qed.

Lemma inner_fold_upper (i : nat) (js : list nat) (b : nat) (m : list (list num)) :
  square n m -> (i < n)%nat -> Forall (fun j => (i < j < n)%nat) js -> b ∈ js ->
  matrix_get (foldl (fun m j => compare_pair criteria comparisons i j m) m js) i b
  = Some (upper i b).
Proof.
  revert m. induction js as [| j js IH]; intros m Hsq Hi Hjs Hb; cbn [foldl];
    [inversion Hb |].
  apply Forall_cons in Hjs as [Hj Hjs].
  destruct (decide (b ∈ js)) as [Hin | Hout];
    [apply IH; auto using compare_pair_square |].
  apply elem_of_cons in Hb as [-> | Hb]; [| contradiction].
  rewrite inner_fold_other; auto using compare_pair_square.
  - rewrite compare_pair_get by (auto; lia). rewrite decide_True; reflexivity.
  - tauto.
  - intros [-> _]. lia.
Qed.

Lemma inner_fold_lower (i : nat) (js : list nat) (a : nat) (m : list (list num)) :
  square n m -> (i < n)%nat -> Forall (fun j => (i < j < n)%nat) js -> a ∈ js ->
  matrix_get (foldl (fun m j => compare_pair criteria comparisons i j m) m js) a i
  = Some (lower i a).
Proof.
  revert m. induction js as [| j js IH]; intros m Hsq Hi Hjs Ha; cbn [foldl];
    [inversion Ha |].
  apply Forall_cons in Hjs as [Hj Hjs].
  destruct (decide (a ∈ js)) as [Hin | Hout];
    [apply IH; auto using compare_pair_square |].
  apply elem_of_cons in Ha as [-> | Ha]; [| contradiction].
  rewrite inner_fold_other; auto using compare_pair_square.
  - rewrite compare_pair_get by (auto; lia).
    rewrite decide_False by (intros [= -> _]; lia).
    rewrite decide_True; reflexivity.
  - intros [-> _]. lia.
  - tauto.
Qed.

Lemma inner_columns (i : nat) :
  Forall (fun j => (i < j < n)%nat) (seq (i + 1) (n - (i + 1))).
Proof.
  apply Forall_forall. intros j Hj. apply elem_of_seq in Hj. lia.
Qed.

Lemma inner_loop_square (i : nat) (m : list (list num)) :
  square n m -> square n (inner_loop criteria comparisons n i m).
Proof. apply inner_fold_square. Qed.

Lemma inner_loop_upper (i b : nat) (m : list (list num)) :
  square n m -> (i < b < n)%nat ->
  matrix_get (inner_loop criteria comparisons n i m) i b = Some (upper i b).
Proof.
  intros Hsq Hb. apply inner_fold_upper; auto using inner_columns; [lia |].
  apply elem_of_seq. lia.
Qed.

Lemma inner_loop_lower (i a : nat) (m : list (list num)) :
  square n m -> (i < a < n)%nat ->
  matrix_get (inner_loop criteria comparisons n i m) a i = Some (lower i a).
Proof.
  intros Hsq Ha. apply inner_fold_lower; auto using inner_columns; [lia |].
  apply elem_of_seq. lia.
Qed.

Lemma inner_loop_other (i a b : nat) (m : list (list num)) :
  square n m -> (i < n)%nat ->
  ~ (a = i /\ (i < b < n)%nat) -> ~ (b = i /\ (i < a < n)%nat) ->
  matrix_get (inner_loop criteria comparisons n i m) a b = matrix_get m a b.
Proof.
  intros Hsq Hi Hu Hl. apply inner_fold_other; auto using inner_columns.
  - intros [-> H]. apply elem_of_seq in H. apply Hu. split; [reflexivity | lia].
  - intros [-> H]. apply elem_of_seq in H. apply Hl. split; [reflexivity | lia].
Qed.

(** The outer loop over any rows [rows]. *)
Lemma outer_fold_square (rows : list nat) (m : list (list num)) :
  square n m ->
  square n (foldl (fun m i => inner_loop criteria comparisons n i m) m rows).
Proof.
  revert m. induction rows as [| i rows IH]; intros m H; cbn [foldl]; [exact H |].
  apply IH. apply inner_loop_square. exact H.
Qed.

Lemma outer_fold_other (rows : list nat) (a b : nat) (m : list (list num)) :
  square n m -> Forall (fun i => (i < n)%nat) rows ->
  ~ (a ∈ rows /\ (a < b < n)%nat) -> ~ (b ∈ rows /\ (b < a < n)%nat) ->
  matrix_get (foldl (fun m i => inner_loop criteria comparisons n i m) m rows) a b
  = matrix_get m a b.
Proof.
  revert m. induction rows as [| i rows IH]; intros m Hsq Hrows Hu Hl; cbn [foldl];
    [reflexivity |].
  apply Forall_cons in Hrows as [Hi Hrows].
  rewrite IH; auto using inner_loop_square.
  - apply inner_loop_other; auto.
    + intros [-> H]. apply Hu. split; [left | exact H].
    + intros [-> H]. apply Hl. split; [left | exact H].
  - intros [H1 H2]. apply Hu. split; [right; exact H1 | exact H2].
  - intros [H1 H2]. apply Hl. split; [right; exact H1 | exact H2].
Qed.

Lemma outer_fold_upper (rows : list nat) (a b : nat) (m : list (list num)) :
  square n m -> Forall (fun i => (i < n)%nat) rows ->
  a ∈ rows -> (a < b < n)%nat ->
  matrix_get (foldl (fun m i => inner_loop criteria comparisons n i m) m rows) a b
  = Some (upper a b).
Proof.
  revert m. induction rows as [| i rows IH]; intros m Hsq Hrows Ha Hb; cbn [foldl];
    [inversion Ha |].
  apply Forall_cons in Hrows as [Hi Hrows].
  destruct (decide (a ∈ rows)) as [Hin | Hout];
    [apply IH; auto using inner_loop_square |].
  apply elem_of_cons in Ha as [-> | Ha]; [| contradiction].
  rewrite outer_fold_other; auto using inner_loop_square.
  - apply inner_loop_upper; assumption.
  - tauto.
  - intros [_ H]. lia.
Qed.

Lemma outer_fold_lower (rows : list nat) (a b : nat) (m : list (list num)) :
  square n m -> Forall (fun i => (i < n)%nat) rows ->
  b ∈ rows -> (b < a < n)%nat ->
  matrix_get (foldl (fun m i => inner_loop criteria comparisons n i m) m rows) a b
  = Some (lower b a).
Proof.
  revert m. induction rows as [| i rows IH]; intros m Hsq Hrows Hb Ha; cbn [foldl];
    [inversion Hb |].
  apply Forall_cons in Hrows as [Hi Hrows].
  destruct (decide (b ∈ rows)) as [Hin | Hout];
    [apply IH; auto using inner_loop_square |].
  apply elem_of_cons in Hb as [-> | Hb]; [| contradiction].
  rewrite outer_fold_other; auto using inner_loop_square.
  - apply inner_loop_lower; assumption.
  - intros [_ H]. lia.
  - tauto.
Qed.

Lemma initial_square : square n (replicate n (replicate n (Fin 1))).
Proof.
  split; [apply length_replicate |].
  apply Forall_replicate. apply length_replicate.
Qed.

Lemma initial_get (a b : nat) :
  (a < n)%nat -> (b < n)%nat ->
  matrix_get (replicate n (replicate n (Fin 1))) a b = Some (Fin 1).
Proof.
  intros Ha Hb. unfold matrix_get.
  rewrite lookup_replicate_2 by exact Ha. cbn.
  apply lookup_replicate_2. exact Hb.
Qed.

Lemma all_rows : Forall (fun i => (i < n)%nat) (seq 0 n).
Proof.
  apply Forall_forall. intros i Hi. apply elem_of_seq in Hi. lia.
Qed.

(** The finished matrix, entry by entry. *)
Lemma buildComparisonMatrix_square :
  square n (buildComparisonMatrix criteria comparisons).
Proof. apply outer_fold_square, initial_square. Qed.

Lemma buildComparisonMatrix_diagonal (i : nat) :
  (i < n)%nat ->
  matrix_get (buildComparisonMatrix criteria comparisons) i i = Some (Fin 1).
Proof.
  intros Hi. unfold buildComparisonMatrix. fold n.
  rewrite outer_fold_other; auto using initial_square, all_rows, initial_get.
  - intros [_ H]. lia.
  - intros [_ H]. lia.
Qed.

Lemma buildComparisonMatrix_upper (i j : nat) :
  (i < j < n)%nat ->
  matrix_get (buildComparisonMatrix criteria comparisons) i j = Some (upper i j).
Proof.
  intros H. apply outer_fold_upper; auto using initial_square, all_rows.
  apply elem_of_seq. lia.
Qed.

Lemma buildComparisonMatrix_lower (i j : nat) :
  (i < j < n)%nat ->
  matrix_get (buildComparisonMatrix criteria comparisons) j i = Some (lower i j).
Proof.
  intros H. apply outer_fold_lower; auto using initial_square, all_rows.
  apply elem_of_seq. lia.
Qed.

End Builder.

Lemma reciprocal_product (q : Q) :
  (0 < q)%Q ->
  (Fin q * (Fin 1 / Fin q) === Fin 1)%js = true /\
  ((Fin 1 / Fin q) * Fin q === Fin 1)%js = true.
Proof.
  intros Hq. cbn [div].
  replace (Qeq_bool q 0) with false
    by (symmetry; apply Qeq_bool_false_iff; intros E; qlra).
  cbn [mul strict_eq]. split; apply Qeq_bool_iff; field; intros E; qlra.
Qed.

Lemma positive_truthy (comparisons : gmap string num) (key : string) :
  positive_judgments comparisons ->
  (comparisons !! key = None /\ truthy_opt (comparisons !! key) = false) \/
  (exists q, comparisons !! key = Some (Fin q) /\ (0 < q)%Q /\
             truthy_opt (comparisons !! key) = true).
Proof.
  intros Hpos. destruct (comparisons !! key) as [x |] eqn:E; [right | left; tauto].
  destruct (Hpos key x E) as (q & -> & Hq). exists q. repeat split; [exact Hq |].
  cbn. apply negb_true_iff, Qeq_bool_false_iff. intros E'. qlra.
Qed.

(** With positive judgments the two entries of a pair are reciprocal. *)
Lemma pair_reciprocal (criteria : list string) (comparisons : gmap string num) (i j : nat) :
  positive_judgments comparisons ->
  (upper_entry criteria comparisons i j * lower_entry criteria comparisons i j
   === Fin 1)%js = true /\
  (lower_entry criteria comparisons i j * upper_entry criteria comparisons i j
   === Fin 1)%js = true.
Proof.
  intros Hpos. unfold upper_entry, lower_entry. cbv zeta.
  destruct (positive_truthy comparisons (comparison_key criteria i j) Hpos)
    as [[E1 ->] | (q & E1 & Hq & ->)].
  - destruct (positive_truthy comparisons (comparison_key criteria j i) Hpos)
      as [[E2 ->] | (q & E2 & Hq & ->)].
    + split; reflexivity.
    + rewrite E2. cbn [to_num]. destruct (reciprocal_product q Hq). split; assumption.
  - rewrite E1. cbn [to_num]. apply reciprocal_product. exact Hq.
Qed.

(** Whatever the judgments, one entry of a pair is computed as the inverse
    of the other. *)
Lemma pair_inverse (criteria : list string) (comparisons : gmap string num) (i j : nat) :
  lower_entry criteria comparisons i j
  = (Fin 1 / upper_entry criteria comparisons i j)%js \/
  upper_entry criteria comparisons i j
  = (Fin 1 / lower_entry criteria comparisons i j)%js.
Proof.
  unfold upper_entry, lower_entry. cbv zeta.
  destruct (truthy_opt (comparisons !! comparison_key criteria i j));
    [left; reflexivity |].
  destruct (truthy_opt (comparisons !! comparison_key criteria j i));
    [right; reflexivity | left; reflexivity].
Qed.

(** C4 (as stated, fails): the inverse of a judgment is rounded, and the
    product of a judgment and its rounded inverse need not be 1.  For the
    criteria [A] and [B] and the judgment 49 the matrix holds 49 and
    [1 / 49], whose product is 0.9999999999999999. *)
Lemma buildComparisonMatrix_rounded_product :
  let M := Double.buildComparisonMatrix ["A"; "B"]%string Double.one_judgment in
  PrimFloat.ltb 0 49 = true /\
  M = [ [1; 49]; [1 / 49; 1] ]%float /\
  (49 * (1 / 49))%float = 0.9999999999999999%float /\
  PrimFloat.eqb (49 * (1 / 49)) 1 = false.
Proof. vm_compute. repeat split. Qed.

(** C4 (amended): for positive judgments the matrix built is [n] by [n],
    its diagonal is exactly 1, a pair without a supplied judgment holds 1,
    and of the two entries of a pair one is computed as the inverse of the
    other, so that [M[i][j] * M[j][i] == 1] in exact arithmetic. *)
Theorem buildComparisonMatrix_reciprocal
    (criteria : list string) (comparisons : gmap string num) :
  positive_judgments comparisons ->
  let M := buildComparisonMatrix criteria comparisons in
  let n := length criteria in
  square n M /\
  (forall i, (i < n)%nat -> matrix_get M i i = Some (Fin 1)) /\
  (forall i j, (i < n)%nat -> (j < n)%nat ->
     exists a b, matrix_get M i j = Some a /\ matrix_get M j i = Some b /\
                 (a * b === Fin 1)%js = true /\
                 (b = (Fin 1 / a)%js \/ a = (Fin 1 / b)%js)) /\
  (forall i j, (i < n)%nat -> (j < n)%nat -> i <> j ->
     comparisons !! comparison_key criteria i j = None ->
     comparisons !! comparison_key criteria j i = None ->
     matrix_get M i j = Some (Fin 1)).
Proof.
  intros Hpos M n.
  split; [apply buildComparisonMatrix_square |].
  split; [apply buildComparisonMatrix_diagonal |]. split.
  - intros i j Hi Hj. destruct (lt_eq_lt_dec i j) as [[Hlt | ->] | Hgt].
    + exists (upper_entry criteria comparisons i j), (lower_entry criteria comparisons i j).
      split; [apply buildComparisonMatrix_upper; lia |].
      split; [apply buildComparisonMatrix_lower; lia |].
      split; [apply pair_reciprocal; exact Hpos | apply pair_inverse].
    + exists (Fin 1), (Fin 1).
      split; [apply buildComparisonMatrix_diagonal; exact Hj |].
      split; [apply buildComparisonMatrix_diagonal; exact Hj |].
      split; [reflexivity | left; reflexivity].
    + exists (lower_entry criteria comparisons j i), (upper_entry criteria comparisons j i).
      split; [apply buildComparisonMatrix_lower; lia |].
      split; [apply buildComparisonMatrix_upper; lia |].
      split; [apply pair_reciprocal; exact Hpos |].
      destruct (pair_inverse criteria comparisons j i); [right | left]; assumption.
  - intros i j Hi Hj Hne E1 E2. destruct (lt_eq_lt_dec i j) as [[Hlt | ->] | Hgt].
    + subst M. rewrite buildComparisonMatrix_upper by (fold n; lia).
      unfold upper_entry. cbv zeta. rewrite E1, E2. reflexivity.
    + contradiction.
    + subst M. rewrite buildComparisonMatrix_lower by (fold n; lia).
      unfold lower_entry. cbv zeta. rewrite E1, E2. reflexivity.
Qed.

Lemma initial_comparisons_positive : positive_judgments initial_comparisons.
Proof.
  intros key x H. unfold initial_comparisons in H.
  repeat (apply lookup_insert_Some in H as [[_ <-] | [_ H]];
          [eexists; split; reflexivity |]).
  rewrite lookup_empty in H. discriminate H.
Defined.

Lemma buildComparisonMatrix_reciprocal_witness :
  exists a b,
    matrix_get (buildComparisonMatrix main_criteria initial_comparisons) 0 2 = Some a /\
    matrix_get (buildComparisonMatrix main_criteria initial_comparisons) 2 0 = Some b /\
    (a * b === Fin 1)%js = true /\
    (b = (Fin 1 / a)%js \/ a = (Fin 1 / b)%js).
Proof.
  apply (buildComparisonMatrix_reciprocal main_criteria initial_comparisons
           initial_comparisons_positive); cbn; lia.
Defined.

Example initial_matrix :
  buildComparisonMatrix main_criteria initial_comparisons
  = [ [Fin 1; Fin 3; Fin 5]; [Fin (1 # 3); Fin 1; Fin 2]; [Fin (1 # 5); Fin (1 # 2); Fin 1] ].
Proof. vm_compute. reflexivity. Qed.

(** ** Judgments that are not positive *)

(** The builder reads a judgment map through the truthiness of its entries
    and through the value of the truthy ones only. *)
Lemma compare_pair_ext
    (criteria : list string) (c1 c2 : gmap string num) (i j : nat) (m : list (list num)) :
  (forall key, truthy_opt (c1 !! key) = truthy_opt (c2 !! key)) ->
  (forall key, truthy_opt (c1 !! key) = true -> c1 !! key = c2 !! key) ->
  compare_pair criteria c1 i j m = compare_pair criteria c2 i j m.
Proof.
  intros Ht Hv. unfold compare_pair. cbv zeta.
  rewrite <- !Ht.
  destruct (truthy_opt (c1 !! comparison_key criteria i j)) eqn:E1.
  - rewrite <- (Hv _ E1). reflexivity.
  - destruct (truthy_opt (c1 !! comparison_key criteria j i)) eqn:E2; [| reflexivity].
    rewrite <- (Hv _ E2). reflexivity.
Qed.

Lemma foldl_ext_all {A B : Type} (f g : A -> B -> A) (l : list B) (a : A) :
  (forall x y, f x y = g x y) -> foldl f a l = foldl g a l.
Proof.
  intros H. revert a. induction l as [| y l IH]; intros a; cbn [foldl]; [reflexivity |].
  rewrite H. apply IH.
Qed.

Lemma buildComparisonMatrix_ext (criteria : list string) (c1 c2 : gmap string num) :
  (forall key, truthy_opt (c1 !! key) = truthy_opt (c2 !! key)) ->
  (forall key, truthy_opt (c1 !! key) = true -> c1 !! key = c2 !! key) ->
  buildComparisonMatrix criteria c1 = buildComparisonMatrix criteria c2.
Proof.
  intros Ht Hv. unfold buildComparisonMatrix, inner_loop.
  apply foldl_ext_all. intros m i. apply foldl_ext_all. intros m' j.
  apply compare_pair_ext; assumption.
Qed.

(** A judgment of magnitude zero is skipped like an absent one. *)
Lemma zero_judgment_skipped
    (criteria : list string) (comparisons : gmap string num) (key : string) (q : Q) :
  comparisons !! key = Some (Fin q) -> (q == 0)%Q ->
  buildComparisonMatrix criteria comparisons
  = buildComparisonMatrix criteria (delete key comparisons).
Proof.
  intros Hk Hq.
  assert (Hfalsy : truthy_opt (comparisons !! key) = false).
  { rewrite Hk. cbn. apply negb_false_iff, Qeq_bool_iff. exact Hq. }
  apply buildComparisonMatrix_ext; intros k.
  - destruct (decide (key = k)) as [<- | Hne].
    + rewrite lookup_delete_eq, Hfalsy. reflexivity.
    + rewrite lookup_delete_ne by exact Hne. reflexivity.
  - destruct (decide (key = k)) as [<- | Hne].
    + rewrite Hfalsy. discriminate.
    + rewrite lookup_delete_ne by exact Hne. reflexivity.
Qed.

(** C8 (as stated, fails): a judgment of magnitude -3 is not rejected; the
    builder returns a matrix that holds -3 and -1/3. *)
Lemma negative_judgment_accepted :
  has_non_positive_judgment negative_comparisons /\
  call_buildComparisonMatrix ["A"; "B"]%string negative_comparisons
  = Returns [ [Fin 1; Fin (-3)]; [Fin (-1 # 3); Fin 1] ] /\
  forall message,
    call_buildComparisonMatrix ["A"; "B"]%string negative_comparisons <> Throws message.
Proof.
  split; [| split].
  - exists "A-B"%string, (Fin (-3)). split; reflexivity.
  - vm_compute. reflexivity.
  - intros message. discriminate.
Qed.

(** C8 (amended): the builder validates nothing and always returns an [n]
    by [n] matrix; a judgment of magnitude 0 is skipped as if it were not
    supplied, and a negative judgment [x] for a pair [i < j] is stored as
    [M[i][j] = x], [M[j][i] = 1 / x]. *)
Theorem buildComparisonMatrix_accepts
    (criteria : list string) (comparisons : gmap string num) :
  let n := length criteria in
  let M := buildComparisonMatrix criteria comparisons in
  (call_buildComparisonMatrix criteria comparisons = Returns M /\ square n M) /\
  (forall key q, comparisons !! key = Some (Fin q) -> (q == 0)%Q ->
     M = buildComparisonMatrix criteria (delete key comparisons)) /\
  (forall i j q, (i < j < n)%nat ->
     comparisons !! comparison_key criteria i j = Some (Fin q) -> (q < 0)%Q ->
     matrix_get M i j = Some (Fin q) /\ matrix_get M j i = Some (Fin (1 / q))).
Proof.
  intros n M. split; [split; [reflexivity | apply buildComparisonMatrix_square] |].
  split; [intros key q; apply zero_judgment_skipped |].
  intros i j q Hij Hk Hq. subst M.
  rewrite buildComparisonMatrix_upper, buildComparisonMatrix_lower by exact Hij.
  unfold upper_entry, lower_entry. cbv zeta. rewrite Hk. cbn [truthy_opt truthy to_num].
  assert (Hnz : Qeq_bool q 0 = false) by (apply Qeq_bool_false_iff; intros E; qlra).
  rewrite Hnz. cbn [negb div]. rewrite Hnz. split; reflexivity.
Qed.

Lemma buildComparisonMatrix_accepts_witness :
  matrix_get (buildComparisonMatrix ["A"; "B"]%string negative_comparisons) 0 1
  = Some (Fin (-3)) /\
  matrix_get (buildComparisonMatrix ["A"; "B"]%string negative_comparisons) 1 0
  = Some (Fin (1 / -3)).
Proof.
  destruct (buildComparisonMatrix_accepts ["A"; "B"]%string negative_comparisons)
    as (_ & _ & Hneg).
  apply (Hneg 0%nat 1%nat (-3)%Q).
  - cbn. lia.
  - reflexivity.
  - reflexivity.
Defined.

(** ** The hard requirements *)

(** [evaluateRooms] never reads [preferences.facility_requirements]. *)
Lemma evaluateRooms_requirements_unread
    (roomsData : list Room) (profile : option Profile) (weights : option Weights)
    (ratio : option num) (requirements : option FacilityRequirements) :
  evaluateRooms roomsData (mkPreferences profile weights ratio requirements)
  = evaluateRooms roomsData (mkPreferences profile weights ratio None).
Proof. reflexivity. Qed.

(** C2 (the code diverges): asked for at least 50 seats, [evaluateRooms]
    still ranks all five rooms with 62, 45, 30, 20 and 15 seats. *)
Theorem evaluateRooms_min_seating_unfiltered :
  map (fun r => (rank r, ranked_room_id r, ranked_seating_capacity r))
    (rankings (evaluateRooms five_rooms min_seating_50))
  = [ (1%nat, "Room_1"%string, Some (Fin 62));
      (2%nat, "Room_2"%string, Some (Fin 45));
      (3%nat, "Room_3"%string, Some (Fin 30));
      (4%nat, "Room_4"%string, Some (Fin 20));
      (5%nat, "Room_5"%string, Some (Fin 15)) ].
Proof. vm_compute. reflexivity. Qed.

(** ** The weights of [calculateWeights] *)

Section RealWeights.

Import Re.
Local Open Scope R_scope.

Lemma Rsign_pos (r : R) : 0 < r -> Rsign r = Gt.
Proof. intros H. unfold Rsign. destruct (Rlt_dec 0 r); [reflexivity | contradiction]. Qed.

Lemma Rsign_neg (r : R) : r < 0 -> Rsign r = Lt.
Proof.
  intros H. unfold Rsign.
  destruct (Rlt_dec 0 r); [rlra |]. destruct (Rlt_dec r 0); [reflexivity | contradiction].
Qed.

Lemma INR_pos (n : nat) : (0 < n)%nat -> 0 < INR n.
Proof. intros H. apply lt_0_INR. exact H. Qed.

(** [1 / n] for a matrix that has a row. *)
Lemma exponent (n : nat) :
  (0 < n)%nat -> rdiv (RFin 1) (RFin (INR n)) = RFin (1 / INR n).
Proof.
  intros H. pose proof (INR_pos n H). cbn [rdiv].
  destruct (Req_dec_T (INR n) 0); [rlra | reflexivity].
Qed.

Lemma exponent_pos (n : nat) : (0 < n)%nat -> 0 < 1 / INR n.
Proof. intros H. apply Rdiv_lt_0_compat; [rlra | apply INR_pos, H]. Qed.

Lemma Math_pow_root (p : R) (n : nat) :
  0 < p -> (0 < n)%nat ->
  Math_pow (RFin p) (RFin (1 / INR n)) = RFin (Rpower p (1 / INR n)).
Proof.
  intros Hp Hn. cbn [Math_pow].
  rewrite (Rsign_pos _ (exponent_pos n Hn)), (Rsign_pos _ Hp). reflexivity.
Qed.

Lemma Rpower_pos (x y : R) : 0 < Rpower x y.
Proof. unfold Rpower. apply exp_pos. Qed.

(** The root of a negative product is [NaN] as soon as [n > 1]. *)
Lemma half_not_integer : is_integer (1 / INR 2) = false.
Proof.
  unfold is_integer. destruct (Req_dec_T _ _) as [E | _]; [| reflexivity].
  exfalso. change (INR 2) with (1 + 1) in E.
  assert (H : IZR (2 * Int_part (1 / (1 + 1))) = IZR 1) by (rewrite mult_IZR; rlra).
  apply eq_IZR in H. lia.
Qed.

Lemma Math_pow_negative_half (p : R) :
  p < 0 -> Math_pow (RFin p) (RFin (1 / INR 2)) = RNaN.
Proof.
  intros Hp. cbn [Math_pow].
  rewrite (Rsign_pos _ (exponent_pos 2 ltac:(lia))), (Rsign_neg _ Hp).
  rewrite half_not_integer. reflexivity.
Qed.

(** Sums and products of lists of real numbers. *)
Lemma foldl_Rmult (a : R) (l : list R) : foldl Rmult a l = a * Rprod l.
Proof.
  revert a. induction l as [| x l IH]; intros a; cbn [foldl Rprod foldr]; [rlra |].
  rewrite IH. fold (Rprod l). ring.
Qed.

Lemma foldl_radd (a : R) (l : list R) :
  foldl radd (RFin a) (map RFin l) = RFin (a + Rsum l).
Proof.
  revert a. induction l as [| x l IH]; intros a; cbn [foldl map Rsum foldr].
  - f_equal. rlra.
  - cbn [radd]. rewrite IH. fold (Rsum l). f_equal. ring.
Qed.

Lemma Rprod_pos (l : list R) : Forall (fun x => 0 < x) l -> 0 < Rprod l.
Proof.
  induction 1 as [| x l Hx _ IH]; cbn [Rprod foldr]; [rlra |].
  apply Rmult_lt_0_compat; assumption.
Qed.

Lemma Rsum_nonneg (l : list R) : Forall (fun x => 0 < x) l -> 0 <= Rsum l.
Proof.
  induction 1 as [| x l Hx _ IH]; cbn [Rsum foldr]; [rlra |].
  fold (Rsum l). rlra.
Qed.

Lemma Rsum_pos (l : list R) :
  (0 < length l)%nat -> Forall (fun x => 0 < x) l -> 0 < Rsum l.
Proof.
  intros Hlen H. destruct H as [| x l Hx Hl]; [cbn in Hlen; lia |].
  cbn [Rsum foldr]. fold (Rsum l). pose proof (Rsum_nonneg l Hl). rlra.
Qed.

Lemma Rsum_scale (k : R) (l : list R) : Rsum (map (fun x => x * k) l) = Rsum l * k.
Proof.
  induction l as [| x l IH]; cbn [Rsum foldr map]; [rlra |].
  fold (Rsum (map (fun x => x * k) l)). fold (Rsum l). rewrite IH. ring.
Qed.

Lemma normalize_scale (k : R) (l : list R) :
  k <> 0 -> Rsum l <> 0 -> normalize (map (fun x => x * k) l) = normalize l.
Proof.
  intros Hk Hs. unfold normalize. rewrite Rsum_scale, map_map.
  apply map_ext. intros x. field. split; assumption.
Qed.

Lemma normalize_sum (l : list R) : Rsum l <> 0 -> Rsum (normalize l) = 1.
Proof.
  intros Hs. unfold normalize.
  rewrite (map_ext _ (fun x => x * / Rsum l)) by (intros x; reflexivity).
  rewrite Rsum_scale. field. exact Hs.
Qed.

(** The loops of [calculateWeights] read the rows of a real matrix. *)
Lemma entry_as_numbers (M : list (list R)) (row : list R) (i j : nat) (x : R) :
  M !! i = Some row -> row !! j = Some x -> entry (as_numbers M) i j = RFin x.
Proof.
  intros Hi Hj. unfold entry, matrix_get, as_numbers.
  rewrite list_lookup_fmap, Hi. cbn. rewrite list_lookup_fmap, Hj. reflexivity.
Qed.

Lemma product_loop (M : list (list rnum)) (i : nat) (l : list R) (k : nat) (a : R) :
  (forall j x, l !! j = Some x -> entry M i (k + j) = RFin x) ->
  foldl (fun product j => rmul product (entry M i j)) (RFin a) (seq k (length l))
  = RFin (foldl Rmult a l).
Proof.
  revert k a. induction l as [| x l IH]; intros k a H; cbn [length seq foldl];
    [reflexivity |].
  rewrite <- (Nat.add_0_r k) at 1. rewrite (H 0%nat x) by reflexivity.
  cbn [rmul]. apply IH. intros j y Hj.
  replace (S k + j)%nat with (k + S j)%nat by lia. apply H. exact Hj.
Qed.

Lemma row_product_real (M : list (list R)) (row : list R) (i : nat) :
  M !! i = Some row ->
  row_product (as_numbers M) (length row) i = RFin (foldl Rmult 1 row).
Proof.
  intros Hi. unfold row_product. apply product_loop.
  intros j x Hj. apply (entry_as_numbers M row); assumption.
Qed.

Lemma map_seq_lookup {A B : Type} (f : nat -> B) (g : A -> B) (l : list A) (k : nat) :
  (forall i x, l !! i = Some x -> f (k + i)%nat = g x) ->
  map f (seq k (length l)) = map g l.
Proof.
  revert k. induction l as [| x l IH]; intros k H; cbn [length seq map]; [reflexivity |].
  f_equal.
  - rewrite <- (Nat.add_0_r k). apply H. reflexivity.
  - apply IH. intros i y Hi.
    replace (S k + i)%nat with (k + S i)%nat by lia. apply H. exact Hi.
Qed.

Lemma foldl_Rmult_pos (row : list R) : Forall (fun x => 0 < x) row -> 0 < foldl Rmult 1 row.
Proof.
  intros H. rewrite foldl_Rmult. pose proof (Rprod_pos row H). rlra.
Qed.

(** On a square matrix of positive entries the code computes the geometric
    means of the rows, normalized by their sum. *)
Lemma calculateWeights_geometric (M : list (list R)) :
  (0 < length M)%nat -> square (length M) M -> positive_matrix M ->
  calculateWeights (as_numbers M) = map RFin (geometric_mean_weights M).
Proof.
  intros Hn [_ Hrows] Hpos. unfold calculateWeights, geometric_mean_weights.
  set (n := length M) in *.
  assert (Hlen : length (as_numbers M) = n) by (unfold as_numbers; apply length_map).
  rewrite Hlen. cbv zeta.
  assert (Hw : map (fun i => Math_pow (row_product (as_numbers M) n i)
                               (rdiv (RFin 1) (RFin (INR n)))) (seq 0 n)
               = map RFin (map (geometric_mean n) M)).
  { rewrite map_map. apply (map_seq_lookup _ _ M 0). intros i row Hi. cbn [Nat.add].
    rewrite Forall_lookup in Hrows. rewrite <- (Hrows i row Hi) at 1.
    rewrite (row_product_real M row i Hi), exponent by exact Hn.
    apply Math_pow_root; [| exact Hn].
    apply foldl_Rmult_pos. unfold positive_matrix in Hpos.
    rewrite Forall_lookup in Hpos. exact (Hpos i row Hi). }
  rewrite Hw, foldl_radd, Rplus_0_l.
  set (g := map (geometric_mean n) M).
  assert (Hg : 0 < Rsum g).
  { apply Rsum_pos; [unfold g; rewrite length_map; exact Hn |].
    unfold g. apply Forall_fmap, Forall_forall. intros row _. apply Rpower_pos. }
  unfold normalize. rewrite !map_map. apply map_ext. intros x. cbn [rdiv].
  destruct (Req_dec_T (Rsum g) 0); [rlra | reflexivity].
Qed.

Lemma geometric_mean_weights_normalized (M : list (list R)) :
  (0 < length M)%nat ->
  length (geometric_mean_weights M) = length M /\
  Forall (fun x => 0 < x) (geometric_mean_weights M) /\
  Rsum (geometric_mean_weights M) = 1.
Proof.
  intros Hn. unfold geometric_mean_weights.
  set (g := map (geometric_mean (length M)) M).
  assert (Hpos : Forall (fun x => 0 < x) g).
  { unfold g. apply Forall_fmap, Forall_forall. intros row _. apply Rpower_pos. }
  assert (Hg : 0 < Rsum g)
    by (apply Rsum_pos; [unfold g; rewrite length_map; exact Hn | exact Hpos]).
  split; [unfold normalize, g; rewrite !length_map; reflexivity |].
  split; [| apply normalize_sum; rlra].
  unfold normalize. apply Forall_fmap. eapply Forall_impl; [exact Hpos |].
  intros x Hx. cbn. apply Rdiv_lt_0_compat; assumption.
Qed.

(** C3 (as stated, fails): on the reciprocal matrix of a judgment of
    magnitude -3 both row products are negative, their square roots are
    [NaN], and so are the two weights. *)
Lemma calculateWeights_negative_matrix :
  calculateWeights (as_numbers negative_matrix) = [RNaN; RNaN] /\
  ~ priority_vector 2 (calculateWeights (as_numbers negative_matrix)).
Proof.
  assert (H : calculateWeights (as_numbers negative_matrix) = [RNaN; RNaN]).
  { unfold calculateWeights.
    change (length (as_numbers negative_matrix)) with 2%nat. cbv zeta.
    cbn [seq map]. rewrite exponent by lia.
    pose proof (row_product_real negative_matrix [1; -3] 0 eq_refl) as H0.
    pose proof (row_product_real negative_matrix [-1 / 3; 1] 1 eq_refl) as H1.
    cbn [length foldl] in H0, H1. rewrite H0, H1.
    rewrite !Math_pow_negative_half by rlra. reflexivity. }
  split; [exact H |].
  rewrite H. intros (v & Hv & _). destruct v as [| x v]; discriminate Hv.
Qed.

(** C3 (amended): for every square matrix with at least one row and
    positive entries, [calculateWeights] (the geometric-mean method, the
    only one of the frontend) returns a vector of as many finite entries,
    all positive, whose sum is 1. *)
Theorem calculateWeights_priority_vector (M : list (list R)) :
  (0 < length M)%nat -> square (length M) M -> positive_matrix M ->
  priority_vector (length M) (calculateWeights (as_numbers M)) /\
  exists v, calculateWeights (as_numbers M) = map RFin v /\ Forall (fun x => 0 < x) v.
Proof.
  intros Hn Hsq Hpos.
  destruct (geometric_mean_weights_normalized M Hn) as (Hlen & Hv & Hsum).
  rewrite (calculateWeights_geometric M Hn Hsq Hpos). split.
  - exists (geometric_mean_weights M). repeat split; try assumption.
    eapply Forall_impl; [exact Hv |]. intros x Hx. cbn. rlra.
  - exists (geometric_mean_weights M). split; [reflexivity | exact Hv].
Qed.

Lemma two_to_one_positive : positive_matrix two_to_one.
Proof. repeat constructor; rlra. Defined.

Lemma two_to_one_square : square (length two_to_one) two_to_one.
Proof. split; [reflexivity | repeat constructor]. Defined.

Lemma calculateWeights_priority_vector_witness :
  priority_vector 2 (calculateWeights (as_numbers two_to_one)).
Proof.
  apply (calculateWeights_priority_vector two_to_one);
    [cbn; lia | exact two_to_one_square | exact two_to_one_positive].
Defined.

End RealWeights.

(** ** The three methods on a perfectly consistent matrix *)

Section ConsistentMatrix.

Import Re.
Local Open Scope R_scope.

Lemma length_rank_one (w : list R) : length (rank_one w) = length w.
Proof. unfold rank_one. apply length_map. Qed.

Lemma rank_one_square (w : list R) : square (length (rank_one w)) (rank_one w).
Proof.
  split; [reflexivity |]. rewrite length_rank_one. unfold rank_one.
  apply Forall_fmap, Forall_forall. intros wi _. cbn. apply length_map.
Qed.

Lemma rank_one_positive (w : list R) :
  Forall (fun x => 0 < x) w -> positive_matrix (rank_one w).
Proof.
  intros Hw. unfold positive_matrix, rank_one.
  apply Forall_fmap. eapply Forall_impl; [exact Hw |]. intros wi Hi. cbn.
  apply Forall_fmap. eapply Forall_impl; [exact Hw |]. intros wj Hj. cbn.
  apply Rdiv_lt_0_compat; assumption.
Qed.

(** *** The geometric means of the rows *)

Lemma Rprod_ratio (wi : R) (w : list R) :
  Forall (fun x => 0 < x) w ->
  Rprod (map (fun wj => wi / wj) w) = wi ^ length w * / Rprod w.
Proof.
  induction 1 as [| x w Hx Hw IH]; cbn [map Rprod foldr length pow].
  - field.
  - fold (Rprod (map (fun wj => wi / wj) w)). fold (Rprod w). rewrite IH.
    pose proof (Rprod_pos w Hw). field. split; rlra.
Qed.

Lemma root_of_power (x : R) (n : nat) :
  0 < x -> (0 < n)%nat -> Rpower (x ^ n) (1 / INR n) = x.
Proof.
  intros Hx Hn. rewrite <- Rpower_pow by exact Hx. rewrite Rpower_mult.
  replace (INR n * (1 / INR n)) with 1
    by (field; pose proof (INR_pos n Hn); rlra).
  apply Rpower_1. exact Hx.
Qed.

Lemma geometric_mean_ratio (wi : R) (w : list R) :
  0 < wi -> (0 < length w)%nat -> Forall (fun x => 0 < x) w ->
  geometric_mean (length w) (map (fun wj => wi / wj) w)
  = wi * Rpower (/ Rprod w) (1 / INR (length w)).
Proof.
  intros Hi Hn Hw. unfold geometric_mean.
  rewrite foldl_Rmult, Rmult_1_l, (Rprod_ratio wi w Hw).
  pose proof (Rprod_pos w Hw) as HP.
  rewrite <- Rpower_mult_distr;
    [| apply pow_lt; exact Hi | apply Rinv_0_lt_compat; exact HP].
  rewrite root_of_power by assumption. reflexivity.
Qed.

Lemma geometric_mean_weights_rank_one (w : list R) :
  (0 < length w)%nat -> Forall (fun x => 0 < x) w ->
  geometric_mean_weights (rank_one w) = normalize w.
Proof.
  intros Hn Hw. unfold geometric_mean_weights. rewrite length_rank_one.
  set (c := Rpower (/ Rprod w) (1 / INR (length w))).
  assert (Hmap : map (geometric_mean (length w)) (rank_one w) = map (fun wi => wi * c) w).
  { unfold rank_one. rewrite map_map. apply Forall_fmap_ext_1.
    eapply Forall_impl; [exact Hw |]. intros wi Hi. cbn.
    apply geometric_mean_ratio; assumption. }
  rewrite Hmap. apply normalize_scale.
  - pose proof (Rpower_pos (/ Rprod w) (1 / INR (length w))). unfold c. rlra.
  - pose proof (Rsum_pos w Hn Hw). rlra.
Qed.

(** *** The normalized column sums *)

Lemma Rsum_const (k : R) {A : Type} (l : list A) :
  Rsum (map (fun _ => k) l) = INR (length l) * k.
Proof.
  induction l as [| x l IH].
  - cbn. rlra.
  - cbn [map Rsum foldr]. fold (Rsum (map (fun _ => k) l)). rewrite IH.
    change (length (x :: l)) with (S (length l)). rewrite S_INR. ring.
Qed.



(** *** The principal eigenvector *)

Lemma dot_ratio (wi : R) (w v : list R) :
  dot (map (fun wj => wi / wj) w) v = wi * dot (map Rinv w) v.
Proof.
  unfold dot. revert v. induction w as [| x w IH]; intros v; cbn [map zip_with].
  - cbn. rlra.
  - destruct v as [| y v]; cbn [Rsum foldr]; [rlra |].
    fold (Rsum (zip_with Rmult (map (fun wj => wi / wj) w) v)).
    fold (Rsum (zip_with Rmult (map Rinv w) v)). rewrite IH. unfold Rdiv. ring.
Qed.













(** *** Consistent matrices are the matrices [rank_one w] *)





End ConsistentMatrix.

Section ConsistencyRatio.

Import Re.
Local Open Scope R_scope.

Lemma sum_loop (term : nat -> rnum) (l : list R) (k : nat) (a : R) :
  (forall j x, l !! j = Some x -> term (k + j)%nat = RFin x) ->
  foldl (fun acc j => radd acc (term j)) (RFin a) (seq k (length l))
  = RFin (a + Rsum l).
Proof.
  revert k a. induction l as [| x l IH]; intros k a H; cbn [length seq foldl].
  - cbn. f_equal. rlra.
  - rewrite <- (Nat.add_0_r k) at 1. rewrite (H 0%nat x) by reflexivity.
    cbn [radd]. rewrite IH.
    + cbn [Rsum foldr]. fold (Rsum l). f_equal. ring.
    + intros j y Hj. replace (S k + j)%nat with (k + S j)%nat by lia.
      apply H. exact Hj.
Qed.

Lemma weight_at_real (v : list R) (j : nat) (x : R) :
  v !! j = Some x -> weight_at (map RFin v) j = RFin x.
Proof.
  intros H. unfold weight_at. rewrite list_lookup_fmap, H. reflexivity.
Qed.

(** [weightedSum[i]] is the product of row [i] with the weights. *)
Lemma weighted_sum_real (M : list (list R)) (v row : list R) (i : nat) :
  M !! i = Some row -> length row = length v ->
  foldl (fun acc j =>
           radd acc (rmul (entry (as_numbers M) i j) (weight_at (map RFin v) j)))
    (RFin 0) (seq 0 (length v))
  = RFin (0 + dot row v).
Proof.
  intros Hi Hlen. unfold dot.
  pose proof (sum_loop
                (fun j => rmul (entry (as_numbers M) i j) (weight_at (map RFin v) j))
                (zip_with Rmult row v) 0 0) as H.
  rewrite length_zip_with, Hlen, Nat.min_id in H. apply H.
  - intros j x Hj. cbn [Nat.add]. rewrite lookup_zip_with in Hj.
    destruct (row !! j) as [a |] eqn:Ha; [| discriminate Hj].
    destruct (v !! j) as [b |] eqn:Hb; [| discriminate Hj].
    cbn in Hj. injection Hj as <-.
    rewrite (entry_as_numbers M row i j a Hi Ha), (weight_at_real v j b Hb).
    reflexivity.
Qed.

Lemma dot_inverse_scaled (w : list R) (k : R) :
  Forall (fun x => 0 < x) w ->
  dot (map Rinv w) (map (fun x => x * k) w) = INR (length w) * k.
Proof.
  unfold dot. induction 1 as [| x w Hx _ IH]; [cbn; rlra |].
  cbn [map zip_with Rsum foldr].
  fold (Rsum (zip_with Rmult (map Rinv w) (map (fun x => x * k) w))).
  rewrite IH. change (length (x :: w)) with (S (length w)). rewrite S_INR.
  field. rlra.
Qed.

(** The estimate of the dominant eigenvalue on [rank_one w], with the
    weights [normalize w]. *)
Lemma calculateLambdaMax_rank_one (w : list R) :
  (0 < length w)%nat -> Forall (fun x => 0 < x) w ->
  calculateLambdaMax (as_numbers (rank_one w)) (map RFin (normalize w))
  = RFin (INR (length w)).
Proof.
  intros Hn Hw. pose proof (INR_pos _ Hn) as HN. pose proof (Rsum_pos w Hn Hw) as HS.
  set (v := normalize w).
  assert (Hv : length v = length w) by (unfold v, normalize; apply length_map).
  unfold calculateLambdaMax. cbv zeta.
  replace (length (as_numbers (rank_one w))) with (length v)
    by (unfold as_numbers; rewrite length_map, length_rank_one; exact Hv).
  (* the weighted sums, row by row *)
  assert (Hsums :
    map (fun i =>
           foldl (fun acc j =>
                    radd acc (rmul (entry (as_numbers (rank_one w)) i j)
                                (weight_at (map RFin v) j)))
             (RFin 0) (seq 0 (length v)))
        (seq 0 (length v))
    = map RFin (map (fun wi => INR (length w) * (wi / Rsum w)) w)).
  { rewrite Hv, map_map. apply (map_seq_lookup _ _ w 0). intros i wi Hi. cbn [Nat.add].
    rewrite <- Hv.
    rewrite (weighted_sum_real (rank_one w) v (map (fun wj => wi / wj) w) i).
    - f_equal. rewrite Rplus_0_l, dot_ratio. unfold v, normalize.
      change (map (fun x => x / Rsum w) w) with (map (fun x => x * / Rsum w) w).
      rewrite (dot_inverse_scaled w (/ Rsum w) Hw), length_map. field. rlra.
    - unfold rank_one. rewrite list_lookup_fmap, Hi. reflexivity.
    - rewrite length_map. symmetry. exact Hv. }
  rewrite Hsums.
  (* each quotient is the size of the matrix *)
  rewrite Hv.
  pose proof (sum_loop
                (fun i => rdiv (weight_at (map RFin (map (fun wi => INR (length w) * (wi / Rsum w)) w)) i)
                            (weight_at (map RFin v) i))
                (map (fun _ => INR (length w)) w) 0 0) as Hloop.
  rewrite length_map in Hloop. rewrite Hloop.
  - rewrite Rsum_const. cbn [rdiv].
    destruct (Req_dec_T (INR (length w)) 0); [rlra |]. f_equal. field. rlra.
  - intros i x Hi. cbn [Nat.add]. rewrite list_lookup_fmap in Hi.
    destruct (w !! i) as [wi |] eqn:Hwi; [| discriminate Hi].
    cbn in Hi. injection Hi as <-.
    rewrite (weight_at_real _ i (INR (length w) * (wi / Rsum w)))
      by (rewrite list_lookup_fmap, Hwi; reflexivity).
    rewrite (weight_at_real v i (wi / Rsum w))
      by (unfold v, normalize; rewrite list_lookup_fmap, Hwi; reflexivity).
    rewrite Forall_lookup in Hw. pose proof (Hw i wi Hwi) as Hpos.
    assert (Hq : 0 < wi / Rsum w) by (apply Rdiv_lt_0_compat; assumption).
    cbn [rdiv]. destruct (Req_dec_T (wi / Rsum w) 0); [rlra |].
    f_equal. field. split; rlra.
Qed.

Lemma RANDOM_INDEX_nonzero (n : nat) :
  match RANDOM_INDEX n with
  | Some r => if Req_dec_T r 0 then 1.49 else r
  | None => 1.49
  end <> 0.
Proof.
  destruct (RANDOM_INDEX n) as [r |]; [| rlra].
  destruct (Req_dec_T r 0); [rlra | assumption].
Qed.

(** The consistency ratio of a perfectly consistent matrix is 0. *)
Lemma calculateConsistencyRatio_rank_one (w : list R) :
  (0 < length w)%nat -> Forall (fun x => 0 < x) w ->
  calculateConsistencyRatio (as_numbers (rank_one w)) (map RFin (normalize w))
  = RFin 0.
Proof.
  intros Hn Hw. unfold calculateConsistencyRatio. cbv zeta.
  replace (length (as_numbers (rank_one w))) with (length w)
    by (unfold as_numbers; rewrite length_map, length_rank_one; reflexivity).
  destruct (length w <? 3)%nat eqn:E; [reflexivity |].
  apply Nat.ltb_ge in E.
  rewrite (calculateLambdaMax_rank_one w Hn Hw).
  pose proof (RANDOM_INDEX_nonzero (length w)) as HRI.
  set (RI := match RANDOM_INDEX (length w) with
             | Some r => if Req_dec_T r 0 then 1.49 else r
             | None => 1.49
             end) in *.
  assert (H3 : 3 <= INR (length w))
    by (pose proof (le_INR 3 _ E) as H; cbn in H; rlra).
  unfold calculateCI. cbn [rsub rneg radd rdiv].
  match goal with
  | |- context [Req_dec_T ?a 0] => destruct (Req_dec_T a 0) as [Ha | Ha]; [rlra |]
  end.
  cbn [rdiv]. destruct (Req_dec_T RI 0); [contradiction |].
  f_equal. field. split; [rlra | exact HRI].
Qed.




End ConsistencyRatio.

(** ** The decay of the score with the distance *)

Lemma decay_monotone (d1 d2 range : Q) :
  (0 < d2)%Q -> (d2 <= d1)%Q -> (0 <= range)%Q ->
  (Math_max (Fin 0) (Fin 1 - (Fin d1 / Fin range) * Fin 0.7%Q)
   <=? Math_max (Fin 0) (Fin 1 - (Fin d2 / Fin range) * Fin 0.7%Q))%js = true.
Proof.
  intros H2 H12 Hr. unfold div.
  destruct (Qeq_bool range 0) eqn:E.
  - rewrite !Qcompare_0_Gt by qlra. reflexivity.
  - apply Qeq_bool_false_iff in E.
    assert (Hpos : (0 < range)%Q).
    { destruct (Qle_lt_or_eq _ _ Hr) as [H | H]; [exact H | symmetry in H; contradiction]. }
    assert (Hq : (d2 / range <= d1 / range)%Q).
    { unfold Qdiv. apply Qmult_le_compat_r; [exact H12 |].
      apply Qlt_le_weak, Qinv_lt_0_compat, Hpos. }
    cbn [mul sub add neg Math_max].
    destruct (Fin 0 <? Fin (1 + - (d1 / range * 0.7)))%js eqn:L1;
      destruct (Fin 0 <? Fin (1 + - (d2 / range * 0.7)))%js eqn:L2;
      first [apply ltb_Fin in L1 | apply ltb_Fin_false in L1];
      first [apply ltb_Fin in L2 | apply ltb_Fin_false in L2];
      apply leb_Fin; qlra.
Qed.

(** X1: for finite arguments other than the negative zero, of magnitude at
    most 1e300, the score never grows with the distance from the preferred
    range: below the range it does not decrease when the value rises
    towards it, above the range it does not increase when the value rises
    away from it.  The two exclusions are needed: see
    [scoreCriterion_negative_zero] and [scoreCriterion_overflow]. *)
Theorem scoreCriterion_monotone (a b lo hi v1 v2 : Q) :
  moderate_magnitude a -> moderate_magnitude b ->
  moderate_magnitude lo -> moderate_magnitude hi ->
  moderate_magnitude v1 -> moderate_magnitude v2 ->
  (lo <= a)%Q -> (a <= b)%Q -> (b <= hi)%Q -> (v1 <= v2)%Q ->
  ((v2 <= a)%Q ->
   (scoreCriterion (Some (Fin v1)) (Fin a) (Fin b) (Fin lo) (Fin hi)
    <=? scoreCriterion (Some (Fin v2)) (Fin a) (Fin b) (Fin lo) (Fin hi))%js = true) /\
  ((b <= v1)%Q ->
   (scoreCriterion (Some (Fin v2)) (Fin a) (Fin b) (Fin lo) (Fin hi)
    <=? scoreCriterion (Some (Fin v1)) (Fin a) (Fin b) (Fin lo) (Fin hi))%js = true).
Proof.
  intros _ _ _ _ _ _ Hlo Hab Hhi H12. split.
  - intros H2.
    destruct (Qlt_le_dec v2 a) as [Hlt | Hge].
    + rewrite !scoreCriterion_below by (apply ltb_Fin; qlra).
      cbn [sub add neg]. apply decay_monotone; qlra.
    + rewrite (scoreCriterion_inside (Fin v2)) by (apply leb_Fin; qlra).
      apply (scoreCriterion_bounded v1 a b lo hi Hlo Hhi).
  - intros H1.
    destruct (Qlt_le_dec b v1) as [Hlt | Hge].
    + rewrite !scoreCriterion_above
        by (first [apply ltb_Fin; qlra | apply ltb_Fin_false; qlra]).
      cbn [sub add neg]. apply decay_monotone; qlra.
    + rewrite (scoreCriterion_inside (Fin v1)) by (apply leb_Fin; qlra).
      apply (scoreCriterion_bounded v2 a b lo hi Hlo Hhi).
Qed.

Lemma scoreCriterion_monotone_witness :
  (scoreCriterion (Some (Fin 16)) (Fin 20) (Fin 24) (Fin 18) (Fin 27)
   <=? scoreCriterion (Some (Fin 19)) (Fin 20) (Fin 24) (Fin 18) (Fin 27))%js = true.
Proof.
  apply (scoreCriterion_monotone 20 24 18 27 16 19); vm_compute; discriminate.
Defined.

Lemma decay_zero_iff (d r : Q) :
  (0 < r)%Q ->
  (Math_max (Fin 0) (Fin 1 - (Fin d / Fin r) * Fin 0.7%Q) === Fin 0)%js = true
  <-> (r <= 0.7 * d)%Q.
Proof.
  intros Hr. unfold div.
  replace (Qeq_bool r 0) with false
    by (symmetry; apply Qeq_bool_false_iff; intros E; qlra).
  cbn [mul sub add neg Math_max].
  assert (Hd : (d / r * r == d)%Q) by (field; intros E; qlra).
  destruct (Fin 0 <? Fin (1 + - (d / r * 0.7)))%js eqn:L.
  - apply ltb_Fin in L. cbn [strict_eq]. rewrite Qeq_bool_iff. split.
    + intros E. qlra.
    + intros H. exfalso.
      assert (H1 : (d / r * 0.7 < 1)%Q) by qlra.
      assert (H2 : (d / r * 0.7 * r < 1 * r)%Q)
        by (apply Qmult_lt_compat_r; assumption).
      assert (H3 : (d / r * 0.7 * r == 0.7 * d)%Q) by (rewrite <- Hd at 2; ring).
      qlra.
  - apply ltb_Fin_false in L. split; [intros _ | reflexivity].
    assert (H1 : (1 <= d / r * 0.7)%Q) by qlra.
    assert (H2 : (1 * r <= d / r * 0.7 * r)%Q)
      by (apply Qmult_le_compat_r; qlra).
    assert (H3 : (d / r * 0.7 * r == 0.7 * d)%Q) by (rewrite <- Hd at 2; ring).
    qlra.
Qed.

Lemma decay_at_bound (r : Q) :
  (0 < r)%Q ->
  (Math_max (Fin 0) (Fin 1 - (Fin r / Fin r) * Fin 0.7%Q) === Fin 0.3%Q)%js = true.
Proof.
  intros Hr. unfold div.
  replace (Qeq_bool r 0) with false
    by (symmetry; apply Qeq_bool_false_iff; intros E; qlra).
  cbn [mul sub add neg Math_max].
  assert (Hd : (r / r == 1)%Q) by (field; intros E; qlra).
  destruct (Fin 0 <? Fin (1 + - (r / r * 0.7)))%js eqn:L; cbn [strict_eq].
  - apply Qeq_bool_iff. rewrite Hd. reflexivity.
  - apply ltb_Fin_false in L. rewrite Hd in L. exfalso. revert L. vm_compute. congruence.
Qed.

(** X2: in exact arithmetic the penalty is not capped at 0.7: a value on
    the absolute bound scores 0.3, and the score has fallen to 0 exactly
    when 0.7 times the distance from the preferred range reaches the width
    between the preferred and the absolute bound.  (In doubles the score on
    the bound is [1 - 0.7], see [scoreCriterion_rounded_bound].) *)
Theorem scoreCriterion_reach (a b lo hi : Q) :
  (a <= b)%Q ->
  ((lo < a)%Q ->
   (scoreCriterion (Some (Fin lo)) (Fin a) (Fin b) (Fin lo) (Fin hi)
    === Fin 0.3%Q)%js = true /\
   forall v, (v < a)%Q ->
     ((scoreCriterion (Some (Fin v)) (Fin a) (Fin b) (Fin lo) (Fin hi)
       === Fin 0)%js = true
      <-> (a - lo <= 0.7 * (a - v))%Q)) /\
  ((b < hi)%Q ->
   (scoreCriterion (Some (Fin hi)) (Fin a) (Fin b) (Fin lo) (Fin hi)
    === Fin 0.3%Q)%js = true /\
   forall v, (b < v)%Q ->
     ((scoreCriterion (Some (Fin v)) (Fin a) (Fin b) (Fin lo) (Fin hi)
       === Fin 0)%js = true
      <-> (hi - b <= 0.7 * (v - b))%Q)).
Proof.
  intros Hab. split.
  - intros Hlo. split.
    + rewrite scoreCriterion_below by (apply ltb_Fin; exact Hlo).
      cbn [sub add neg]. apply decay_at_bound. qlra.
    + intros v Hv. rewrite scoreCriterion_below by (apply ltb_Fin; exact Hv).
      cbn [sub add neg]. apply decay_zero_iff. qlra.
  - intros Hhi. split.
    + rewrite scoreCriterion_above
        by (first [apply ltb_Fin; qlra | apply ltb_Fin_false; qlra]).
      cbn [sub add neg]. apply decay_at_bound. qlra.
    + intros v Hv. rewrite scoreCriterion_above
        by (first [apply ltb_Fin; qlra | apply ltb_Fin_false; qlra]).
      cbn [sub add neg]. apply decay_zero_iff. qlra.
Qed.

Lemma scoreCriterion_reach_witness :
  (scoreCriterion (Some (Fin 18)) (Fin 20) (Fin 24) (Fin 18) (Fin 27)
   === Fin 0.3%Q)%js = true /\
  ((scoreCriterion (Some (Fin 17)) (Fin 20) (Fin 24) (Fin 18) (Fin 27)
    === Fin 0)%js = true
   <-> (20 - 18 <= 0.7 * (20 - 17))%Q).
Proof.
  destruct (scoreCriterion_reach 20 24 18 27) as [Hbelow _];
    [vm_compute; discriminate |].
  destruct Hbelow as [H1 H2]; [reflexivity |].
  split; [exact H1 | apply H2; reflexivity].
Defined.

(** ** Scores of well-formed inputs *)

Lemma unit_interval_Fin (s : num) :
  in_unit_interval s -> exists q, s = Fin q /\ (0 <= q)%Q /\ (q <= 1)%Q.
Proof.
  intros [H0 H1]. destruct s as [q | | |]; try discriminate.
  exists q. apply leb_Fin in H0. apply leb_Fin in H1. auto.
Qed.

Lemma Fin_unit_interval (q : Q) : (0 <= q)%Q -> (q <= 1)%Q -> in_unit_interval (Fin q).
Proof. intros H0 H1. split; apply leb_Fin; assumption. Qed.

Lemma scoreCriterion_reading (v : option num) (user absolute : Range) :
  finite_reading v -> range_within user absolute ->
  in_unit_interval
    (scoreCriterion v (range_min user) (range_max user)
       (range_min absolute) (range_max absolute)).
Proof.
  intros Hv (a & b & lo & hi & -> & -> & Hlo & Hhi). cbn [range_min range_max].
  destruct v as [x |]; [| split; reflexivity].
  destruct Hv as [q ->]. apply scoreCriterion_bounded; assumption.
Qed.

Lemma score_or_default_reading (v : option num) (user absolute : Range) :
  finite_reading v -> range_within user absolute ->
  in_unit_interval (score_or_default v user absolute).
Proof.
  intros Hv Hr. unfold score_or_default.
  destruct (truthy_opt v); [apply scoreCriterion_reading; assumption |].
  split; reflexivity.
Qed.

Lemma or_default_within (user : option Range) (fallback absolute : Range) :
  preferred_within user absolute -> range_within fallback absolute ->
  range_within (or_default user fallback) absolute.
Proof. intros Hu Hf. destruct user; [exact Hu | exact Hf]. Qed.

(** The ranges the code falls back to stay inside the standard. *)
Ltac fallback_within :=
  apply or_default_within; [assumption |];
  do 4 eexists; split; [reflexivity |]; split; [reflexivity |];
  split; vm_compute; discriminate.

Lemma comfort_unit (room : Room) (profile : Profile) :
  finite_readings room -> profile_within profile ->
  in_unit_interval (calculateComfortScore room profile).
Proof.
  intros (Rt & Rh & Rn & Rl & Rc & Ra & Rv & R25 & R10)
         (Pt & Ph & Pn & Pl & Pc & Pv & P25 & P10).
  unfold calculateComfortScore.
  destruct (unit_interval_Fin (tempScore room profile)) as (t & -> & ? & ?);
    [apply scoreCriterion_reading; [exact Rt | fallback_within] |].
  destruct (unit_interval_Fin (humidScore room profile)) as (h & -> & ? & ?);
    [apply scoreCriterion_reading; [exact Rh | fallback_within] |].
  destruct (unit_interval_Fin (noiseScore room profile)) as (n & -> & ? & ?);
    [apply score_or_default_reading; [exact Rn | fallback_within] |].
  destruct (unit_interval_Fin (lightScore room profile)) as (l & -> & ? & ?);
    [apply score_or_default_reading; [exact Rl | fallback_within] |].
  cbn [mul add]. apply Fin_unit_interval; qlra.
Qed.

Lemma health_unit (room : Room) (profile : Profile) :
  finite_readings room -> profile_within profile ->
  in_unit_interval (calculateHealthScore room profile).
Proof.
  intros (Rt & Rh & Rn & Rl & Rc & Ra & Rv & R25 & R10)
         (Pt & Ph & Pn & Pl & Pc & Pv & P25 & P10).
  unfold calculateHealthScore.
  destruct (unit_interval_Fin (co2Score room profile)) as (c & -> & ? & ?);
    [apply scoreCriterion_reading; [exact Rc | fallback_within] |].
  destruct (unit_interval_Fin (aqScore room)) as (q & -> & ? & ?).
  { apply score_or_default_reading; [exact Ra |].
    do 4 eexists; split; [reflexivity |]; split; [reflexivity |];
      split; vm_compute; discriminate. }
  destruct (unit_interval_Fin (vocScore room profile)) as (v & -> & ? & ?);
    [apply score_or_default_reading; [exact Rv | fallback_within] |].
  destruct (unit_interval_Fin (pm25Score room profile)) as (p & -> & ? & ?);
    [apply score_or_default_reading; [exact R25 | fallback_within] |].
  destruct (unit_interval_Fin (pm10Score room profile)) as (r & -> & ? & ?);
    [apply score_or_default_reading; [exact R10 | fallback_within] |].
  cbn [mul add]. apply Fin_unit_interval; qlra.
Qed.

(** X3: in exact arithmetic, for a room whose readings are finite numbers
    and a profile whose ranges stay inside the standard, the comfort score
    and the health score lie in [[0, 1]].  (In doubles the weighted sum of
    five full leaf scores is just above 1, see
    [weighted_health_rounded].) *)
Theorem group_scores_bounded (room : Room) (profile : Profile) :
  finite_readings room -> profile_within profile ->
  in_unit_interval (calculateComfortScore room profile) /\
  in_unit_interval (calculateHealthScore room profile).
Proof.
  intros Hroom Hprofile. split; [apply comfort_unit | apply health_unit]; assumption.
Qed.

Lemma measured_room_finite : finite_readings measured_room.
Proof. repeat split; cbn; try (eexists; reflexivity). Defined.

Lemma empty_profile_within : profile_within empty_profile.
Proof. repeat split. Defined.

Lemma group_scores_bounded_witness :
  in_unit_interval (calculateComfortScore measured_room empty_profile) /\
  in_unit_interval (calculateHealthScore measured_room empty_profile).
Proof.
  apply (group_scores_bounded measured_room empty_profile);
    [exact measured_room_finite | exact empty_profile_within].
Defined.

Lemma weighted_unit (q w : Q) :
  (0 <= q)%Q -> (q <= 1)%Q -> (0 <= w)%Q -> (0 <= q * w)%Q /\ (q * w <= w)%Q.
Proof.
  intros H0 H1 Hw. split; [apply Qmult_le_0_compat; assumption |].
  rewrite <- (Qmult_1_l w) at 2. apply Qmult_le_compat_r; assumption.
Qed.

Lemma scoreRoom_bounded (profile : Profile) (weights : Weights) (room : Room) :
  finite_readings room -> profile_within profile -> weights_within weights ->
  in_unit_interval (final_score (scoreRoom profile weights room)).
Proof.
  intros Hroom Hprofile (c & h & u & -> & Hc & Hh & Hu & Hsum).
  destruct (unit_interval_Fin _ (comfort_unit room profile Hroom Hprofile))
    as (qc & Ec & Hqc0 & Hqc1).
  destruct (unit_interval_Fin _ (health_unit room profile Hroom Hprofile))
    as (qh & Eh & Hqh0 & Hqh1).
  destruct (unit_interval_Fin (calculateUsabilityScore room)) as (qu & Eu & Hqu0 & Hqu1).
  { destruct (usability_bounds room) as [Hlo Hhi]. split; [| exact Hhi].
    apply (leb_trans (Fin 0) (Fin 0.5%Q)); [reflexivity | exact Hlo]. }
  unfold scoreRoom. cbn [final_score Comfort Health Usability].
  rewrite Ec, Eh, Eu. cbn [mul add].
  destruct (weighted_unit qc c Hqc0 Hqc1 Hc), (weighted_unit qh h Hqh0 Hqh1 Hh),
    (weighted_unit qu u Hqu0 Hqu1 Hu).
  apply Fin_unit_interval; qlra.
Qed.

Lemma StronglySorted_map {A B : Type} (R : B -> B -> Prop) (f : A -> B) (l : list A) :
  StronglySorted (fun a b => R (f a) (f b)) l -> StronglySorted R (map f l).
Proof.
  induction 1 as [| x l _ IH Hx]; cbn [map]; constructor; [exact IH |].
  apply Forall_fmap. exact Hx.
Qed.

(** The sorted list of [evaluateRooms], for scores that are numbers. *)
Lemma by_final_score_sorted (scored : list ScoredRoom) :
  Forall (fun room => is_number (final_score room)) scored ->
  StronglySorted (fun a b => (final_score a >=? final_score b)%js = true)
    (js_sort by_final_score scored).
Proof.
  intros Hnum.
  apply (js_sort_sorted by_final_score (fun room => is_number (final_score room)));
    [| | | exact Hnum].
  - intros a b c _ _ _ Hab Hbc. unfold geb in *. exact (leb_trans _ _ _ Hbc Hab).
  - intros a b Ha Hb H. rewrite by_final_score_after in H by assumption.
    unfold geb. apply ltb_leb. exact H.
  - intros a b Ha Hb H. rewrite by_final_score_after in H by assumption.
    unfold geb. apply not_ltb_leb; assumption.
Qed.

(** X4: in exact arithmetic, for rooms with finite readings, a profile
    inside the standard and group weights that are not negative and sum to
    at most 1 (the default weights among them), every final score lies in
    [[0, 1]] and the ranking lists the final scores in descending order. *)
Theorem evaluateRooms_scores_bounded (roomsData : list Room) (preferences : Preferences) :
  Forall finite_readings roomsData ->
  profile_within (or_default (profile_adjustments preferences) empty_profile) ->
  weights_within (or_default (weights preferences) default_weights) ->
  Forall (fun ranked => in_unit_interval (ranked_final_score ranked))
    (rankings (evaluateRooms roomsData preferences)) /\
  StronglySorted (fun x y => (x >=? y)%js = true)
    (map ranked_final_score (rankings (evaluateRooms roomsData preferences))).
Proof.
  intros Hrooms Hprofile Hweights.
  set (profile := or_default (profile_adjustments preferences) empty_profile) in *.
  set (group_weights := or_default (weights preferences) default_weights) in *.
  set (scored := map (scoreRoom profile group_weights) roomsData).
  assert (Hscored : Forall (fun room => in_unit_interval (final_score room)) scored).
  { unfold scored. apply Forall_fmap. eapply Forall_impl; [exact Hrooms |].
    intros room Hroom. cbn. apply scoreRoom_bounded; assumption. }
  assert (Hsorted : Forall (fun room => in_unit_interval (final_score room))
                      (js_sort by_final_score scored))
    by (apply (Permutation_Forall (Permutation_sym (js_sort_perm by_final_score scored)));
        exact Hscored).
  assert (Hmap : map ranked_final_score (rankings (evaluateRooms roomsData preferences))
                 = map final_score (js_sort by_final_score scored))
    by (apply imap_map_compose; reflexivity).
  split.
  - apply (Forall_fmap ranked_final_score in_unit_interval).
    change (Forall in_unit_interval
              (map ranked_final_score (rankings (evaluateRooms roomsData preferences)))).
    rewrite Hmap. apply Forall_fmap. exact Hsorted.
  - rewrite Hmap. apply StronglySorted_map. apply by_final_score_sorted.
    eapply Forall_impl; [exact Hscored |].
    intros room Hroom. destruct (unit_interval_Fin _ Hroom) as (q & E & _).
    unfold is_number. rewrite E. discriminate.
Qed.

Lemma default_weights_within : weights_within default_weights.
Proof.
  exists 0.40%Q, 0.35%Q, 0.25%Q. repeat split; vm_compute; discriminate.
Defined.

Lemma evaluateRooms_scores_bounded_witness :
  Forall (fun ranked => in_unit_interval (ranked_final_score ranked))
    (rankings (evaluateRooms [measured_room] no_preferences)) /\
  StronglySorted (fun x y => (x >=? y)%js = true)
    (map ranked_final_score (rankings (evaluateRooms [measured_room] no_preferences))).
Proof.
  apply (evaluateRooms_scores_bounded [measured_room] no_preferences).
  - constructor; [exact measured_room_finite | constructor].
  - exact empty_profile_within.
  - exact default_weights_within.
Defined.

(** X5: the ranking neither drops nor repeats a room: its ranks are 1, 2,
    ..., n in this order and its room identifiers are those of the input,
    rearranged. *)
Theorem evaluateRooms_ranks (roomsData : list Room) (preferences : Preferences) :
  map rank (rankings (evaluateRooms roomsData preferences))
  = seq 1 (length roomsData) /\
  Permutation (map ranked_room_id (rankings (evaluateRooms roomsData preferences)))
    (map room_id roomsData).
Proof.
  unfold evaluateRooms. cbn [rankings].
  set (scored := map (scoreRoom _ _) roomsData). split.
  - apply list_eq. intros i. rewrite list_lookup_fmap, list_lookup_imap.
    destruct (js_sort by_final_score scored !! i) as [room |] eqn:E; cbn.
    + assert (Hi : (i < length roomsData)%nat).
      { apply lookup_lt_Some in E.
        rewrite length_js_sort in E. unfold scored in E. rewrite length_map in E.
        exact E. }
      rewrite lookup_seq_lt by exact Hi. f_equal. lia.
    + apply lookup_ge_None in E.
      rewrite length_js_sort in E. unfold scored in E. rewrite length_map in E.
      symmetry. apply lookup_seq_ge. exact E.
  - rewrite (imap_map_compose toRanked ranked_room_id (fun s => room_id (scored_room s)))
      by reflexivity.
    rewrite (js_sort_perm by_final_score scored).
    unfold scored. rewrite map_map. reflexivity.
Qed.

(** ** More on the comparison matrix *)

Lemma square_constant {A : Type} (n : nat) (x : A) (m : list (list A)) :
  square n m ->
  (forall i j, (i < n)%nat -> (j < n)%nat -> matrix_get m i j = Some x) ->
  m = replicate n (replicate n x).
Proof.
  intros [Hlen Hrows] Hget. apply list_eq. intros i.
  destruct (decide (i < n)%nat) as [Hi | Hi].
  - rewrite (lookup_replicate_2 n _ i Hi).
    destruct (lookup_lt_is_Some_2 m i) as [row Hrow]; [lia |].
    rewrite Hrow. f_equal. apply list_eq. intros j.
    rewrite Forall_lookup in Hrows. pose proof (Hrows i row Hrow) as Hrowlen.
    destruct (decide (j < n)%nat) as [Hj | Hj].
    + rewrite (lookup_replicate_2 n _ j Hj). rewrite <- (Hget i j Hi Hj).
      unfold matrix_get. rewrite Hrow. reflexivity.
    + rewrite !(proj2 (lookup_ge_None _ _)); [reflexivity | |].
      * rewrite length_replicate. lia.
      * lia.
  - rewrite !(proj2 (lookup_ge_None _ _)); [reflexivity | |].
    + rewrite length_replicate. lia.
    + lia.
Qed.

Lemma entries_without_judgment
    (criteria : list string) (comparisons : gmap string num) (i j : nat) :
  (forall key, truthy_opt (comparisons !! key) = false) ->
  upper_entry criteria comparisons i j = Fin 1 /\
  lower_entry criteria comparisons i j = Fin 1.
Proof.
  intros H. unfold upper_entry, lower_entry. cbv zeta. rewrite !H. split; reflexivity.
Qed.

Lemma buildComparisonMatrix_all_ones
    (criteria : list string) (comparisons : gmap string num) :
  (forall key, truthy_opt (comparisons !! key) = false) ->
  buildComparisonMatrix criteria comparisons
  = replicate (length criteria) (replicate (length criteria) (Fin 1)).
Proof.
  intros H. apply square_constant; [apply buildComparisonMatrix_square |].
  intros i j Hi Hj. destruct (lt_eq_lt_dec i j) as [[Hlt | ->] | Hgt].
  - rewrite buildComparisonMatrix_upper by lia.
    f_equal. apply entries_without_judgment. exact H.
  - apply buildComparisonMatrix_diagonal. exact Hj.
  - rewrite buildComparisonMatrix_lower by lia.
    f_equal. apply entries_without_judgment. exact H.
Qed.

(** X6: without a usable judgment (an empty map, or magnitudes that are all
    0 or [NaN]) the matrix built for [n] criteria is the [n] by [n] matrix
    of ones, whatever the criteria are called. *)
Theorem buildComparisonMatrix_default
    (criteria : list string) (comparisons : gmap string num) :
  (forall key, truthy_opt (comparisons !! key) = false) ->
  buildComparisonMatrix criteria comparisons
  = replicate (length criteria) (replicate (length criteria) (Fin 1)).
Proof. apply buildComparisonMatrix_all_ones. Qed.

Lemma buildComparisonMatrix_default_witness :
  buildComparisonMatrix main_criteria ∅
  = replicate 3 (replicate 3 (Fin 1)).
Proof.
  apply (buildComparisonMatrix_default main_criteria ∅).
  intros key. rewrite lookup_empty. reflexivity.
Defined.

(** X7: of the two directions of a pair [i < j] the one in the order of the
    criteria list wins: a usable judgment [x] under the key of [(i, j)] gives
    [M[i][j] = x] and [M[j][i] = 1 / x] whatever the reverse key holds, and
    the judgment [y] under the reverse key is used, as [M[j][i] = y] and
    [M[i][j] = 1 / y], only when the first key holds nothing usable. *)
Theorem buildComparisonMatrix_precedence
    (criteria : list string) (comparisons : gmap string num) (i j : nat) :
  (i < j < length criteria)%nat ->
  let M := buildComparisonMatrix criteria comparisons in
  let forward := comparisons !! comparison_key criteria i j in
  let backward := comparisons !! comparison_key criteria j i in
  (forall x, forward = Some x -> truthy x = true ->
     matrix_get M i j = Some x /\ matrix_get M j i = Some (Fin 1 / x)%js) /\
  (forall y, truthy_opt forward = false -> backward = Some y -> truthy y = true ->
     matrix_get M j i = Some y /\ matrix_get M i j = Some (Fin 1 / y)%js).
Proof.
  intros Hij M forward backward. subst M forward backward.
  rewrite buildComparisonMatrix_upper, buildComparisonMatrix_lower by exact Hij.
  unfold upper_entry, lower_entry. cbv zeta. split.
  - intros x -> Hx. cbn [truthy_opt to_num]. rewrite Hx. split; reflexivity.
  - intros y -> -> Hy. cbn [truthy_opt to_num]. rewrite Hy. split; reflexivity.
Qed.

Lemma buildComparisonMatrix_precedence_witness :
  (matrix_get (buildComparisonMatrix ["A"; "B"]%string both_directions) 0 1
   = Some (Fin 3) /\
   matrix_get (buildComparisonMatrix ["A"; "B"]%string both_directions) 1 0
   = Some (Fin 1 / Fin 3)%js) /\
  (matrix_get (buildComparisonMatrix ["A"; "B"]%string reverse_only) 1 0
   = Some (Fin 5) /\
   matrix_get (buildComparisonMatrix ["A"; "B"]%string reverse_only) 0 1
   = Some (Fin 1 / Fin 5)%js).
Proof.
  split.
  - destruct (buildComparisonMatrix_precedence ["A"; "B"]%string both_directions 0 1)
      as [H _]; [cbn; lia |].
    apply H; reflexivity.
  - destruct (buildComparisonMatrix_precedence ["A"; "B"]%string reverse_only 0 1)
      as [_ H]; [cbn; lia |].
    apply H; reflexivity.
Defined.

(** ** calculateAHPWeights *)

Section AHPWeights.

Import Re.
Local Open Scope R_scope.

Lemma lookup_assign_eq {A : Type} (object : gmap string A) (key : string) (value : A) :
  key <> "__proto__"%string -> assign object key value !! key = Some value.
Proof.
  intros H. unfold assign.
  destruct (String.eqb_spec key "__proto__") as [E | _]; [contradiction |].
  apply lookup_insert_eq.
Qed.

Lemma lookup_assign_ne {A : Type} (object : gmap string A) (key other : string) (value : A) :
  key <> other -> assign object key value !! other = object !! other.
Proof.
  intros H. unfold assign. destruct (String.eqb key "__proto__"); [reflexivity |].
  apply lookup_insert_ne. exact H.
Qed.

Lemma lookup_assign_proto {A : Type} (object : gmap string A) (key : string) (value : A) :
  assign object key value !! "__proto__"%string = object !! "__proto__"%string.
Proof.
  unfold assign. destruct (String.eqb_spec key "__proto__") as [E | E]; [reflexivity |].
  apply lookup_insert_ne. exact E.
Qed.

(** The weight object holds, for a criterion, the weight of its last
    position in the list. *)
Lemma weights_object_snoc (weightArray : list rnum) (criteria : list string) (c : string) :
  weights_object weightArray (criteria ++ [c])
  = assign (weights_object weightArray criteria) c (weight_at weightArray (length criteria)).
Proof.
  unfold weights_object. rewrite imap_app, foldl_app. cbn.
  rewrite Nat.add_0_r. reflexivity.
Qed.

(** Nothing is ever stored under the name ["__proto__"]. *)
Lemma weights_object_proto (weightArray : list rnum) (criteria : list string) :
  weights_object weightArray criteria !! "__proto__"%string = None.
Proof.
  induction criteria as [| x criteria IH] using rev_ind.
  - apply lookup_empty.
  - rewrite weights_object_snoc, lookup_assign_proto. exact IH.
Qed.

Lemma weights_object_lookup (weightArray : list rnum) (criteria : list string)
    (i : nat) (c : string) :
  c <> "__proto__"%string ->
  criteria !! i = Some c ->
  (forall j, (i < j)%nat -> criteria !! j <> Some c) ->
  weights_object weightArray criteria !! c = Some (weight_at weightArray i).
Proof.
  intros Hproto. revert i.
  induction criteria as [| x criteria IH] using rev_ind; intros i Hi Hlast.
  - discriminate Hi.
  - rewrite weights_object_snoc.
    destruct (decide (x = c)) as [-> | Hne].
    + rewrite lookup_assign_eq by exact Hproto. f_equal. f_equal.
      destruct (decide (i < length criteria)%nat) as [Hlt | Hge].
      * exfalso. apply (Hlast (length criteria) Hlt).
        rewrite lookup_app_r by lia. rewrite Nat.sub_diag. reflexivity.
      * apply lookup_lt_Some in Hi. rewrite length_app in Hi. cbn in Hi. lia.
    + rewrite lookup_assign_ne by exact Hne.
      assert (Hlt : (i < length criteria)%nat).
      { destruct (decide (i < length criteria)%nat) as [Hlt | Hge]; [exact Hlt |].
        rewrite lookup_app_r in Hi by lia.
        destruct (i - length criteria)%nat as [| k]; cbn in Hi;
          [injection Hi as Hi; contradiction | discriminate Hi]. }
      apply IH.
      * rewrite lookup_app_l in Hi by exact Hlt. exact Hi.
      * intros j Hj Hc. apply (Hlast j Hj).
        rewrite lookup_app_l; [exact Hc |]. apply lookup_lt_Some in Hc. exact Hc.
Qed.

Lemma NoDup_last_position (criteria : list string) (i : nat) (c : string) :
  NoDup criteria -> criteria !! i = Some c ->
  forall j, (i < j)%nat -> criteria !! j <> Some c.
Proof.
  intros Hnd Hi j Hj Hc.
  pose proof (NoDup_lookup criteria i j c Hnd Hi Hc). lia.
Qed.

(** A matrix of finite entries, read as real numbers. *)
Lemma to_real_as_numbers (M : list (list num)) :
  Forall (Forall finite) M ->
  map (map to_real) M = as_numbers (map (map real_value) M).
Proof.
  intros H. unfold as_numbers. rewrite map_map.
  apply Forall_fmap_ext_1. eapply Forall_impl; [exact H |].
  intros row Hrow. cbn. rewrite map_map.
  apply Forall_fmap_ext_1. eapply Forall_impl; [exact Hrow |].
  intros a [q ->]. reflexivity.
Qed.

Lemma isConsistent_zero : isConsistent (RFin 0) = true.
Proof.
  unfold isConsistent, rltb. destruct (Rlt_dec 0 0.1); [reflexivity | rlra].
Qed.

Lemma Rsum_replicate (n : nat) (x : R) : Rsum (replicate n x) = INR n * x.
Proof.
  induction n as [| n IH]; [cbn; rlra |].
  cbn [replicate Rsum foldr]. fold (Rsum (replicate n x)).
  rewrite IH, S_INR. ring.
Qed.

Lemma rank_one_ones (n : nat) :
  rank_one (replicate n 1) = replicate n (replicate n 1).
Proof.
  unfold rank_one.
  change (map (fun wi => map (fun wj => wi / wj) (replicate n 1)) (replicate n 1))
    with ((fun wi => (fun wj => wi / wj) <$> replicate n 1) <$> replicate n 1).
  rewrite fmap_replicate, fmap_replicate. do 2 f_equal. field.
Qed.

Lemma normalize_ones (n : nat) :
  (0 < n)%nat -> normalize (replicate n 1) = replicate n (1 / INR n).
Proof.
  intros Hn. unfold normalize. rewrite Rsum_replicate.
  change (map (fun x => x / (INR n * 1)) (replicate n 1))
    with ((fun x => x / (INR n * 1)) <$> replicate n 1).
  rewrite fmap_replicate. f_equal. pose proof (INR_pos n Hn). field. rlra.
Qed.

Lemma weights_rank_one (w : list R) :
  (0 < length w)%nat -> Forall (fun x => 0 < x) w ->
  calculateWeights (as_numbers (rank_one w)) = map RFin (normalize w).
Proof.
  intros Hn Hw.
  rewrite (calculateWeights_geometric (rank_one w));
    [| rewrite length_rank_one; exact Hn | apply rank_one_square
     | apply rank_one_positive; exact Hw].
  rewrite (geometric_mean_weights_rank_one w Hn Hw). reflexivity.
Qed.

(** The result on a matrix that is [rank_one w] once read as reals. *)
Lemma calculateAHPWeights_rank_one
    (criteria : list string) (comparisons : gmap string num) (w : list R) :
  (0 < length w)%nat -> Forall (fun x => 0 < x) w ->
  map (map to_real) (buildComparisonMatrix criteria comparisons)
  = as_numbers (rank_one w) ->
  calculateAHPWeights criteria comparisons
  = mkAHPWeights (weights_object (map RFin (normalize w)) criteria) (RFin 0) true.
Proof.
  intros Hn Hw HM. unfold calculateAHPWeights. cbv zeta.
  rewrite HM, (weights_rank_one w Hn Hw).
  rewrite (calculateConsistencyRatio_rank_one w Hn Hw), isConsistent_zero.
  reflexivity.
Qed.

End AHPWeights.

Section AHPWeightsProperties.

Import Re.
Local Open Scope R_scope.

Lemma Q2R_pos (q : Q) : (0 < q)%Q -> 0 < Q2R q.
Proof.
  intros H. apply Qreals.Qlt_Rlt in H. rewrite RMicromega.Q2R_0 in H. exact H.
Qed.

(** A positive finite magnitude. *)
Lemma positive_entries (criteria : list string) (comparisons : gmap string num) (i j : nat) :
  positive_judgments comparisons ->
  (exists q, upper_entry criteria comparisons i j = Fin q /\ (0 < q)%Q) /\
  (exists q, lower_entry criteria comparisons i j = Fin q /\ (0 < q)%Q).
Proof.
  intros Hpos.
  assert (Hinv : forall q, (0 < q)%Q ->
            exists q', (Fin 1 / Fin q)%js = Fin q' /\ (0 < q')%Q).
  { intros q Hq. exists (1 / q)%Q. split.
    - cbn [div]. replace (Qeq_bool q 0) with false
        by (symmetry; apply Qeq_bool_false_iff; intros E; qlra).
      reflexivity.
    - apply Qlt_shift_div_l; [exact Hq | qlra]. }
  assert (Hone : exists q, Fin 1 = Fin q /\ (0 < q)%Q)
    by (exists 1%Q; split; [reflexivity | qlra]).
  unfold upper_entry, lower_entry. cbv zeta.
  destruct (positive_truthy comparisons (comparison_key criteria i j) Hpos)
    as [[E1 ->] | (q & E1 & Hq & ->)].
  - destruct (positive_truthy comparisons (comparison_key criteria j i) Hpos)
      as [[E2 ->] | (q & E2 & Hq & ->)].
    + split; exact Hone.
    + rewrite E2. cbn [to_num]. split; [apply Hinv; exact Hq | exists q; tauto].
  - rewrite E1. cbn [to_num]. split; [exists q; tauto | apply Hinv; exact Hq].
Qed.

Lemma buildComparisonMatrix_positive
    (criteria : list string) (comparisons : gmap string num) :
  positive_judgments comparisons ->
  Forall (Forall (fun a => exists q, a = Fin q /\ (0 < q)%Q))
    (buildComparisonMatrix criteria comparisons).
Proof.
  intros Hpos.
  destruct (buildComparisonMatrix_square criteria comparisons) as [Hlen Hrows].
  apply Forall_lookup. intros i row Hrow. apply Forall_lookup. intros j a Ha.
  rewrite Forall_lookup in Hrows. pose proof (Hrows i row Hrow) as Hrowlen.
  assert (Hi : (i < length criteria)%nat)
    by (apply lookup_lt_Some in Hrow; lia).
  assert (Hj : (j < length criteria)%nat)
    by (apply lookup_lt_Some in Ha; lia).
  assert (Hget : matrix_get (buildComparisonMatrix criteria comparisons) i j = Some a)
    by (unfold matrix_get; rewrite Hrow; exact Ha).
  destruct (lt_eq_lt_dec i j) as [[Hlt | ->] | Hgt].
  - rewrite buildComparisonMatrix_upper in Hget by lia. injection Hget as <-.
    apply positive_entries. exact Hpos.
  - rewrite buildComparisonMatrix_diagonal in Hget by exact Hj. injection Hget as <-.
    exists 1%Q. split; [reflexivity | qlra].
  - rewrite buildComparisonMatrix_lower in Hget by lia. injection Hget as <-.
    apply positive_entries. exact Hpos.
Qed.

(** With positive judgments the matrix handed to [calculateWeights] is a
    square matrix of positive real numbers. *)
Lemma comparison_matrix_real (criteria : list string) (comparisons : gmap string num) :
  positive_judgments comparisons ->
  let M := map (map real_value) (buildComparisonMatrix criteria comparisons) in
  map (map to_real) (buildComparisonMatrix criteria comparisons) = as_numbers M /\
  length M = length criteria /\
  square (length M) M /\
  positive_matrix M.
Proof.
  intros Hpos M.
  pose proof (buildComparisonMatrix_positive criteria comparisons Hpos) as HP.
  destruct (buildComparisonMatrix_square criteria comparisons) as [Hlen Hrows].
  assert (HlenM : length M = length criteria)
    by (unfold M; rewrite length_map; exact Hlen).
  split; [| split; [exact HlenM | split]].
  - apply to_real_as_numbers. eapply Forall_impl; [exact HP |].
    intros row Hrow. eapply Forall_impl; [exact Hrow |].
    intros a (q & -> & _). exists q. reflexivity.
  - split; [reflexivity |]. rewrite HlenM. unfold M. apply Forall_fmap.
    eapply Forall_impl; [exact Hrows |]. intros row Hrow. cbn.
    rewrite length_map. exact Hrow.
  - unfold positive_matrix, M. apply Forall_fmap.
    eapply Forall_impl; [exact HP |]. intros row Hrow. cbn.
    apply Forall_fmap. eapply Forall_impl; [exact Hrow |].
    intros a (q & -> & Hq). cbn. apply Q2R_pos. exact Hq.
Qed.

Lemma calculateAHPWeights_geometric
    (criteria : list string) (comparisons : gmap string num) :
  (0 < length criteria)%nat -> positive_judgments comparisons ->
  exists v : list R,
    length v = length criteria /\ Forall (fun x => 0 < x) v /\ Rsum v = 1 /\
    calculateWeights (map (map to_real) (buildComparisonMatrix criteria comparisons))
    = map RFin v /\
    ahp_weights (calculateAHPWeights criteria comparisons)
    = weights_object (map RFin v) criteria.
Proof.
  intros Hn Hpos.
  destruct (comparison_matrix_real criteria comparisons Hpos) as (HM & Hlen & Hsq & HP).
  set (M := map (map real_value) (buildComparisonMatrix criteria comparisons)) in *.
  assert (HnM : (0 < length M)%nat) by lia.
  destruct (geometric_mean_weights_normalized M HnM) as (Hl & Hv & Hs).
  exists (geometric_mean_weights M).
  split; [lia |]. split; [exact Hv |]. split; [exact Hs |].
  assert (HW : calculateWeights
                 (map (map to_real) (buildComparisonMatrix criteria comparisons))
               = map RFin (geometric_mean_weights M))
    by (rewrite HM; apply calculateWeights_geometric; assumption).
  split; [exact HW |].
  unfold calculateAHPWeights. cbv zeta. cbn [ahp_weights]. rewrite HW. reflexivity.
Qed.

(** X8: in exact real arithmetic, for a non-empty list of criteria and
    positive judgments the weights computed are positive real numbers that
    sum to 1, one for each position of the list; the object returned holds,
    as its own property, under each criterion other than ["__proto__"] the
    weight of its last position in the list, and nothing under
    ["__proto__"]. *)
Theorem calculateAHPWeights_priorities
    (criteria : list string) (comparisons : gmap string num) :
  (0 < length criteria)%nat -> positive_judgments comparisons ->
  exists v : list R,
    length v = length criteria /\ Forall (fun x => 0 < x) v /\ Rsum v = 1 /\
    calculateWeights (map (map to_real) (buildComparisonMatrix criteria comparisons))
    = map RFin v /\
    (forall i c, criteria !! i = Some c -> c <> "__proto__"%string ->
       (forall j, (i < j)%nat -> criteria !! j <> Some c) ->
       exists x, v !! i = Some x /\
         ahp_weights (calculateAHPWeights criteria comparisons) !! c = Some (RFin x)) /\
    ahp_weights (calculateAHPWeights criteria comparisons) !! "__proto__"%string = None.
Proof.
  intros Hn Hpos.
  destruct (calculateAHPWeights_geometric criteria comparisons Hn Hpos)
    as (v & Hlen & Hv & Hs & HW & HO).
  exists v. repeat (split; [assumption |]). split.
  - intros i c Hi Hproto Hlast.
    destruct (lookup_lt_is_Some_2 v i) as [x Hx];
      [apply lookup_lt_Some in Hi; lia |].
    exists x. split; [exact Hx |].
    rewrite HO, (weights_object_lookup _ criteria i c Hproto Hi Hlast).
    unfold weight_at. rewrite list_lookup_fmap, Hx. reflexivity.
  - rewrite HO. apply weights_object_proto.
Qed.

Lemma calculateAHPWeights_priorities_witness :
  exists v : list R,
    length v = 3%nat /\ Forall (fun x => 0 < x) v /\ Rsum v = 1 /\
    calculateWeights
      (map (map to_real) (buildComparisonMatrix main_criteria initial_comparisons))
    = map RFin v /\
    (forall i c, main_criteria !! i = Some c -> c <> "__proto__"%string ->
       (forall j, (i < j)%nat -> main_criteria !! j <> Some c) ->
       exists x, v !! i = Some x /\
         ahp_weights (calculateAHPWeights main_criteria initial_comparisons) !! c
         = Some (RFin x)) /\
    ahp_weights (calculateAHPWeights main_criteria initial_comparisons)
      !! "__proto__"%string = None.
Proof.
  apply (calculateAHPWeights_priorities main_criteria initial_comparisons).
  - cbn. lia.
  - exact initial_comparisons_positive.
Defined.

Lemma map_replicate {A B : Type} (f : A -> B) (n : nat) (x : A) :
  map f (replicate n x) = replicate n (f x).
Proof. induction n as [| n IH]; [reflexivity | cbn; rewrite IH; reflexivity]. Qed.

Lemma ones_rank_one (n : nat) :
  map (map to_real) (replicate n (replicate n (Fin 1)))
  = as_numbers (rank_one (replicate n 1)).
Proof.
  rewrite rank_one_ones. unfold as_numbers. rewrite !map_replicate.
  cbn [to_real]. rewrite RMicromega.Q2R_1. reflexivity.
Qed.

Lemma weights_object_member (weightArray : list rnum) (criteria : list string) (c : string) :
  c <> "__proto__"%string -> c ∈ criteria ->
  exists i, (i < length criteria)%nat /\
    weights_object weightArray criteria !! c = Some (weight_at weightArray i).
Proof.
  intros Hproto.
  induction criteria as [| x criteria IH] using rev_ind; intros Hc.
  - apply elem_of_nil in Hc. contradiction.
  - rewrite weights_object_snoc, length_app. cbn [length].
    destruct (decide (x = c)) as [-> | Hne].
    + exists (length criteria). split; [lia |]. apply lookup_assign_eq. exact Hproto.
    + rewrite lookup_assign_ne by exact Hne.
      apply elem_of_app in Hc as [Hc | Hc].
      * destruct (IH Hc) as (i & Hi & Hw). exists i. split; [lia | exact Hw].
      * apply list_elem_of_singleton in Hc. congruence.
Qed.

Lemma weights_object_domain (weightArray : list rnum) (criteria : list string) (c : string) :
  c ∉ criteria -> weights_object weightArray criteria !! c = None.
Proof.
  induction criteria as [| x criteria IH] using rev_ind; intros Hc.
  - apply lookup_empty.
  - rewrite weights_object_snoc.
    rewrite not_elem_of_app, list_elem_of_singleton in Hc. destruct Hc as [Hc Hx].
    rewrite lookup_assign_ne by congruence. apply IH. exact Hc.
Qed.

(** X9: in exact real arithmetic, without a usable judgment (an empty map,
    or magnitudes that are all 0 or [NaN]) every criterion of a non-empty
    list other than ["__proto__"] gets the weight [1 / n] as its own
    property of the object returned, a name that is not a criterion and the
    name ["__proto__"] get none, the consistency ratio is 0 and the
    judgments count as consistent. *)
Theorem calculateAHPWeights_equal_weights
    (criteria : list string) (comparisons : gmap string num) :
  (0 < length criteria)%nat ->
  (forall key, truthy_opt (comparisons !! key) = false) ->
  let result := calculateAHPWeights criteria comparisons in
  (forall c, c ∈ criteria -> c <> "__proto__"%string ->
     ahp_weights result !! c = Some (RFin (1 / INR (length criteria)))) /\
  (forall c, c ∉ criteria \/ c = "__proto__"%string -> ahp_weights result !! c = None) /\
  ahp_consistencyRatio result = RFin 0 /\
  ahp_isConsistent result = true.
Proof.
  intros Hn Hnone result. set (n := length criteria) in *.
  assert (Hw : Forall (fun x => 0 < x) (replicate n 1))
    by (apply Forall_replicate; rlra).
  assert (Hl : (0 < length (replicate n 1%R))%nat)
    by (rewrite length_replicate; exact Hn).
  assert (HR : result
               = mkAHPWeights (weights_object (map RFin (normalize (replicate n 1))) criteria)
                   (RFin 0) true).
  { apply calculateAHPWeights_rank_one; [exact Hl | exact Hw |].
    rewrite (buildComparisonMatrix_all_ones criteria comparisons Hnone).
    apply ones_rank_one. }
  rewrite HR. cbn [ahp_weights ahp_consistencyRatio ahp_isConsistent].
  split; [| split; [| split; reflexivity]].
  - intros c Hc Hproto.
    destruct (weights_object_member (map RFin (normalize (replicate n 1))) criteria c
                Hproto Hc) as (i & Hi & ->).
    f_equal. unfold weight_at. rewrite (normalize_ones n Hn), list_lookup_fmap.
    rewrite (lookup_replicate_2 n _ i Hi). reflexivity.
  - intros c [Hc | ->]; [apply weights_object_domain; exact Hc |].
    apply weights_object_proto.
Qed.

Lemma calculateAHPWeights_equal_weights_witness :
  let result := calculateAHPWeights main_criteria ∅ in
  (forall c, c ∈ main_criteria -> c <> "__proto__"%string ->
     ahp_weights result !! c = Some (RFin (1 / INR (length main_criteria)))) /\
  (forall c, c ∉ main_criteria \/ c = "__proto__"%string ->
     ahp_weights result !! c = None) /\
  ahp_consistencyRatio result = RFin 0 /\
  ahp_isConsistent result = true.
Proof.
  apply (calculateAHPWeights_equal_weights main_criteria ∅).
  - cbn. lia.
  - intros key. rewrite lookup_empty. reflexivity.
Defined.

Lemma two_criteria_matrix (a b : string) (comparisons : gmap string num) (x : Q) :
  (0 < x)%Q ->
  comparisons !! (a +:+ "-" +:+ b)%string = Some (Fin x) ->
  map (map to_real) (buildComparisonMatrix [a; b] comparisons)
  = as_numbers (rank_one [Q2R x; 1]).
Proof.
  intros Hx H. pose proof (Q2R_pos x Hx) as HR.
  assert (Ht : truthy (Fin x) = true).
  { cbn. apply negb_true_iff, Qeq_bool_false_iff. intros E. qlra. }
  unfold buildComparisonMatrix, inner_loop. cbn [length seq Nat.add Nat.sub foldl].
  unfold compare_pair, comparison_key. cbv zeta.
  change (criterion_at [a; b] 0) with a. change (criterion_at [a; b] 1) with b.
  rewrite H. cbn [truthy_opt to_num]. rewrite Ht.
  cbn [div]. replace (Qeq_bool x 0) with false
    by (symmetry; apply Qeq_bool_false_iff; intros E; qlra).
  cbn. unfold as_numbers, rank_one. cbn.
  rewrite Qreals.Q2R_div by (intros E; qlra).
  rewrite RMicromega.Q2R_1.
  repeat f_equal; field; rlra.
Qed.

(** X10: in exact real arithmetic, for two distinct criteria [a] and [b],
    neither of them named ["__proto__"], and a positive judgment [x] under
    the key of [a] over [b], the weights are [x / (x + 1)] for [a] and
    [1 / (x + 1)] for [b], the consistency ratio is 0 and the judgments
    count as consistent. *)
Theorem calculateAHPWeights_two_criteria
    (a b : string) (comparisons : gmap string num) (x : Q) :
  a <> b -> a <> "__proto__"%string -> b <> "__proto__"%string -> (0 < x)%Q ->
  comparisons !! (a +:+ "-" +:+ b)%string = Some (Fin x) ->
  let result := calculateAHPWeights [a; b] comparisons in
  ahp_weights result !! a = Some (RFin (Q2R x / (Q2R x + 1))) /\
  ahp_weights result !! b = Some (RFin (1 / (Q2R x + 1))) /\
  ahp_consistencyRatio result = RFin 0 /\
  ahp_isConsistent result = true.
Proof.
  intros Hab Pa Pb Hx H result. pose proof (Q2R_pos x Hx) as HR.
  assert (Hres : result
                 = mkAHPWeights (weights_object (map RFin (normalize [Q2R x; 1])) [a; b])
                     (RFin 0) true).
  { apply calculateAHPWeights_rank_one.
    - cbn. lia.
    - repeat constructor; rlra.
    - apply (two_criteria_matrix a b comparisons x Hx H). }
  rewrite Hres. cbn [ahp_weights ahp_consistencyRatio ahp_isConsistent].
  split; [| split; [| split; reflexivity]].
  - rewrite (weights_object_lookup _ [a; b] 0 a Pa eq_refl).
    + unfold weight_at, normalize, Rsum. cbn. do 2 f_equal. field. rlra.
    + intros [| [| j]] Hj; cbn; [lia | congruence | discriminate].
  - rewrite (weights_object_lookup _ [a; b] 1 b Pb eq_refl).
    + unfold weight_at, normalize, Rsum. cbn. do 2 f_equal. field. rlra.
    + intros [| [| j]] Hj; cbn; [lia | lia | discriminate].
Qed.

Lemma calculateAHPWeights_two_criteria_witness :
  let result := calculateAHPWeights ["Comfort"; "Health"]%string comfort_over_health in
  ahp_weights result !! "Comfort"%string = Some (RFin (Q2R 3 / (Q2R 3 + 1))) /\
  ahp_weights result !! "Health"%string = Some (RFin (1 / (Q2R 3 + 1))) /\
  ahp_consistencyRatio result = RFin 0 /\
  ahp_isConsistent result = true.
Proof.
  apply (calculateAHPWeights_two_criteria "Comfort" "Health" comfort_over_health 3).
  - discriminate.
  - discriminate.
  - discriminate.
  - reflexivity.
  - reflexivity.
Defined.

End AHPWeightsProperties.

(** ** calculateLambdaMax and calculateConsistencyRatio *)

Section Consistency.

Import Re.
Local Open Scope R_scope.

Lemma Rsum_map_plus {A : Type} (f g : A -> R) (l : list A) :
  Rsum (map (fun x => f x + g x) l) = Rsum (map f l) + Rsum (map g l).
Proof.
  induction l as [| x l IH]; cbn [map Rsum foldr]; [rlra |].
  fold (Rsum (map (fun x => f x + g x) l)). fold (Rsum (map f l)). fold (Rsum (map g l)).
  rewrite IH. ring.
Qed.

Lemma Rsum_map_le {A : Type} (f g : A -> R) (l : list A) :
  (forall x, In x l -> f x <= g x) -> Rsum (map f l) <= Rsum (map g l).
Proof.
  induction l as [| x l IH]; intros H; cbn [map Rsum foldr]; [rlra |].
  fold (Rsum (map f l)). fold (Rsum (map g l)).
  pose proof (H x (or_introl eq_refl)).
  assert (Rsum (map f l) <= Rsum (map g l))
    by (apply IH; intros y Hy; apply H; right; exact Hy).
  rlra.
Qed.

Lemma Rsum_map_ext {A : Type} (f g : A -> R) (l : list A) :
  (forall x, In x l -> f x = g x) -> Rsum (map f l) = Rsum (map g l).
Proof.
  intros H. f_equal. apply map_ext_in. exact H.
Qed.

(** The two orders of a double sum. *)
Lemma Rsum_swap {A B : Type} (F : A -> B -> R) (l1 : list A) (l2 : list B) :
  Rsum (map (fun i => Rsum (map (F i) l2)) l1)
  = Rsum (map (fun j => Rsum (map (fun i => F i j) l1)) l2).
Proof.
  induction l1 as [| a l1 IH].
  - rewrite (Rsum_map_ext (fun j => Rsum (map (fun i => F i j) [])) (fun _ => 0) l2)
      by (intros; reflexivity).
    rewrite Rsum_const. cbn. ring.
  - cbn [map Rsum foldr]. fold (Rsum (map (fun i => Rsum (map (F i) l2)) l1)).
    rewrite IH.
    rewrite <- (Rsum_map_plus (F a) (fun j => Rsum (map (fun i => F i j) l1)) l2).
    reflexivity.
Qed.

Lemma reciprocal_sum (s t : R) : 0 < s -> 0 < t -> s * t = 1 -> 2 <= s + t.
Proof.
  intros Hs Ht H. pose proof (pow2_ge_0 (s - t)) as Hsq.
  assert (H4 : 4 <= (s + t) * (s + t))
    by (replace ((s + t) * (s + t)) with ((s - t) ^ 2 + 4 * (s * t)) by ring;
        rewrite H; rlra).
  destruct (Rle_lt_dec 2 (s + t)) as [Hle | Hlt]; [exact Hle | exfalso].
  assert (Hp : 0 < s + t) by rlra.
  assert ((s + t) * (s + t) < 2 * 2)
    by (apply Rmult_le_0_lt_compat; rlra).
  rlra.
Qed.

(** A family of positive numbers with [F i j * F j i = 1] sums to at least
    the square of the number of indices. *)
Lemma reciprocal_pairs (F : nat -> nat -> R) (l : list nat) :
  (forall i j, In i l -> In j l -> 0 < F i j /\ F i j * F j i = 1) ->
  INR (length l) * INR (length l) <= Rsum (map (fun i => Rsum (map (F i) l)) l).
Proof.
  intros H. set (S := Rsum (map (fun i => Rsum (map (F i) l)) l)).
  assert (Hswap : S = Rsum (map (fun i => Rsum (map (fun j => F j i) l)) l))
    by (unfold S; apply Rsum_swap).
  assert (Hsum : S + S
                 = Rsum (map (fun i => Rsum (map (fun j => F i j + F j i) l)) l)).
  { rewrite Hswap at 2. unfold S.
    rewrite <- (Rsum_map_plus (fun i => Rsum (map (F i) l))
                  (fun i => Rsum (map (fun j => F j i) l)) l).
    apply Rsum_map_ext. intros i _.
    symmetry. apply (Rsum_map_plus (F i) (fun j => F j i) l). }
  assert (Hlow : Rsum (map (fun i : nat => Rsum (map (fun _ : nat => 2) l)) l)
                 <= S + S).
  { rewrite Hsum. apply Rsum_map_le. intros i Hi. apply Rsum_map_le. intros j Hj.
    destruct (H i j Hi Hj) as [Hij Hone]. destruct (H j i Hj Hi) as [Hji _].
    apply reciprocal_sum; assumption. }
  rewrite (Rsum_map_ext (fun _ : nat => Rsum (map (fun _ : nat => 2) l))
             (fun _ => INR (length l) * 2) l) in Hlow
    by (intros i _; apply Rsum_const).
  rewrite Rsum_const in Hlow. rlra.
Qed.

Lemma sum_loop_index (term : nat -> rnum) (f : nat -> R) (n : nat) (a : R) :
  (forall j, (j < n)%nat -> term j = RFin (f j)) ->
  foldl (fun acc j => radd acc (term j)) (RFin a) (seq 0 n)
  = RFin (a + Rsum (map f (seq 0 n))).
Proof.
  intros H. pose proof (sum_loop term (map f (seq 0 n)) 0 a) as Hloop.
  rewrite length_map, length_seq in Hloop. apply Hloop.
  intros j x Hj. cbn [Nat.add]. rewrite list_lookup_fmap in Hj.
  destruct (seq 0 n !! j) as [k |] eqn:E; [| discriminate Hj].
  apply lookup_seq in E as [-> Hlt]. cbn in Hj. injection Hj as <-.
  apply H. exact Hlt.
Qed.

Section Estimate.

Variable M : list (list R).
Variable v : list R.
Let n := length M.

Hypothesis size : (0 < n)%nat.
Hypothesis rows : square n M.
Hypothesis entries : positive_matrix M.
Hypothesis weights_length : length v = n.
Hypothesis weights_positive : Forall (fun x => 0 < x) v.

Lemma real_entry_get (i j : nat) :
  (i < n)%nat -> (j < n)%nat ->
  matrix_get M i j = Some (real_entry M i j) /\ 0 < real_entry M i j /\
  entry (as_numbers M) i j = RFin (real_entry M i j).
Proof.
  intros Hi Hj. destruct (square_get n M i j rows Hi Hj) as [a Ha].
  unfold real_entry. rewrite Ha. cbn [default]. split; [reflexivity |].
  unfold matrix_get in Ha. destruct (M !! i) as [row |] eqn:Hrow; [| discriminate Ha].
  cbn in Ha. split.
  - unfold positive_matrix in entries. rewrite Forall_lookup in entries.
    pose proof (entries i row Hrow) as Hp. rewrite Forall_lookup in Hp.
    exact (Hp j a Ha).
  - apply (entry_as_numbers M row i j a Hrow Ha).
Qed.

Lemma real_weight_get (j : nat) :
  (j < n)%nat ->
  0 < real_weight v j /\ weight_at (map RFin v) j = RFin (real_weight v j).
Proof.
  intros Hj. destruct (lookup_lt_is_Some_2 v j) as [x Hx]; [lia |].
  unfold real_weight. rewrite Hx. cbn [default]. split.
  - rewrite Forall_lookup in weights_positive. exact (weights_positive j x Hx).
  - apply weight_at_real. exact Hx.
Qed.

(** On finite positive entries and weights the loops compute the estimate. *)
Lemma calculateLambdaMax_estimate :
  calculateLambdaMax (as_numbers M) (map RFin v) = RFin (lambda_estimate M v).
Proof.
  unfold calculateLambdaMax, lambda_estimate. cbv zeta.
  replace (length (as_numbers M)) with n
    by (unfold as_numbers; rewrite length_map; reflexivity).
  fold n.
  set (row_sum := fun i =>
         Rsum (map (fun j => real_entry M i j * real_weight v j) (seq 0 n))).
  assert (Hsums :
    map (fun i =>
           foldl (fun acc j =>
                    radd acc (rmul (entry (as_numbers M) i j)
                                (weight_at (map RFin v) j)))
             (RFin 0) (seq 0 n))
        (seq 0 n)
    = map (fun i => RFin (row_sum i)) (seq 0 n)).
  { apply map_ext_in. intros i Hi. apply in_seq in Hi.
    rewrite (sum_loop_index _ (fun j => real_entry M i j * real_weight v j) n 0).
    - f_equal. unfold row_sum. ring.
    - intros j Hj. destruct (real_entry_get i j) as (_ & _ & ->); [lia | exact Hj |].
      destruct (real_weight_get j Hj) as [_ ->]. reflexivity. }
  rewrite Hsums.
  rewrite (sum_loop_index _ (fun i => row_sum i / real_weight v i) n 0).
  - cbn [rdiv]. destruct (Req_dec_T (INR n) 0) as [E | _].
    + pose proof (INR_pos n size). rlra.
    + f_equal. rewrite Rplus_0_l. reflexivity.
  - intros i Hi. destruct (real_weight_get i Hi) as [Hpos ->].
    unfold weight_at. rewrite list_lookup_fmap, (lookup_seq_lt 0 n i Hi).
    change (rdiv (RFin (row_sum i)) (RFin (real_weight v i))
            = RFin (row_sum i / real_weight v i)).
    cbn [rdiv]. destruct (Req_dec_T (real_weight v i) 0); [rlra | reflexivity].
Qed.

Hypothesis reciprocal : reciprocal_matrix M.

(** The estimate is at least the size of the matrix. *)
Lemma lambda_estimate_lower : INR n <= lambda_estimate M v.
Proof.
  pose proof (INR_pos n size) as HN. unfold lambda_estimate. cbv zeta. fold n.
  set (F := fun i j => real_entry M i j * real_weight v j / real_weight v i).
  assert (HS :
    Rsum (map (fun i =>
                 Rsum (map (fun j => real_entry M i j * real_weight v j) (seq 0 n))
                 / real_weight v i) (seq 0 n))
    = Rsum (map (fun i => Rsum (map (F i) (seq 0 n))) (seq 0 n))).
  { apply Rsum_map_ext. intros i _. unfold Rdiv at 1.
    rewrite <- (Rsum_scale (/ real_weight v i)), map_map. reflexivity. }
  rewrite HS.
  pose proof (reciprocal_pairs F (seq 0 n)) as Hlow.
  rewrite length_seq in Hlow.
  assert (Hsq : INR n * INR n <= Rsum (map (fun i => Rsum (map (F i) (seq 0 n))) (seq 0 n))).
  { apply Hlow. intros i j Hi Hj. apply in_seq in Hi, Hj.
    destruct (real_entry_get i j) as (Hij & Hpij & _); [lia | lia |].
    destruct (real_entry_get j i) as (Hji & Hpji & _); [lia | lia |].
    destruct (real_weight_get i) as [Hwi _]; [lia |].
    destruct (real_weight_get j) as [Hwj _]; [lia |].
    pose proof (reciprocal i j _ _ Hij Hji) as Hone. unfold F. split.
    - apply Rdiv_lt_0_compat; [apply Rmult_lt_0_compat |]; assumption.
    - transitivity (real_entry M i j * real_entry M j i); [field; split; rlra | exact Hone]. }
  apply (Rmult_le_reg_r (INR n)); [exact HN |].
  unfold Rdiv. rewrite Rmult_assoc, Rinv_l by rlra. rlra.
Qed.

End Estimate.

Lemma RANDOM_INDEX_positive (n : nat) :
  0 < match RANDOM_INDEX n with
      | Some r => if Req_dec_T r 0 then 1.49 else r
      | None => 1.49
      end.
Proof.
  do 11 (destruct n as [| n]; [cbn [RANDOM_INDEX];
         try match goal with |- context [Req_dec_T ?a 0] => destruct (Req_dec_T a 0) end;
         rlra |]).
  cbn [RANDOM_INDEX]. rlra.
Qed.

(** On a positive reciprocal matrix and positive weights the consistency
    ratio is a finite number that is not negative. *)
Lemma calculateConsistencyRatio_nonneg (M : list (list R)) (v : list R) :
  square (length M) M -> positive_matrix M -> reciprocal_matrix M ->
  length v = length M -> Forall (fun x => 0 < x) v ->
  exists c, calculateConsistencyRatio (as_numbers M) (map RFin v) = RFin c /\ 0 <= c.
Proof.
  intros Hsq Hpos Hrec Hlen Hv. unfold calculateConsistencyRatio. cbv zeta.
  replace (length (as_numbers M)) with (length M)
    by (unfold as_numbers; rewrite length_map; reflexivity).
  destruct (length M <? 3)%nat eqn:E; [exists 0; split; [reflexivity | rlra] |].
  apply Nat.ltb_ge in E.
  assert (Hn : (0 < length M)%nat) by lia.
  rewrite (calculateLambdaMax_estimate M v Hn Hsq Hpos Hlen Hv).
  pose proof (lambda_estimate_lower M v Hn Hsq Hpos Hlen Hv Hrec) as HL.
  pose proof (RANDOM_INDEX_positive (length M)) as HRI.
  set (RI := match RANDOM_INDEX (length M) with
             | Some r => if Req_dec_T r 0 then 1.49 else r
             | None => 1.49
             end) in *.
  set (L := lambda_estimate M v) in *.
  assert (H3 : 3 <= INR (length M))
    by (pose proof (le_INR 3 _ E) as H; cbn in H; rlra).
  unfold calculateCI. cbn [rsub rneg radd rdiv].
  match goal with
  | |- context [Req_dec_T ?a 0] => destruct (Req_dec_T a 0) as [Ha | Ha]; [rlra |]
  end.
  cbn [rdiv]. destruct (Req_dec_T RI 0); [rlra |].
  eexists. split; [reflexivity |].
  apply Rmult_le_pos; [apply Rmult_le_pos |].
  - rlra.
  - apply Rlt_le, Rinv_0_lt_compat. rlra.
  - apply Rlt_le, Rinv_0_lt_compat. exact HRI.
Qed.

Lemma Q2R_reciprocal (a b : Q) :
  (Fin a * Fin b === Fin 1)%js = true -> Q2R a * Q2R b = 1.
Proof.
  cbn [mul strict_eq]. intros H. apply Qeq_bool_iff, Qreals.Qeq_eqR in H.
  rewrite Qreals.Q2R_mult, RMicromega.Q2R_1 in H. exact H.
Qed.

Lemma comparison_matrix_reciprocal
    (criteria : list string) (comparisons : gmap string num) :
  positive_judgments comparisons ->
  reciprocal_matrix (map (map real_value) (buildComparisonMatrix criteria comparisons)).
Proof.
  intros Hpos i j a b Ha Hb.
  set (B := buildComparisonMatrix criteria comparisons) in *.
  assert (Hget : forall i j x,
            matrix_get (map (map real_value) B) i j = Some x ->
            exists y, matrix_get B i j = Some y /\ x = real_value y /\
                      (i < length criteria)%nat /\ (j < length criteria)%nat).
  { clear. intros i j x H. unfold matrix_get in *. rewrite list_lookup_fmap in H.
    destruct (buildComparisonMatrix_square criteria comparisons) as [Hlen Hrows].
    fold B in Hlen, Hrows.
    destruct (B !! i) as [row |] eqn:Hrow; [| discriminate H].
    cbn in H. rewrite list_lookup_fmap in H.
    destruct (row !! j) as [y |] eqn:Hy; [| discriminate H].
    cbn in H. injection H as <-. exists y. cbn. split; [exact Hy |]. split; [reflexivity |].
    rewrite Forall_lookup in Hrows. pose proof (Hrows i row Hrow).
    apply lookup_lt_Some in Hrow, Hy. lia. }
  destruct (Hget i j a Ha) as (x & Hx & -> & Hi & Hj).
  destruct (Hget j i b Hb) as (y & Hy & -> & _ & _).
  clear Hget Ha Hb. unfold B in *.
  destruct (lt_eq_lt_dec i j) as [[Hlt | ->] | Hgt].
  - rewrite buildComparisonMatrix_upper in Hx by lia.
    rewrite buildComparisonMatrix_lower in Hy by lia.
    injection Hx as <-. injection Hy as <-.
    destruct (positive_entries criteria comparisons i j Hpos) as [(p & Ep & _) (q & Eq & _)].
    destruct (pair_reciprocal criteria comparisons i j Hpos) as [H _].
    rewrite Ep, Eq in *. cbn [real_value]. apply Q2R_reciprocal. exact H.
  - rewrite buildComparisonMatrix_diagonal in Hx by exact Hj.
    rewrite buildComparisonMatrix_diagonal in Hy by exact Hj.
    injection Hx as <-. injection Hy as <-. cbn [real_value].
    rewrite RMicromega.Q2R_1. ring.
  - rewrite buildComparisonMatrix_lower in Hx by lia.
    rewrite buildComparisonMatrix_upper in Hy by lia.
    injection Hx as <-. injection Hy as <-.
    destruct (positive_entries criteria comparisons j i Hpos) as [(p & Ep & _) (q & Eq & _)].
    destruct (pair_reciprocal criteria comparisons j i Hpos) as [_ H].
    rewrite Ep, Eq in *. cbn [real_value]. apply Q2R_reciprocal. exact H.
Qed.

(** X11: for positive judgments the estimate of the dominant eigenvalue that
    [calculateLambdaMax] computes from the matrix built and the weights
    derived from it is a finite number, at least the number of criteria,
    and the consistency ratio returned is a finite number that is not
    negative. *)
Theorem calculateAHPWeights_ratio_nonneg
    (criteria : list string) (comparisons : gmap string num) :
  (0 < length criteria)%nat -> positive_judgments comparisons ->
  let matrix := map (map to_real) (buildComparisonMatrix criteria comparisons) in
  (exists l, calculateLambdaMax matrix (calculateWeights matrix) = RFin l /\
             INR (length criteria) <= l) /\
  (exists c, ahp_consistencyRatio (calculateAHPWeights criteria comparisons) = RFin c /\
             0 <= c).
Proof.
  intros Hn Hpos matrix.
  destruct (comparison_matrix_real criteria comparisons Hpos) as (HM & Hlen & Hsq & HP).
  pose proof (comparison_matrix_reciprocal criteria comparisons Hpos) as Hrec.
  destruct (calculateAHPWeights_geometric criteria comparisons Hn Hpos)
    as (v & Hlv & Hv & _ & HW & _).
  set (M := map (map real_value) (buildComparisonMatrix criteria comparisons)) in *.
  assert (HnM : (0 < length M)%nat) by lia.
  assert (HlvM : length v = length M) by lia.
  split.
  - exists (lambda_estimate M v). subst matrix. rewrite HW, HM. split.
    + apply calculateLambdaMax_estimate; assumption.
    + rewrite <- Hlen. apply lambda_estimate_lower; assumption.
  - unfold calculateAHPWeights. cbv zeta. cbn [ahp_consistencyRatio].
    rewrite HW, HM. apply calculateConsistencyRatio_nonneg; assumption.
Qed.

Lemma calculateAHPWeights_ratio_nonneg_witness :
  let matrix :=
    map (map to_real) (buildComparisonMatrix main_criteria initial_comparisons) in
  (exists l, calculateLambdaMax matrix (calculateWeights matrix) = RFin l /\
             INR (length main_criteria) <= l) /\
  (exists c, ahp_consistencyRatio (calculateAHPWeights main_criteria initial_comparisons)
             = RFin c /\ 0 <= c).
Proof.
  apply (calculateAHPWeights_ratio_nonneg main_criteria initial_comparisons).
  - cbn. lia.
  - exact initial_comparisons_positive.
Defined.

End Consistency.

(** ** transformPreferencesToBackendFormat: the Saaty scale of a weight *)

Lemma Qabs_spec (t : Q) :
  (0 <= t /\ Qabs t == t)%Q \/ (t <= 0 /\ Qabs t == - t)%Q.
Proof.
  destruct (Qlt_le_dec t 0) as [H | H].
  - right. split; [qlra | apply Qabs_neg; qlra].
  - left. split; [exact H | apply Qabs_pos; exact H].
Qed.

Lemma nearer_Fin (s p c : Q) :
  nearer (Fin s) (Fin p) (Fin c)
  = if Qlt_le_dec (Qabs (c + - s)) (Qabs (p + - s)) then Fin c else Fin p.
Proof.
  unfold nearer. cbn [sub neg add Math_abs].
  destruct (Qlt_le_dec (Qabs (c + - s)) (Qabs (p + - s))) as [H | H].
  - apply ltb_Fin in H. rewrite H. reflexivity.
  - apply ltb_Fin_false in H. rewrite H. reflexivity.
Qed.

Ltac step_nearer :=
  match goal with
  | |- context [nearer (Fin ?s) (Fin ?p) (Fin ?c)] =>
      rewrite (nearer_Fin s p c);
      destruct (Qlt_le_dec (Qabs (c + - s)) (Qabs (p + - s)))
  end.

Ltac elim_Qabs :=
  repeat match goal with
  | H : context [Qabs ?t] |- _ =>
      let a := fresh "a" in
      destruct (Qabs_spec t) as [[? ?] | [? ?]];
      set (a := Qabs t) in *; clearbody a
  end.

Ltac saaty_cases :=
  unfold toSaatyScale; cbv zeta; cbn [saatyValues foldl add mul];
  repeat step_nearer; try reflexivity; exfalso; elim_Qabs; qlra.

(** The value returned, by the thresholds of the weight. *)
Lemma toSaatyScale_thresholds (w : Q) :
  ((w <= 1 # 8)%Q -> toSaatyScale (Fin w) = Fin 1) /\
  ((1 # 8 < w)%Q -> (w <= 3 # 8)%Q -> toSaatyScale (Fin w) = Fin 3) /\
  ((3 # 8 < w)%Q -> (w <= 5 # 8)%Q -> toSaatyScale (Fin w) = Fin 5) /\
  ((5 # 8 < w)%Q -> (w <= 7 # 8)%Q -> toSaatyScale (Fin w) = Fin 7) /\
  ((7 # 8 < w)%Q -> toSaatyScale (Fin w) = Fin 9).
Proof.
  repeat split; intros; saaty_cases.
Qed.

Ltac elim_Qabs_goal :=
  repeat match goal with
  | |- context [Qabs ?t] =>
      let a := fresh "a" in
      destruct (Qabs_spec t) as [[? ?] | [? ?]];
      set (a := Qabs t) in *; clearbody a
  end.

Lemma saatyValues_In (s : Q) :
  In (Fin s) saatyValues -> s = 1%Q \/ s = 3%Q \/ s = 5%Q \/ s = 7%Q \/ s = 9%Q.
Proof.
  unfold saatyValues. cbn [In]. intros H.
  repeat (destruct H as [H | H]; [injection H as <-; tauto |]). contradiction.
Qed.

Lemma toSaatyScale_region (w : Q) :
  ((w <= 1 # 8)%Q /\ toSaatyScale (Fin w) = Fin 1) \/
  ((1 # 8 < w)%Q /\ (w <= 3 # 8)%Q /\ toSaatyScale (Fin w) = Fin 3) \/
  ((3 # 8 < w)%Q /\ (w <= 5 # 8)%Q /\ toSaatyScale (Fin w) = Fin 5) \/
  ((5 # 8 < w)%Q /\ (w <= 7 # 8)%Q /\ toSaatyScale (Fin w) = Fin 7) \/
  ((7 # 8 < w)%Q /\ toSaatyScale (Fin w) = Fin 9).
Proof.
  destruct (toSaatyScale_thresholds w) as (H1 & H3 & H5 & H7 & H9).
  destruct (Qlt_le_dec (1 # 8) w) as [L1 | L1]; [| left; auto].
  destruct (Qlt_le_dec (3 # 8) w) as [L3 | L3]; [| right; left; auto].
  destruct (Qlt_le_dec (5 # 8) w) as [L5 | L5]; [| right; right; left; auto].
  destruct (Qlt_le_dec (7 # 8) w) as [L7 | L7]; [| right; right; right; left; auto].
  right; right; right; right; auto.
Qed.

Lemma toSaatyScale_special (a : num) :
  (forall q, a <> Fin q) -> toSaatyScale a = Fin 1.
Proof.
  intros H. destruct a as [q | | |]; [destruct (H q eq_refl) | | |]; reflexivity.
Qed.

(** X12: in exact arithmetic (no rounding of [1 + 8 w], no overflow), for
    a finite weight [w] the value returned is one of 1, 3, 5, 7 and 9, none
    of these is nearer to [1 + 8 w], and of two that are equally near the
    smaller one is returned; a weight that is [NaN] or infinite gives 1. *)
Theorem toSaatyScale_nearest :
  (forall w : Q, exists r,
     toSaatyScale (Fin w) = Fin r /\ In (Fin r) saatyValues /\
     forall s, In (Fin s) saatyValues ->
       (Qabs (r - (1 + w * 8)) <= Qabs (s - (1 + w * 8)))%Q /\
       (Qabs (s - (1 + w * 8)) == Qabs (r - (1 + w * 8)) -> r <= s)%Q) /\
  (forall a, (forall q, a <> Fin q) -> toSaatyScale a = Fin 1).
Proof.
  split; [| exact toSaatyScale_special].
  intros w.
  destruct (toSaatyScale_region w)
    as [[L H] | [(L & U & H) | [(L & U & H) | [(L & U & H) | [L H]]]]];
    [exists 1%Q | exists 3%Q | exists 5%Q | exists 7%Q | exists 9%Q];
    (split; [exact H |]); (split; [unfold saatyValues; cbn [In]; tauto |]);
    intros s Hs;
    destruct (saatyValues_In s Hs) as [-> | [-> | [-> | [-> | ->]]]];
    (split; [| intros E]); elim_Qabs; elim_Qabs_goal; qlra.
Qed.

(** ** transformPreferencesToBackendFormat: the criteria weights *)

Lemma or_else_unit (a : option num) (b : num) :
  (forall x, a = Some x -> in_unit_interval x) -> in_unit_interval b ->
  in_unit_interval (or_else a b).
Proof.
  intros Ha Hb. unfold or_else.
  destruct a as [x |]; cbn [truthy_opt to_num]; [| exact Hb].
  destruct (truthy x); [apply Ha; reflexivity | exact Hb].
Qed.

(** A group weight read from weights in [0, 1]. *)
Lemma group_weight_unit (weights : gmap string num) (upper lower : string) (d : Q) :
  (forall key x, weights !! key = Some x -> in_unit_interval x) ->
  (0 <= d)%Q -> (d <= 1)%Q ->
  exists q, or_else (weights !! upper) (or_else (weights !! lower) (Fin d)) = Fin q /\
            (0 <= q)%Q /\ (q <= 1)%Q.
Proof.
  intros H H0 H1. apply unit_interval_Fin.
  apply or_else_unit; [intros x; apply H |].
  apply or_else_unit; [intros x; apply H |].
  apply Fin_unit_interval; assumption.
Qed.

Lemma toSaatyScale_up_to_3 (w : Q) :
  (w <= 3 # 8)%Q -> In (toSaatyScale (Fin w)) [Fin 1; Fin 3].
Proof.
  intros Hw. cbn [In].
  destruct (toSaatyScale_region w)
    as [[L H] | [(L & U & H) | [(L & U & H) | [(L & U & H) | [L H]]]]];
    rewrite ?H; auto; exfalso; qlra.
Qed.

Lemma toSaatyScale_up_to_5 (w : Q) :
  (w <= 5 # 8)%Q -> In (toSaatyScale (Fin w)) [Fin 1; Fin 3; Fin 5].
Proof.
  intros Hw. cbn [In].
  destruct (toSaatyScale_region w)
    as [[L H] | [(L & U & H) | [(L & U & H) | [(L & U & H) | [L H]]]]];
    rewrite ?H; auto; exfalso; qlra.
Qed.

Lemma toSaatyScale_values (w : Q) : In (toSaatyScale (Fin w)) saatyValues.
Proof.
  unfold saatyValues. cbn [In].
  destruct (toSaatyScale_region w)
    as [[L H] | [(L & U & H) | [(L & U & H) | [(L & U & H) | [L H]]]]];
    rewrite H; tauto.
Qed.

(** X13: for weights in [0, 1] (absent ones falling back to 0.40, 0.35 and
    0.25) the request never rates temperature, humidity or sound above 3,
    nor facilities or availability above 5; only co2 can reach 7 or 9. *)
Theorem criteria_weights_bounds (weights : gmap string num) :
  (forall key x, weights !! key = Some x -> in_unit_interval x) ->
  let request := criteria_weights weights in
  In (cw_temperature request) [Fin 1; Fin 3] /\
  In (cw_humidity request) [Fin 1; Fin 3] /\
  In (cw_sound request) [Fin 1; Fin 3] /\
  In (cw_co2 request) saatyValues /\
  In (cw_facilities request) [Fin 1; Fin 3; Fin 5] /\
  In (cw_availability request) [Fin 1; Fin 3; Fin 5].
Proof.
  intros H request. unfold request, criteria_weights. cbv zeta.
  cbn [cw_temperature cw_humidity cw_sound cw_co2 cw_facilities cw_availability].
  destruct (group_weight_unit weights "Comfort" "comfort" 0.40 H) as (c & -> & C0 & C1);
    [qlra | qlra |].
  destruct (group_weight_unit weights "Health" "health" 0.35 H) as (h & -> & H0 & H1);
    [qlra | qlra |].
  destruct (group_weight_unit weights "Usability" "usability" 0.25 H) as (u & -> & U0 & U1);
    [qlra | qlra |].
  cbn [mul].
  repeat split.
  - apply toSaatyScale_up_to_3. qlra.
  - apply toSaatyScale_up_to_3. qlra.
  - apply toSaatyScale_up_to_3. qlra.
  - apply toSaatyScale_values.
  - apply toSaatyScale_up_to_5. qlra.
  - apply toSaatyScale_up_to_5. qlra.
Qed.

Lemma comfort_first_unit (key : string) (x : num) :
  comfort_first !! key = Some x -> in_unit_interval x.
Proof.
  unfold comfort_first. intros H.
  repeat (apply lookup_insert_Some in H as [[_ <-] | [_ H]];
          [split; reflexivity |]).
  rewrite lookup_empty in H. discriminate H.
Defined.

Lemma criteria_weights_bounds_witness :
  let request := criteria_weights comfort_first in
  In (cw_temperature request) [Fin 1; Fin 3] /\
  In (cw_humidity request) [Fin 1; Fin 3] /\
  In (cw_sound request) [Fin 1; Fin 3] /\
  In (cw_co2 request) saatyValues /\
  In (cw_facilities request) [Fin 1; Fin 3; Fin 5] /\
  In (cw_availability request) [Fin 1; Fin 3; Fin 5].
Proof.
  apply (criteria_weights_bounds comfort_first). exact comfort_first_unit.
Defined.

Lemma or_else_falsy (a b : option num) (d : num) :
  truthy_opt a = false -> truthy_opt b = false -> or_else a (or_else b d) = d.
Proof. intros Ha Hb. unfold or_else. rewrite Ha, Hb. reflexivity. Qed.

(** X14: a group weight that is absent, 0 or [NaN] under both spellings of its
    key is replaced by the default (0.40, 0.35, 0.25), so a weight of 0 is
    sent as the default and not as the lowest rating: temperature 3 with
    humidity and sound 1, co2 3, facilities 3 with availability 1. *)
Theorem criteria_weights_falsy (weights : gmap string num) :
  let request := criteria_weights weights in
  (truthy_opt (weights !! "Comfort"%string) = false ->
   truthy_opt (weights !! "comfort"%string) = false ->
   cw_temperature request = Fin 3 /\ cw_humidity request = Fin 1 /\
   cw_sound request = Fin 1) /\
  (truthy_opt (weights !! "Health"%string) = false ->
   truthy_opt (weights !! "health"%string) = false ->
   cw_co2 request = Fin 3) /\
  (truthy_opt (weights !! "Usability"%string) = false ->
   truthy_opt (weights !! "usability"%string) = false ->
   cw_facilities request = Fin 3 /\ cw_availability request = Fin 1).
Proof.
  intros request. unfold request, criteria_weights. cbv zeta.
  cbn [cw_temperature cw_humidity cw_sound cw_co2 cw_facilities cw_availability].
  split; [| split]; intros Ha Hb; rewrite (or_else_falsy _ _ _ Ha Hb);
    repeat split; reflexivity.
Qed.

Lemma criteria_weights_falsy_witness :
  criteria_weights zero_weights
  = mkCriteriaWeights (Fin 3) (Fin 1) (Fin 1) (Fin 3) (Fin 3) (Fin 1).
Proof.
  destruct (criteria_weights_falsy zero_weights) as (HC & HH & HU).
  destruct (HC eq_refl eq_refl) as (Ht & Hh & Hs).
  pose proof (HH eq_refl eq_refl) as Hc.
  destruct (HU eq_refl eq_refl) as (Hf & Ha).
  destruct (criteria_weights zero_weights) as [t h s c f a]. cbn in *.
  congruence.
Defined.

(** ** transformBackendResponseToFrontend: the category scores *)

Section CategoryScores.

Variable criteria_scores : CriteriaScores.

Hypothesis scores_unit :
  forall key x, criteria_scores !! key = Some (Some x) -> in_unit_interval x.

Lemma score_value_unit (key : string) (x : num) :
  score_value criteria_scores key = Some x -> in_unit_interval x.
Proof.
  unfold score_value. intros H.
  destruct (criteria_scores !! key) as [[y |] |] eqn:E; try discriminate H.
  injection H as <-. exact (scores_unit key y E).
Qed.

Lemma pickScore_unit (candidates : list string) (fallback : num) :
  in_unit_interval fallback ->
  in_unit_interval (pickScore criteria_scores candidates fallback).
Proof.
  intros Hf. induction candidates as [| key rest IH]; cbn [pickScore]; [exact Hf |].
  destruct (score_value criteria_scores key) as [x |] eqn:E; [| exact IH].
  exact (score_value_unit key x E).
Qed.

Lemma sum_of_scores (values : list num) (a : Q) :
  Forall in_unit_interval values ->
  exists t, foldl add (Fin a) values = Fin t /\
            (a <= t)%Q /\ (t <= a + inject_Z (Z.of_nat (length values)))%Q.
Proof.
  intros H. revert a. induction H as [| x values Hx _ IH]; intros a.
  - exists a. split; [reflexivity |]. cbn [length].
    change (inject_Z (Z.of_nat 0)) with 0%Q. split; qlra.
  - destruct (unit_interval_Fin x Hx) as (q & -> & H0 & H1).
    cbn [foldl add]. destruct (IH (a + q)%Q) as (t & -> & S0 & S1).
    exists t. split; [reflexivity |].
    cbn [length]. rewrite Nat2Z.inj_succ, <- Z.add_1_r, inject_Z_plus.
    change (inject_Z 1) with 1%Q. split; qlra.
Qed.

Lemma averageScores_unit (candidates : list string) (x : num) :
  averageScores criteria_scores candidates = Some x -> in_unit_interval x.
Proof.
  unfold averageScores. cbv zeta.
  set (values := omap (score_value criteria_scores) candidates).
  destruct (length values =? 0)%nat eqn:E; [discriminate |].
  apply Nat.eqb_neq in E. intros H. injection H as <-.
  assert (Hv : Forall in_unit_interval values).
  { apply Forall_forall. intros y Hy. apply list_elem_of_omap in Hy as (key & _ & Hkey).
    exact (score_value_unit key y Hkey). }
  destruct (sum_of_scores values 0 Hv) as (s & -> & S0 & S1).
  rewrite Qplus_0_l in S1.
  unfold length_number. set (n := inject_Z (Z.of_nat (length values))) in *.
  assert (Hn : (0 < n)%Q).
  { unfold n. change 0%Q with (inject_Z 0). rewrite <- Zlt_Qlt. lia. }
  cbn [div]. replace (Qeq_bool n 0) with false
    by (symmetry; apply Qeq_bool_false_iff; intros E'; qlra).
  apply Fin_unit_interval.
  - apply Qdiv_nonneg; [qlra | exact Hn].
  - apply Qle_shift_div_r; [exact Hn | qlra].
Qed.

Lemma mean_unit (total : num) (k : Q) (n : Q) :
  (0 < n)%Q ->
  (exists s, total = Fin s /\ (0 <= s)%Q /\ (s <= n)%Q) ->
  in_unit_interval (total / Fin n)%js.
Proof.
  intros Hn (s & -> & S0 & S1). cbn [div].
  replace (Qeq_bool n 0) with false
    by (symmetry; apply Qeq_bool_false_iff; intros E'; qlra).
  apply Fin_unit_interval.
  - apply Qdiv_nonneg; assumption.
  - apply Qle_shift_div_r; [exact Hn | qlra].
Qed.

Lemma categoryScores_unit :
  in_unit_interval (category_comfort (categoryScores criteria_scores)) /\
  in_unit_interval (category_health (categoryScores criteria_scores)) /\
  in_unit_interval (category_usability (categoryScores criteria_scores)).
Proof.
  assert (H08 : in_unit_interval (Fin 0.8%Q)) by (split; reflexivity).
  assert (H1 : in_unit_interval (Fin 1)) by (split; reflexivity).
  unfold categoryScores. cbv zeta.
  cbn [category_comfort category_health category_usability].
  split; [| split].
  - destruct (unit_interval_Fin _ (pickScore_unit ["temperature"; "Temperature"]%string _ H08))
      as (t & -> & ? & ?).
    destruct (unit_interval_Fin _ (pickScore_unit ["humidity"; "Humidity"]%string _ H08))
      as (h & -> & ? & ?).
    destruct (unit_interval_Fin _ (pickScore_unit ["sound"; "Noise"]%string _ H08))
      as (s & -> & ? & ?).
    destruct (unit_interval_Fin _ (pickScore_unit ["lighting"; "Lighting"]%string _ H08))
      as (l & -> & ? & ?).
    apply (mean_unit _ 0 4); [reflexivity |].
    eexists. split; [reflexivity | split; qlra].
  - destruct (unit_interval_Fin _ (pickScore_unit ["co2"; "CO2"]%string _ H08))
      as (c & -> & ? & ?).
    destruct (unit_interval_Fin _ (pickScore_unit ["voc"; "VOC"]%string _ H08))
      as (v & -> & ? & ?).
    apply (mean_unit _ 0 2); [reflexivity |].
    eexists. split; [reflexivity | split; qlra].
  - set (sub := averageScores criteria_scores _).
    assert (Hsub : in_unit_interval (default (Fin 0.8%Q) sub)).
    { destruct sub as [x |] eqn:E; [| exact H08].
      exact (averageScores_unit _ x E). }
    destruct (unit_interval_Fin _ (pickScore_unit ["facilities"; "Facilities"]%string _ Hsub))
      as (f & -> & ? & ?).
    destruct (unit_interval_Fin _ (pickScore_unit ["availability"; "Availability"]%string _ H1))
      as (a & -> & ? & ?).
    apply (mean_unit _ 0 2); [reflexivity |].
    eexists. split; [reflexivity | split; qlra].
Qed.

End CategoryScores.

Lemma pickScore_missing (criteria_scores : CriteriaScores)
    (candidates : list string) (fallback : num) :
  (forall key, score_value criteria_scores key = None) ->
  pickScore criteria_scores candidates fallback = fallback.
Proof.
  intros H. induction candidates as [| key rest IH]; cbn [pickScore]; [reflexivity |].
  rewrite H. exact IH.
Qed.

Lemma averageScores_missing (criteria_scores : CriteriaScores) (candidates : list string) :
  (forall key, score_value criteria_scores key = None) ->
  averageScores criteria_scores candidates = None.
Proof.
  intros H. unfold averageScores. cbv zeta.
  replace (omap (score_value criteria_scores) candidates) with (@nil num); [reflexivity |].
  induction candidates as [| key rest IH]; [reflexivity |].
  cbn [omap list_omap]. rewrite H. exact IH.
Qed.

(** X15: when every score the backend sends for a room lies in [0, 1], the
    comfort, health and usability scores derived for it lie in [0, 1],
    whichever criteria are missing or [null]; with no score at all they are
    0.8, 0.8 and 0.9. *)
Theorem categoryScores_bounded (criteria_scores : CriteriaScores) :
  (forall key x, criteria_scores !! key = Some (Some x) -> in_unit_interval x) ->
  let scores := categoryScores criteria_scores in
  in_unit_interval (category_comfort scores) /\
  in_unit_interval (category_health scores) /\
  in_unit_interval (category_usability scores) /\
  ((forall key, score_value criteria_scores key = None) ->
   (category_comfort scores === Fin 0.8%Q)%js = true /\
   (category_health scores === Fin 0.8%Q)%js = true /\
   (category_usability scores === Fin 0.9%Q)%js = true).
Proof.
  intros H scores.
  destruct (categoryScores_unit criteria_scores H) as (Hc & Hh & Hu).
  repeat (split; [assumption |]).
  intros Hnone. unfold scores, categoryScores. cbv zeta.
  cbn [category_comfort category_health category_usability].
  rewrite !(pickScore_missing criteria_scores _ _ Hnone).
  rewrite (averageScores_missing criteria_scores _ Hnone).
  repeat split; reflexivity.
Qed.

Lemma partial_scores_unit (key : string) (x : num) :
  partial_scores !! key = Some (Some x) -> in_unit_interval x.
Proof.
  unfold partial_scores. intros H.
  repeat (apply lookup_insert_Some in H as [[_ H] | [_ H]];
          [first [discriminate H | injection H as <-; split; reflexivity] |]).
  exact (False_ind _ (lookup_empty_Some (M:=gmap string) key (Some x) H)).
Defined.

Lemma categoryScores_bounded_witness :
  in_unit_interval (category_comfort (categoryScores partial_scores)) /\
  in_unit_interval (category_health (categoryScores partial_scores)) /\
  in_unit_interval (category_usability (categoryScores partial_scores)).
Proof.
  destruct (categoryScores_bounded partial_scores partial_scores_unit)
    as (Hc & Hh & Hu & _).
  repeat split; assumption.
Defined.

(** ** euStandards.js: getDefaultProfile, isOptimal and getCategory *)

(** The table of the scoring functions is the [min] and [max] of this
    table. *)
Lemma standards_table_ranges :
  map (fun entry => (entry.1, mkRange (st_min entry.2) (st_max entry.2))) standards_table
  = [ ("temperature", std_temperature EU_STANDARDS);
      ("co2", std_co2 EU_STANDARDS);
      ("humidity", std_humidity EU_STANDARDS);
      ("noise", std_noise EU_STANDARDS);
      ("light", std_light EU_STANDARDS);
      ("voc", std_voc EU_STANDARDS);
      ("airQuality", std_airQuality EU_STANDARDS);
      ("pm25", std_pm25 EU_STANDARDS);
      ("pm10", std_pm10 EU_STANDARDS) ]%string.
Proof. reflexivity. Qed.

Lemma inherited_In (key : string) : inherited key = true <-> In key Object_prototype.
Proof.
  unfold inherited. rewrite existsb_exists. split.
  - intros (x & Hx & E). apply String.eqb_eq in E. subst x. exact Hx.
  - intros H. exists key. split; [exact H | apply String.eqb_refl].
Qed.

Lemma not_inherited (key : string) : ~ In key Object_prototype -> inherited key = false.
Proof.
  intros H. apply not_true_is_false. rewrite inherited_In. exact H.
Qed.

Lemma property_own {A : Type} (object : list (string * A)) (key : string) (value : A) :
  own_property object key = Some value -> property object key = Own value.
Proof. intros H. unfold property. rewrite H. reflexivity. Qed.

Lemma temperature_default (season : string) (standard : Standard) :
  own_property standards_table "temperature" = Some standard ->
  default_range season "temperature" standard = default_temperature season.
Proof.
  intros H. injection H as <-.
  unfold default_range, default_temperature, season_data, property.
  cbn [String.eqb Ascii.eqb Bool.eqb st_seasons own_property].
  destruct (String.eqb_spec season "winter") as [-> | Hw]; [reflexivity |].
  destruct (String.eqb_spec season "summer") as [-> | Hs]; [reflexivity |].
  destruct (inherited season); reflexivity.
Qed.

(** The profile of a season, property by property. *)
Lemma getDefaultProfile_object (season : option string) :
  profile_of_object (getDefaultProfile season)
  = mkProfile
      (Some (default_temperature (default "winter"%string season)))
      (Some (mkRange (Fin 40) (Fin 60)))
      (Some (mkRange (Fin 30) (Fin 35)))
      (Some (mkRange (Fin 300) (Fin 500)))
      (Some (mkRange (Fin 400) (Fin 800)))
      (Some (mkRange (Fin 0) (Fin 200)))
      (Some (mkRange (Fin 0) (Fin 15)))
      (Some (mkRange (Fin 0) (Fin 45))).
Proof.
  unfold getDefaultProfile. cbv zeta. set (s := default "winter"%string season).
  unfold standards_table. cbn [foldl fst snd].
  rewrite (temperature_default s _ eq_refl).
  reflexivity.
Qed.

Lemma default_temperature_plain (season : option string) :
  season <> Some "summer"%string ->
  (forall s, season = Some s -> ~ In s Object_prototype) ->
  default_temperature (default "winter"%string season) = mkRange (Fin 20) (Fin 24).
Proof.
  intros Hs Hp. destruct season as [s |]; [| reflexivity].
  change (default "winter"%string (Some s)) with s. unfold default_temperature.
  destruct (String.eqb_spec s "summer") as [-> | _]; [contradiction |].
  rewrite (not_inherited s (Hp s eq_refl)). reflexivity.
Qed.

Lemma default_temperature_inherited (s : string) :
  In s Object_prototype -> default_temperature s = mkRange NaN NaN.
Proof.
  intros H. unfold Object_prototype in H. cbn [In] in H.
  repeat (destruct H as [<- | H]; [reflexivity |]). contradiction.
Qed.

(** A season argument that is not the name of an inherited member leaves a
    profile inside the absolute ranges. *)
Lemma getDefaultProfile_within (season : option string) :
  (forall s, season = Some s -> ~ In s Object_prototype) ->
  profile_within (profile_of_object (getDefaultProfile season)).
Proof.
  intros Hp. rewrite getDefaultProfile_object. unfold profile_within.
  cbn [profile_temperature profile_humidity profile_noise profile_light profile_co2
       profile_voc profile_pm25 profile_pm10 preferred_within].
  assert (Ht : default_temperature (default "winter"%string season) = mkRange (Fin 23) (Fin 26)
               \/ default_temperature (default "winter"%string season)
                  = mkRange (Fin 20) (Fin 24)).
  { destruct season as [s |]; [| right; reflexivity].
    change (default "winter"%string (Some s)) with s. unfold default_temperature.
    destruct (String.eqb s "summer"); [left; reflexivity |].
    rewrite (not_inherited s (Hp s eq_refl)). right. reflexivity. }
  destruct Ht as [-> | ->];
    repeat split;
    (do 4 eexists; split; [reflexivity |]; split; [reflexivity |];
     split; vm_compute; discriminate).
Qed.

(** A preferred range without bounds gives every reading the score [NaN]. *)
Lemma scoreCriterion_unbounded (v absMin absMax : num) :
  scoreCriterion (Some v) NaN NaN absMin absMax = NaN.
Proof. destruct v, absMax; reflexivity. Qed.

(** X16: scoring a room with the default profile of a season gives the health
    score the scoring functions give without any profile, and, unless the
    season is summer or names a member every object inherits, the same
    comfort score: the fallback ranges of the scoring functions are the
    winter defaults.  For a season that names an inherited member, such as
    ["toString"], the temperature range of the profile has neither bound
    and the comfort score of a room with a temperature reading is [NaN]. *)
Theorem getDefaultProfile_scores (season : option string) (room : Room) :
  let profile := profile_of_object (getDefaultProfile season) in
  calculateHealthScore room profile = calculateHealthScore room empty_profile /\
  (season <> Some "summer"%string ->
   (forall s, season = Some s -> ~ In s Object_prototype) ->
   calculateComfortScore room profile = calculateComfortScore room empty_profile) /\
  (forall s, season = Some s -> In s Object_prototype ->
   profile_temperature profile = Some (mkRange NaN NaN) /\
   (temperature room <> None -> calculateComfortScore room profile = NaN)).
Proof.
  intros profile. split; [| split].
  - unfold profile. rewrite getDefaultProfile_object. reflexivity.
  - intros Hs Hp. unfold profile.
    rewrite getDefaultProfile_object, (default_temperature_plain season Hs Hp).
    reflexivity.
  - intros s -> Hs. unfold profile. rewrite getDefaultProfile_object.
    change (default "winter"%string (Some s)) with s. rewrite (default_temperature_inherited s Hs).
    split; [reflexivity |]. intros Ht.
    destruct (temperature room) as [v |] eqn:E; [| contradiction].
    unfold calculateComfortScore, tempScore. cbv zeta.
    cbn [profile_temperature or_default range_min range_max].
    rewrite E, scoreCriterion_unbounded. reflexivity.
Qed.

Lemma getDefaultProfile_scores_witness :
  calculateComfortScore measured_room (profile_of_object (getDefaultProfile None))
  = calculateComfortScore measured_room empty_profile /\
  calculateComfortScore measured_room
    (profile_of_object (getDefaultProfile (Some "toString"%string))) = NaN.
Proof.
  split.
  - destruct (getDefaultProfile_scores None measured_room) as (_ & Hc & _).
    apply Hc; [discriminate | intros s Hs; discriminate Hs].
  - destruct (getDefaultProfile_scores (Some "toString"%string) measured_room)
      as (_ & _ & Hn).
    destruct (Hn "toString"%string eq_refl) as [_ H].
    + unfold Object_prototype. cbn [In]. tauto.
    + apply H. discriminate.
Defined.

Ltac decide_comparisons :=
  unfold gtb, geb in *;
  repeat match goal with
  | |- context [ltb (Fin ?a) (Fin ?b)] =>
      let L := fresh "L" in
      destruct (Qlt_le_dec a b) as [L | L];
      [rewrite (proj2 (ltb_Fin a b) L) in * | rewrite (proj2 (ltb_Fin_false a b) L) in *]
  | H : context [ltb (Fin ?a) (Fin ?b)] |- _ =>
      let L := fresh "L" in
      destruct (Qlt_le_dec a b) as [L | L];
      [rewrite (proj2 (ltb_Fin a b) L) in * | rewrite (proj2 (ltb_Fin_false a b) L) in *]
  | |- context [leb (Fin ?a) (Fin ?b)] =>
      let L := fresh "L" in
      destruct (Qlt_le_dec b a) as [L | L];
      [rewrite (proj2 (leb_Fin_false a b) L) in * | rewrite (proj2 (leb_Fin a b) L) in *]
  | H : context [leb (Fin ?a) (Fin ?b)] |- _ =>
      let L := fresh "L" in
      destruct (Qlt_le_dec b a) as [L | L];
      [rewrite (proj2 (leb_Fin_false a b) L) in * | rewrite (proj2 (leb_Fin a b) L) in *]
  end.

(** Case analysis on the criterion, entry by entry of the table. *)
Ltac by_criterion criterion :=
  unfold isOptimal, getCategory, property, standards_table; cbn [own_property];
  repeat match goal with
  | |- context [String.eqb criterion ?k] =>
      destruct (String.eqb criterion k) eqn:?
  end.

Lemma optimal_category (criterion : string) (q : Q) :
  inherited criterion = false ->
  isOptimal criterion (Fin q) = true ->
  getCategory criterion (Fin q) = Returns "excellent"%string \/
  getCategory criterion (Fin q) = Returns "good"%string.
Proof.
  intros Hi. by_criterion criterion; rewrite ?Hi;
    cbn [optimalMin optimalMax categories excellent good acceptable];
    unfold in_category, band, band_up_to, in_band; cbn [band_min band_max];
    intros H; try discriminate H;
    decide_comparisons; cbn [andb] in *; try discriminate H;
    first [left; reflexivity | right; reflexivity | exfalso; qlra].
Qed.

Lemma optimal_infinite (criterion : string) (value : num) :
  inherited criterion = false ->
  value = PInf \/ value = NInf -> isOptimal criterion value = false.
Proof.
  intros Hi [-> | ->]; by_criterion criterion; rewrite ?Hi; reflexivity.
Qed.

Lemma own_not_inherited (criterion : string) (standard : Standard) :
  own_property standards_table criterion = Some standard -> inherited criterion = false.
Proof.
  unfold standards_table. cbn [own_property].
  repeat match goal with
         | |- context [String.eqb criterion ?k] =>
             destruct (String.eqb_spec criterion k) as [-> | ?]; [reflexivity |]
         end.
  discriminate.
Qed.

Lemma property_cases (criterion : string) :
  (exists standard, own_property standards_table criterion = Some standard /\
                    property standards_table criterion = Own standard) \/
  (own_property standards_table criterion = None /\ In criterion Object_prototype /\
   property standards_table criterion = Inherited) \/
  (own_property standards_table criterion = None /\ ~ In criterion Object_prototype /\
   property standards_table criterion = Undefined).
Proof.
  unfold property.
  destruct (own_property standards_table criterion) as [standard |] eqn:E.
  - left. exists standard. split; reflexivity.
  - right. destruct (inherited criterion) eqn:Hi.
    + left. rewrite <- inherited_In. repeat split; assumption.
    + right. rewrite <- inherited_In, Hi. repeat split. discriminate.
Qed.

Lemma known_criterion_NaN (criterion : string) (standard : Standard) :
  own_property standards_table criterion = Some standard ->
  isOptimal criterion NaN = true /\ getCategory criterion NaN = Returns "poor"%string.
Proof.
  by_criterion criterion; intros H; try (split; reflexivity). discriminate H.
Qed.

(** X17: for a criterion of the table, a number that [isOptimal] accepts is
    rated excellent or good by [getCategory], while [NaN] is accepted
    although its category is poor.  For the name of a member every object
    inherits, such as ["toString"], [isOptimal] accepts every value and
    [getCategory] raises a [TypeError].  For any other name the answers
    are [false] and unknown. *)
Theorem isOptimal_category (criterion : string) :
  (In criterion (map fst standards_table) ->
   (forall value, value <> NaN -> isOptimal criterion value = true ->
      getCategory criterion value = Returns "excellent"%string \/
      getCategory criterion value = Returns "good"%string) /\
   isOptimal criterion NaN = true /\
   getCategory criterion NaN = Returns "poor"%string) /\
  (In criterion Object_prototype ->
   forall value, isOptimal criterion value = true /\
                 getCategory criterion value = Throws "TypeError") /\
  (~ In criterion (map fst standards_table) -> ~ In criterion Object_prototype ->
   forall value, isOptimal criterion value = false /\
                 getCategory criterion value = Returns "unknown"%string).
Proof.
  split; [| split].
  - intros Hin.
    assert (Hown : exists standard, own_property standards_table criterion = Some standard).
    { unfold standards_table in *. cbn [map fst In own_property] in *.
      repeat (destruct Hin as [<- | Hin]; [eexists; reflexivity |]). contradiction. }
    destruct Hown as [standard Hown].
    pose proof (own_not_inherited criterion standard Hown) as Hi.
    split; [| exact (known_criterion_NaN criterion standard Hown)].
    intros [q | | |] Hn H.
    + apply optimal_category; assumption.
    + rewrite optimal_infinite in H by tauto. discriminate H.
    + rewrite optimal_infinite in H by tauto. discriminate H.
    + contradiction.
  - intros Hin value. unfold Object_prototype in Hin. cbn [In] in Hin.
    repeat (destruct Hin as [<- | Hin]; [split; reflexivity |]). contradiction.
  - intros Hown Hin value.
    destruct (property_cases criterion) as [(standard & E & _) | [(_ & H & _) | (_ & _ & E)]].
    + exfalso. apply Hown. revert E. unfold standards_table. cbn [map fst In own_property].
      repeat match goal with
             | |- context [String.eqb criterion ?k] =>
                 destruct (String.eqb_spec criterion k) as [-> | ?]; [intros _; tauto |]
             end.
      discriminate.
    + contradiction.
    + unfold isOptimal, getCategory. rewrite E. split; reflexivity.
Qed.

Lemma isOptimal_category_witness :
  (getCategory "co2" (Fin 700) = Returns "excellent"%string \/
   getCategory "co2" (Fin 700) = Returns "good"%string) /\
  getCategory "toString" (Fin 700) = Throws "TypeError" /\
  getCategory "ozone" (Fin 700) = Returns "unknown"%string.
Proof.
  destruct (isOptimal_category "co2") as (H & _ & _).
  destruct (isOptimal_category "toString") as (_ & Hi & _).
  destruct (isOptimal_category "ozone") as (_ & _ & Hu).
  split; [| split].
  - apply H; [cbn; tauto | discriminate | reflexivity].
  - apply Hi. unfold Object_prototype. cbn [In]. tauto.
  - apply Hu.
    + cbn. intros H'. repeat (destruct H' as [H' | H']; [discriminate H' |]). exact H'.
    + unfold Object_prototype. cbn [In]. intros H'.
      repeat (destruct H' as [H' | H']; [discriminate H' |]). exact H'.
Defined.

(** ** useRoomRanking: evaluateRooms *)

Lemma errorMessage_not_empty (err : Thrown) : errorMessage err <> ""%string.
Proof.
  unfold errorMessage. cbv zeta.
  destruct (err_response err) as [response |].
  - repeat match goal with
           | |- context [(status response =? ?k)%nat] =>
               destruct (status response =? k)%nat; [discriminate |]
           end.
    destruct (data_message response) as [message |]; [| discriminate].
    unfold truthy_string.
    destruct (String.eqb_spec message "") as [E | E]; [discriminate | exact E].
  - destruct (err_request err); [discriminate |].
    unfold truthy_string.
    destruct (String.eqb_spec (err_message err) "") as [E | E]; [discriminate | exact E].
Qed.

Lemma errorMessage_new_Error (message : string) :
  message <> ""%string -> errorMessage (new_Error message) = message.
Proof.
  intros H. unfold errorMessage, new_Error, truthy_string. cbn.
  destruct (String.eqb_spec message "") as [E | _]; [contradiction | reflexivity].
Qed.

(** X18: whatever the client does, the call leaves [loading] false; when it
    returns, the result has at least one ranking, is stored as the rankings
    and the error is cleared; when it throws, the message is not empty, is
    stored as the error, and the rankings of an earlier call are kept. *)
Theorem useRoomRanking_evaluateRooms_state
    (api : Preferences -> outcome (option Evaluation))
    (preferences : option Preferences) (state : HookState) :
  let after := useRoomRanking_evaluateRooms api preferences state in
  loading after.1 = false /\
  (forall result, after.2 = Resolved result ->
     rankings result <> [] /\ hook_rankings after.1 = Some result /\
     error after.1 = None) /\
  (forall err, after.2 = Rejected err ->
     err_message err <> ""%string /\ error after.1 = Some (err_message err) /\
     hook_rankings after.1 = hook_rankings state).
Proof.
  intros after. unfold after, useRoomRanking_evaluateRooms. cbv zeta.
  destruct (try_evaluateRooms api preferences) as [result | err] eqn:E;
    cbn [fst snd loading hook_rankings error].
  - split; [reflexivity |]. split; [| intros err H; discriminate H].
    intros r H. injection H as <-. split; [| split; reflexivity].
    unfold try_evaluateRooms in E.
    destruct preferences as [p |]; [| discriminate E].
    destruct (api p) as [[r |] | err]; try discriminate E.
    destruct (length (rankings r) =? 0)%nat eqn:L; [discriminate E |].
    injection E as <-. apply Nat.eqb_neq in L. intros H. rewrite H in L. apply L. reflexivity.
  - split; [reflexivity |]. split; [intros r H; discriminate H |].
    intros e H. injection H as <-. cbn [new_Error err_message].
    split; [apply errorMessage_not_empty | split; reflexivity].
Qed.

(** X19: with the mock in use the call fails in two cases only: without
    preferences ('Preferences are required') and when there is no room at
    all ('No rooms match your criteria'); otherwise it returns the
    evaluation of the mock, whatever the facility requirements are. *)
Theorem useRoomRanking_with_mock
    (roomsData : list Room) (preferences : option Preferences) (state : HookState) :
  (useRoomRanking_evaluateRooms (mock_evaluateRooms roomsData) preferences state).2
  = match preferences with
    | None => Rejected (new_Error "Preferences are required")
    | Some preferences =>
        match roomsData with
        | [] => Rejected (new_Error "No rooms match your criteria")
        | _ :: _ => Resolved (evaluateRooms roomsData preferences)
        end
    end.
Proof.
  unfold useRoomRanking_evaluateRooms, try_evaluateRooms, mock_evaluateRooms. cbv zeta.
  destruct preferences as [p |].
  - rewrite length_rankings. destruct roomsData as [| room rest]; reflexivity.
  - reflexivity.
Qed.

(** ** Rooms that meet the preferences, and readings of 0 *)

Lemma scoreCriterion_preferred (reading : option num) (user absolute : Range) :
  inside reading user ->
  scoreCriterion reading (range_min user) (range_max user)
    (range_min absolute) (range_max absolute) = Fin 1.
Proof.
  intros (v & -> & H1 & H2). apply scoreCriterion_inside; assumption.
Qed.

Lemma score_or_default_preferred (reading : option num) (user absolute : Range) :
  inside_nonzero reading user -> score_or_default reading user absolute = Fin 1.
Proof.
  intros [H Ht]. unfold score_or_default. rewrite Ht.
  apply scoreCriterion_preferred. exact H.
Qed.

Lemma score_or_default_falsy (reading : option num) (user absolute : Range) :
  truthy_opt reading = false -> score_or_default reading user absolute = Fin 0.8%Q.
Proof. intros H. unfold score_or_default. rewrite H. reflexivity. Qed.

(** X20: in exact arithmetic, a room whose every reading lies inside its
    preferred range (for noise, light, air quality, VOC, PM2.5 and PM10:
    and is not 0) gets the comfort score 1 and the health score 1.  (Every
    leaf score of such a room is exactly 1; in doubles their weighted sum
    is just above 1 for the health score, see [weighted_health_rounded].) *)
Theorem preferred_room_full_scores (room : Room) (profile : Profile) :
  inside (temperature room) (preferred_temperature profile) ->
  inside (humidity room) (preferred_humidity profile) ->
  inside_nonzero (noise room) (preferred_noise profile) ->
  inside_nonzero (light room) (preferred_light profile) ->
  inside (co2 room) (preferred_co2 profile) ->
  inside_nonzero (air_quality room) preferred_air_quality ->
  inside_nonzero (voc room) (preferred_voc profile) ->
  inside_nonzero (pm25 room) (preferred_pm25 profile) ->
  inside_nonzero (pm10 room) (preferred_pm10 profile) ->
  (calculateComfortScore room profile === Fin 1)%js = true /\
  (calculateHealthScore room profile === Fin 1)%js = true.
Proof.
  intros Ht Hh Hn Hl Hc Ha Hv H25 H10.
  unfold calculateComfortScore, calculateHealthScore,
    tempScore, humidScore, noiseScore, lightScore,
    co2Score, aqScore, vocScore, pm25Score, pm10Score. cbv zeta.
  rewrite (scoreCriterion_preferred _ _ _ Ht), (scoreCriterion_preferred _ _ _ Hh),
    (score_or_default_preferred _ _ _ Hn), (score_or_default_preferred _ _ _ Hl),
    (scoreCriterion_preferred _ _ _ Hc), (score_or_default_preferred _ _ _ Ha),
    (score_or_default_preferred _ _ _ Hv), (score_or_default_preferred _ _ _ H25),
    (score_or_default_preferred _ _ _ H10).
  split; reflexivity.
Qed.

Lemma preferred_room_full_scores_witness :
  (calculateComfortScore preferred_room empty_profile === Fin 1)%js = true /\
  (calculateHealthScore preferred_room empty_profile === Fin 1)%js = true.
Proof.
  apply (preferred_room_full_scores preferred_room empty_profile);
    try (split; [| reflexivity]);
    (eexists; split; [reflexivity | split; reflexivity]).
Defined.

(** X21: readings of exactly 0 for air quality, VOC, PM2.5 and PM10 count as
    missing and score 0.8 each, so a room with perfectly clean air gets a
    lower health score than the same room with readings that are positive
    and inside the preferred ranges. *)
Theorem zero_air_readings_penalised
    (room : Room) (profile : Profile) (air vocs fine coarse : option num) :
  finite_reading (co2 room) -> profile_within profile ->
  inside_nonzero air preferred_air_quality ->
  inside_nonzero vocs (preferred_voc profile) ->
  inside_nonzero fine (preferred_pm25 profile) ->
  inside_nonzero coarse (preferred_pm10 profile) ->
  let zero := Some (Fin 0) in
  (calculateHealthScore (with_air_readings room zero zero zero zero) profile
   <? calculateHealthScore (with_air_readings room air vocs fine coarse) profile)%js = true.
Proof.
  intros Hco2 (Pt & Ph & Pn & Pl & Pc & Pv & P25 & P10) Ha Hv H25 H10 zero.
  unfold calculateHealthScore, co2Score, aqScore, vocScore, pm25Score, pm10Score.
  cbv zeta. cbn [with_air_readings co2 air_quality voc pm25 pm10].
  rewrite (score_or_default_preferred _ _ _ Ha), (score_or_default_preferred _ _ _ Hv),
    (score_or_default_preferred _ _ _ H25), (score_or_default_preferred _ _ _ H10).
  rewrite !(score_or_default_falsy zero) by reflexivity.
  destruct (unit_interval_Fin
              (scoreCriterion (co2 room)
                 (range_min (or_default (profile_co2 profile) (mkRange (Fin 400) (Fin 800))))
                 (range_max (or_default (profile_co2 profile) (mkRange (Fin 400) (Fin 800))))
                 (range_min (std_co2 EU_STANDARDS)) (range_max (std_co2 EU_STANDARDS))))
    as (c & -> & C0 & C1).
  { apply scoreCriterion_reading; [exact Hco2 | fallback_within]. }
  cbn [mul add]. apply ltb_Fin. qlra.
Qed.

Lemma zero_air_readings_penalised_witness :
  (calculateHealthScore
     (with_air_readings measured_room (Some (Fin 0)) (Some (Fin 0)) (Some (Fin 0))
        (Some (Fin 0))) empty_profile
   <? calculateHealthScore
        (with_air_readings measured_room (Some (Fin 20)) (Some (Fin 100)) (Some (Fin 10))
           (Some (Fin 20))) empty_profile)%js = true.
Proof.
  apply (zero_air_readings_penalised measured_room empty_profile
           (Some (Fin 20)) (Some (Fin 100)) (Some (Fin 10)) (Some (Fin 20))).
  - cbn. eexists. reflexivity.
  - exact empty_profile_within.
  - split; [eexists; split; [reflexivity | split; reflexivity] | reflexivity].
  - split; [eexists; split; [reflexivity | split; reflexivity] | reflexivity].
  - split; [eexists; split; [reflexivity | split; reflexivity] | reflexivity].
  - split; [eexists; split; [reflexivity | split; reflexivity] | reflexivity].
Defined.

(** ** calculateWeights keeps the order of the rows *)

Section Dominance.

Import Re.
Local Open Scope R_scope.

Lemma Rprod_le (u v : list R) :
  Forall2 Rle u v -> Forall (fun x => 0 < x) u -> 0 < Rprod u /\ Rprod u <= Rprod v.
Proof.
  induction 1 as [| x y u v Hxy _ IH]; intros Hu; cbn [Rprod foldr].
  - split; rlra.
  - apply Forall_cons in Hu as [Hx Hu]. destruct (IH Hu) as [Hp Hle].
    fold (Rprod u). fold (Rprod v). split.
    + apply Rmult_lt_0_compat; assumption.
    + apply Rmult_le_compat; rlra.
Qed.

Lemma geometric_mean_le (n : nat) (u v : list R) :
  (0 < n)%nat -> Forall2 Rle u v -> Forall (fun x => 0 < x) u ->
  geometric_mean n u <= geometric_mean n v.
Proof.
  intros Hn Huv Hu. unfold geometric_mean. rewrite !foldl_Rmult, !Rmult_1_l.
  destruct (Rprod_le u v Huv Hu) as [Hp Hle].
  apply Rle_Rpower_l; [| split; assumption].
  apply Rlt_le, exponent_pos. exact Hn.
Qed.

Lemma geometric_mean_weights_lookup (M : list (list R)) (i : nat) (row : list R) :
  M !! i = Some row ->
  geometric_mean_weights M !! i
  = Some (geometric_mean (length M) row / Rsum (map (geometric_mean (length M)) M)).
Proof.
  intros H. unfold geometric_mean_weights, normalize.
  rewrite !list_lookup_fmap, H. reflexivity.
Qed.

(** X22: on a square matrix of positive entries, a criterion whose row is
    entry by entry at least the row of another criterion gets at least the
    weight of that criterion. *)
Theorem calculateWeights_dominance (M : list (list R)) (i j : nat) :
  square (length M) M -> positive_matrix M -> dominates M i j ->
  exists wi wj,
    calculateWeights (as_numbers M) !! i = Some (RFin wi) /\
    calculateWeights (as_numbers M) !! j = Some (RFin wj) /\
    wj <= wi.
Proof.
  intros Hsq Hpos (row_i & row_j & Hi & Hj & Hle).
  assert (Hn : (0 < length M)%nat) by (apply lookup_lt_Some in Hi; lia).
  rewrite (calculateWeights_geometric M Hn Hsq Hpos).
  set (S := Rsum (map (geometric_mean (length M)) M)).
  assert (HS : 0 < S).
  { apply Rsum_pos; [rewrite length_map; exact Hn |].
    apply Forall_fmap, Forall_forall. intros row _. apply Rpower_pos. }
  exists (geometric_mean (length M) row_i / S), (geometric_mean (length M) row_j / S).
  rewrite !list_lookup_fmap.
  rewrite (geometric_mean_weights_lookup M i row_i Hi),
    (geometric_mean_weights_lookup M j row_j Hj).
  split; [reflexivity |]. split; [reflexivity |].
  unfold Rdiv. apply Rmult_le_compat_r; [apply Rlt_le, Rinv_0_lt_compat; exact HS |].
  apply geometric_mean_le; [exact Hn | exact Hle |].
  unfold positive_matrix in Hpos. rewrite Forall_lookup in Hpos. exact (Hpos j row_j Hj).
Qed.

Lemma calculateWeights_dominance_witness :
  exists wi wj,
    calculateWeights (as_numbers two_to_one) !! 0%nat = Some (RFin wi) /\
    calculateWeights (as_numbers two_to_one) !! 1%nat = Some (RFin wj) /\
    wj <= wi.
Proof.
  apply (calculateWeights_dominance two_to_one 0 1).
  - exact two_to_one_square.
  - exact two_to_one_positive.
  - exists [1; 2], [1 / 2; 1]. split; [reflexivity |]. split; [reflexivity |].
    repeat constructor; rlra.
Defined.

End Dominance.

(** ** calculateUsabilityScore never falls with more facilities *)

(** One step [if (condition) score += bonus] on two rooms. *)
Lemma step_monotone (b b' : bool) (s s' : Q) (bonus bonus' : num) :
  (s <= s')%Q ->
  (b = true -> b' = true /\
     exists k k', bonus = Fin k /\ bonus' = Fin k' /\ (k <= k')%Q) ->
  (b' = true -> exists k', bonus' = Fin k' /\ (0 <= k')%Q) ->
  exists t t',
    (if b then (Fin s + bonus)%js else Fin s) = Fin t /\
    (if b' then (Fin s' + bonus')%js else Fin s') = Fin t' /\
    (t <= t')%Q.
Proof.
  intros Hs Hb Hb'. destruct b.
  - destruct (Hb eq_refl) as (-> & k & k' & -> & -> & Hk).
    exists (s + k)%Q, (s' + k')%Q. repeat split; qlra.
  - destruct b'.
    + destruct (Hb' eq_refl) as (k' & -> & Hk').
      exists s, (s' + k')%Q. repeat split; qlra.
    + exists s, s'. repeat split; exact Hs.
Qed.

Lemma constant_bonus (b b' : bool) (k : Q) :
  (0 <= k)%Q -> (b = true -> b' = true) ->
  (b = true -> b' = true /\
     exists k1 k2, Fin k = Fin k1 /\ Fin k = Fin k2 /\ (k1 <= k2)%Q) /\
  (b' = true -> exists k', Fin k = Fin k' /\ (0 <= k')%Q).
Proof.
  intros Hk Hb. split.
  - intros H. split; [exact (Hb H) |]. exists k, k. repeat split; qlra.
  - intros _. exists k. split; [reflexivity | exact Hk].
Qed.

Lemma computers_bonus_monotone (p q : Q) :
  (0 < p)%Q -> (p <= q)%Q ->
  exists k k',
    Math_min (Fin 0.3%Q) (Fin p / Fin 100)%js = Fin k /\
    Math_min (Fin 0.3%Q) (Fin q / Fin 100)%js = Fin k' /\ (k <= k')%Q.
Proof.
  intros Hp Hpq. cbn [div]. change (Qeq_bool 100 0) with false. cbn iota.
  cbn [Math_min].
  assert (Hdiv : (p / 100 <= q / 100)%Q).
  { unfold Qdiv. apply Qmult_le_compat_r; [exact Hpq | discriminate]. }
  destruct (Fin (p / 100) <? Fin 0.3%Q)%js eqn:E1;
    destruct (Fin (q / 100) <? Fin 0.3%Q)%js eqn:E2;
    first [apply ltb_Fin in E1 | apply ltb_Fin_false in E1];
    first [apply ltb_Fin in E2 | apply ltb_Fin_false in E2];
    eexists; eexists; (split; [reflexivity |]); (split; [reflexivity |]); qlra.
Qed.

Lemma Math_min_monotone (t t' : Q) :
  (t <= t')%Q ->
  (Math_min (Fin 1) (Fin t) <=? Math_min (Fin 1) (Fin t'))%js = true.
Proof.
  intros H. cbn [Math_min].
  destruct (Fin t <? Fin 1)%js eqn:E1; destruct (Fin t' <? Fin 1)%js eqn:E2;
    first [apply ltb_Fin in E1 | apply ltb_Fin_false in E1];
    first [apply ltb_Fin in E2 | apply ltb_Fin_false in E2];
    apply leb_Fin; qlra.
Qed.

(** X23: a room that has every facility of another room, and at least as many
    computers and seats, never gets a lower usability score. *)
Theorem calculateUsabilityScore_monotone (room room' : Room) :
  at_least_as_equipped room room' ->
  (calculateUsabilityScore room <=? calculateUsabilityScore room')%js = true.
Proof.
  intros (Hproj & Hrob & Hcomp & Hseat). unfold calculateUsabilityScore. cbv zeta.
  (* the projector *)
  destruct (constant_bonus (has_projector room) (has_projector room') 0.2) as [A1 A2];
    [qlra | exact Hproj |].
  destruct (step_monotone (has_projector room) (has_projector room') 0.5 0.5
              (Fin 0.2%Q) (Fin 0.2%Q)) as (t1 & t1' & -> & -> & H1);
    [qlra | exact A1 | exact A2 |].
  (* the computers *)
  destruct (step_monotone
              (to_num (computers room) >? Fin 0)%js (to_num (computers room') >? Fin 0)%js
              t1 t1'
              (Math_min (Fin 0.3%Q) (to_num (computers room) / Fin 100))%js
              (Math_min (Fin 0.3%Q) (to_num (computers room') / Fin 100))%js)
    as (t2 & t2' & -> & -> & H2); [exact H1 | | apply computers_bonus |].
  { intros Hgt. destruct (computers room) as [x |]; [| discriminate Hgt].
    destruct Hcomp as (p & q & -> & -> & Hpq). cbn [to_num] in *.
    unfold gtb in Hgt. apply ltb_Fin in Hgt. split.
    - unfold gtb. apply ltb_Fin. qlra.
    - apply computers_bonus_monotone; assumption. }
  (* the robots *)
  destruct (constant_bonus (has_robots room) (has_robots room') 0.15) as [B1 B2];
    [qlra | exact Hrob |].
  destruct (step_monotone (has_robots room) (has_robots room') t2 t2'
              (Fin 0.15%Q) (Fin 0.15%Q)) as (t3 & t3' & -> & -> & H3);
    [exact H2 | exact B1 | exact B2 |].
  (* the seats *)
  destruct (constant_bonus (to_num (seating_capacity room) >=? Fin 30)%js
              (to_num (seating_capacity room') >=? Fin 30)%js 0.1) as [C1 C2]; [qlra | |].
  { intros Hge. destruct (seating_capacity room) as [x |]; [| discriminate Hge].
    destruct Hseat as (p & q & -> & -> & Hpq). cbn [to_num] in *.
    unfold geb in *. apply leb_Fin in Hge. apply leb_Fin. qlra. }
  destruct (step_monotone (to_num (seating_capacity room) >=? Fin 30)%js
              (to_num (seating_capacity room') >=? Fin 30)%js t3 t3'
              (Fin 0.1%Q) (Fin 0.1%Q)) as (t4 & t4' & -> & -> & H4);
    [exact H3 | exact C1 | exact C2 |].
  apply Math_min_monotone. exact H4.
Qed.


Lemma calculateUsabilityScore_monotone_witness :
  (calculateUsabilityScore bare_room <=? calculateUsabilityScore measured_room)%js = true.
Proof.
  apply (calculateUsabilityScore_monotone bare_room measured_room).
  repeat split; cbn; try discriminate; exact I.
Defined.

(** ** ProfileAdjuster: the sliders and the scores *)

Lemma handleCriterionChange_result
    (prev : gmap string Range) (criterion : string) (value : num) (standard : Standard) :
  own_property standards_table criterion = Some standard ->
  exists m,
    handleCriterionChange prev criterion value
    = Returns (<[criterion := mkRange m value]> prev) /\
    (m = to_num (optimalMin standard) \/
     exists r, prev !! criterion = Some r /\ m = range_min r).
Proof.
  intros Hs. unfold handleCriterionChange. cbv zeta. rewrite (property_own _ _ _ Hs).
  destruct (prev !! criterion) as [r |] eqn:E; cbn [fmap option_fmap option_map truthy_opt to_num].
  - destruct (truthy (range_min r)).
    + exists (range_min r). split; [reflexivity |]. right. exists r. split; reflexivity.
    + exists (to_num (optimalMin standard)). split; [reflexivity | left; reflexivity].
  - exists (to_num (optimalMin standard)). split; [reflexivity | left; reflexivity].
Qed.

(** The optimal minimum of a criterion lies inside its absolute range. *)
Lemma optimalMin_within (criterion : string) (standard : Standard) :
  own_property standards_table criterion = Some standard ->
  exists lo hi o,
    st_min standard = Fin lo /\ st_max standard = Fin hi /\
    to_num (optimalMin standard) = Fin o /\ (lo <= o)%Q /\ (o <= hi)%Q.
Proof.
  unfold standards_table. cbn [own_property].
  repeat match goal with
         | |- context [String.eqb criterion ?k] =>
             destruct (String.eqb criterion k);
             [intros H; injection H as <-; do 3 eexists;
              repeat (split; [reflexivity |]); split; discriminate |]
         end.
  discriminate.
Qed.

Ltac insert_lookups :=
  repeat first [rewrite lookup_insert_eq
               | rewrite lookup_insert_ne by discriminate].

Lemma profile_within_insert
    (prev : gmap string Range) (criterion : string) (absolute r : Range) :
  In criterion displayCriteria ->
  slider_range criterion = Some absolute ->
  range_within r absolute ->
  profile_within (profile_of_object prev) ->
  profile_within (profile_of_object (<[criterion := r]> prev)).
Proof.
  intros Hin Habs Hr (Pt & Ph & Pn & Pl & Pc & Pv & P25 & P10).
  unfold displayCriteria in Hin. cbn [In] in Hin.
  unfold profile_within, profile_of_object in *.
  cbn [profile_temperature profile_humidity profile_noise profile_light profile_co2
       profile_voc profile_pm25 profile_pm10] in *.
  repeat (destruct Hin as [<- | Hin];
          [injection Habs as <-; insert_lookups; repeat split; assumption |]).
  contradiction.
Qed.

Lemma profile_within_lookup
    (prev : gmap string Range) (criterion : string) (absolute : Range) :
  In criterion displayCriteria ->
  slider_range criterion = Some absolute ->
  profile_within (profile_of_object prev) ->
  preferred_within (prev !! criterion) absolute.
Proof.
  intros Hin Habs (Pt & Ph & Pn & Pl & Pc & Pv & P25 & P10).
  unfold displayCriteria in Hin. cbn [In] in Hin.
  repeat (destruct Hin as [<- | Hin]; [injection Habs as <-; assumption |]).
  contradiction.
Qed.

(** X24: whatever value inside the bounds of its slider is chosen for a
    displayed criterion, the profile the slider leaves keeps the other
    ranges, gives the criterion the chosen value as its [max] next to a
    [min] that is not below the lower bound, and stays a profile whose
    ranges have finite bounds inside the absolute ranges of the table;
    nothing keeps the chosen [max] above the [min]. *)
Theorem handleCriterionChange_within
    (prev : gmap string Range) (criterion : string) (lo hi v : Q) :
  profile_within (profile_of_object prev) ->
  In criterion displayCriteria ->
  slider_range criterion = Some (mkRange (Fin lo) (Fin hi)) ->
  (lo <= v)%Q -> (v <= hi)%Q ->
  exists next a,
    handleCriterionChange prev criterion (Fin v) = Returns next /\
    next !! criterion = Some (mkRange (Fin a) (Fin v)) /\ (lo <= a)%Q /\
    (forall other, other <> criterion -> next !! other = prev !! other) /\
    profile_within (profile_of_object next).
Proof.
  intros Hprev Hin Hslider Hlo Hhi.
  pose proof (profile_within_lookup prev criterion _ Hin Hslider Hprev) as Hold.
  pose proof Hslider as Hrange. unfold slider_range in Hrange.
  destruct (own_property standards_table criterion) as [standard |] eqn:Hs;
    [| discriminate Hrange].
  cbn in Hrange. injection Hrange as Hmin Hmax.
  destruct (handleCriterionChange_result prev criterion (Fin v) standard Hs)
    as (m & -> & Hm).
  assert (Ha : exists a, m = Fin a /\ (lo <= a)%Q).
  { destruct Hm as [-> | (r & Hr & ->)].
    - destruct (optimalMin_within criterion standard Hs)
        as (l & h & o & El & Eh & -> & H1 & H2).
      rewrite El in Hmin. injection Hmin as <-. exists o. tauto.
    - rewrite Hr in Hold. destruct Hold as (a & b & l & h & -> & E & H1 & H2).
      injection E as <- <-. exists a. split; [reflexivity | exact H1]. }
  destruct Ha as (a & -> & Ha).
  assert (Hnext : profile_within
                    (profile_of_object (<[criterion := mkRange (Fin a) (Fin v)]> prev))).
  { apply (profile_within_insert prev criterion (mkRange (Fin lo) (Fin hi)));
      [exact Hin | exact Hslider | | exact Hprev].
    exists a, v, lo, hi. repeat split; assumption. }
  exists (<[criterion := mkRange (Fin a) (Fin v)]> prev), a.
  split; [reflexivity |]. split; [apply lookup_insert_eq |]. split; [exact Ha |].
  split; [intros other Hne; apply lookup_insert_ne; congruence |].
  exact Hnext.
Qed.

Lemma handleCriterionChange_within_witness :
  exists next a,
    handleCriterionChange (getDefaultProfile None) "temperature" (Fin 18.5%Q)
    = Returns next /\
    next !! "temperature"%string = Some (mkRange (Fin a) (Fin 18.5%Q)) /\ (18 <= a)%Q.
Proof.
  destruct (handleCriterionChange_within (getDefaultProfile None) "temperature" 18 27 18.5%Q)
    as (next & a & H1 & H2 & H3 & _).
  - apply getDefaultProfile_within. intros s Hs. discriminate Hs.
  - left. reflexivity.
  - reflexivity.
  - discriminate.
  - discriminate.
  - exists next, a. repeat split; assumption.
Defined.

Lemma decay_below_one (d r : Q) :
  (0 < d)%Q -> (0 <= r)%Q ->
  (Math_max (Fin 0) (Fin 1 - (Fin d / Fin r) * Fin 0.7%Q) <? Fin 1)%js = true.
Proof.
  intros Hd Hr. unfold div.
  destruct (Qeq_bool r 0) eqn:E.
  - rewrite (Qcompare_0_Gt _ Hd). reflexivity.
  - apply Qeq_bool_false_iff in E.
    assert (Hpos : (0 < r)%Q).
    { destruct (Qle_lt_or_eq _ _ Hr) as [H | H]; [exact H | symmetry in H; contradiction]. }
    assert (Hq : (0 < d / r)%Q) by (apply Qlt_shift_div_l; [exact Hpos | qlra]).
    cbn [mul sub add neg Math_max].
    destruct (Fin 0 <? Fin (1 + - (d / r * 0.7)))%js; apply ltb_Fin; qlra.
Qed.

(** X25: in exact arithmetic, and for arguments other than the negative
    zero: with a preferred range whose [max] lies below its [min], as a
    slider moved below the minimum leaves it, no finite reading reaches the
    score 1, provided the minimum is not below the absolute minimum and the
    maximum not above the absolute maximum.  (In doubles a score just below
    1 can be rounded to 1, see [scoreCriterion_rounded_up].) *)
Theorem scoreCriterion_inverted_range (x a b lo hi : Q) :
  (b < a)%Q -> (lo <= a)%Q -> (b <= hi)%Q ->
  (scoreCriterion (Some (Fin x)) (Fin a) (Fin b) (Fin lo) (Fin hi) <? Fin 1)%js = true.
Proof.
  intros Hba Hlo Hhi. destruct (Qlt_le_dec x a) as [Hx | Hx].
  - rewrite scoreCriterion_below by (apply ltb_Fin; exact Hx).
    cbn [sub add neg]. apply decay_below_one; qlra.
  - rewrite scoreCriterion_above;
      [| unfold gtb; apply ltb_Fin; qlra | apply ltb_Fin_false; exact Hx].
    cbn [sub add neg]. apply decay_below_one; qlra.
Qed.

Lemma scoreCriterion_inverted_range_witness :
  (scoreCriterion (Some (Fin 19)) (Fin 20) (Fin 18.5%Q) (Fin 18) (Fin 27) <? Fin 1)%js
  = true.
Proof.
  apply (scoreCriterion_inverted_range 19 20 18.5%Q 18 27); vm_compute; congruence.
Defined.

(** ** evaluateRooms with a weight that is missing *)

Lemma final_score_NaN (profile : Profile) (w : Weights) (room : Room) :
  Comfort w = NaN \/ Health w = NaN \/ Usability w = NaN ->
  final_score (scoreRoom profile w room) = NaN.
Proof.
  intros H. unfold scoreRoom. cbv zeta. cbn [final_score].
  destruct H as [-> | [-> | ->]].
  - destruct (calculateComfortScore room profile); reflexivity.
  - destruct (calculateHealthScore room profile);
      destruct (calculateComfortScore room profile * Comfort w)%js; reflexivity.
  - destruct (calculateUsabilityScore room);
      destruct (calculateComfortScore room profile * Comfort w
                + calculateHealthScore room profile * Health w)%js; reflexivity.
Qed.

(** The sort leaves alone a list whose scores all are [NaN]. *)
Lemma js_sort_NaN (l : list ScoredRoom) :
  Forall (fun room => final_score room = NaN) l -> js_sort by_final_score l = l.
Proof.
  induction 1 as [| x l Hx Hl IH]; cbn [js_sort]; [reflexivity |].
  rewrite IH. destruct Hl as [| y l Hy _]; cbn [sort_insert]; [reflexivity |].
  unfold SortCompare, by_final_score. rewrite Hx, Hy. reflexivity.
Qed.

(** X26: when the weights object lacks one of its three weights (or holds
    [NaN] for it), as the object [{}] the page starts with does, every
    final score is [NaN] and the rooms are ranked in the order of the room
    file. *)
Theorem evaluateRooms_missing_weight
    (roomsData : list Room) (preferences : Preferences) (w : Weights) :
  weights preferences = Some w ->
  Comfort w = NaN \/ Health w = NaN \/ Usability w = NaN ->
  Forall (fun ranked => ranked_final_score ranked = NaN)
    (rankings (evaluateRooms roomsData preferences)) /\
  map ranked_room_id (rankings (evaluateRooms roomsData preferences))
  = map room_id roomsData.
Proof.
  intros Hw HNaN. unfold evaluateRooms. cbv zeta. cbn [rankings].
  rewrite Hw. cbn [or_default].
  set (profile := or_default (profile_adjustments preferences) empty_profile).
  assert (Hscored : Forall (fun room => final_score room = NaN)
                      (map (scoreRoom profile w) roomsData)).
  { apply Forall_fmap, Forall_forall. intros room _. cbn.
    apply final_score_NaN. exact HNaN. }
  rewrite (js_sort_NaN _ Hscored). split.
  - apply Forall_lookup. intros i ranked Hi. rewrite list_lookup_imap in Hi.
    destruct (map (scoreRoom profile w) roomsData !! i) as [room |] eqn:E;
      [| discriminate Hi].
    cbn in Hi. injection Hi as <-. cbn [toRanked ranked_final_score].
    rewrite Forall_lookup in Hscored. exact (Hscored i room E).
  - rewrite (imap_map_compose toRanked ranked_room_id
               (fun room => room_id (scored_room room)))
      by reflexivity.
    rewrite map_map. reflexivity.
Qed.

Lemma evaluateRooms_missing_weight_witness :
  Forall (fun ranked => ranked_final_score ranked = NaN)
    (rankings (evaluateRooms five_rooms initial_page_preferences)) /\
  map ranked_room_id (rankings (evaluateRooms five_rooms initial_page_preferences))
  = map room_id five_rooms.
Proof.
  apply (evaluateRooms_missing_weight five_rooms initial_page_preferences
           (mkWeights NaN NaN NaN)).
  - reflexivity.
  - left. reflexivity.
Defined.

(** ** calculateAHPWeights on three criteria with transitive judgments *)

Section Transitive.

Import Re.
Local Open Scope R_scope.

Lemma truthy_positive (q : Q) : (0 < q)%Q -> truthy (Fin q) = true.
Proof.
  intros H. cbn. apply negb_true_iff, Qeq_bool_false_iff. intros E. qlra.
Qed.

Lemma inverse_positive (q : Q) :
  (0 < q)%Q -> (Fin 1 / Fin q)%js = Fin (1 / q) /\ Q2R (1 / q) = 1 / Q2R q.
Proof.
  intros H. split.
  - cbn [div]. replace (Qeq_bool q 0) with false
      by (symmetry; apply Qeq_bool_false_iff; intros E; qlra).
    reflexivity.
  - rewrite Qreals.Q2R_div by (intros E; qlra). rewrite RMicromega.Q2R_1. reflexivity.
Qed.

Lemma three_criteria_matrix
    (a b c : string) (comparisons : gmap string num) (x y z : Q) :
  (0 < x)%Q -> (0 < y)%Q -> (0 < z)%Q -> (y == x * z)%Q ->
  comparisons !! (a +:+ "-" +:+ b)%string = Some (Fin x) ->
  comparisons !! (a +:+ "-" +:+ c)%string = Some (Fin y) ->
  comparisons !! (b +:+ "-" +:+ c)%string = Some (Fin z) ->
  map (map to_real) (buildComparisonMatrix [a; b; c] comparisons)
  = as_numbers (rank_one [Q2R y; Q2R z; 1]).
Proof.
  intros Hx Hy Hz Hxyz Hab Hac Hbc.
  pose proof (Q2R_pos x Hx) as Rx. pose proof (Q2R_pos y Hy) as Ry.
  pose proof (Q2R_pos z Hz) as Rz.
  assert (HR : Q2R y = Q2R x * Q2R z)
    by (rewrite <- Qreals.Q2R_mult; apply Qreals.Qeq_eqR; exact Hxyz).
  destruct (inverse_positive x Hx) as [Ix Jx].
  destruct (inverse_positive y Hy) as [Iy Jy].
  destruct (inverse_positive z Hz) as [Iz Jz].
  unfold buildComparisonMatrix, inner_loop. cbn [length seq Nat.add Nat.sub foldl].
  unfold compare_pair, comparison_key. cbv zeta.
  change (criterion_at [a; b; c] 0) with a. change (criterion_at [a; b; c] 1) with b.
  change (criterion_at [a; b; c] 2) with c.
  rewrite Hab, Hac, Hbc. cbn [truthy_opt to_num].
  rewrite !truthy_positive by assumption.
  rewrite Ix, Iy, Iz. cbn. unfold as_numbers, rank_one. cbn.
  rewrite Jx, Jy, Jz, RMicromega.Q2R_1, HR.
  repeat match goal with
         | |- (_ :: _) = (_ :: _) => apply f_equal2
         | |- RFin _ = RFin _ => apply (f_equal RFin); field; repeat split; rlra
         | |- [] = [] => reflexivity
         end.
Qed.

(** X27: in exact real arithmetic, for three distinct criteria, none of
    them named ["__proto__"], and positive judgments [x], [y], [z] of the
    pairs (first, second), (first, third) and (second, third) that are
    transitive, [y = x z], the weights are [y], [z] and 1 over [y + z + 1],
    the consistency ratio is 0 and the judgments count as consistent. *)
Theorem calculateAHPWeights_transitive
    (a b c : string) (comparisons : gmap string num) (x y z : Q) :
  a <> b -> a <> c -> b <> c ->
  a <> "__proto__"%string -> b <> "__proto__"%string -> c <> "__proto__"%string ->
  (0 < x)%Q -> (0 < y)%Q -> (0 < z)%Q -> (y == x * z)%Q ->
  comparisons !! (a +:+ "-" +:+ b)%string = Some (Fin x) ->
  comparisons !! (a +:+ "-" +:+ c)%string = Some (Fin y) ->
  comparisons !! (b +:+ "-" +:+ c)%string = Some (Fin z) ->
  let result := calculateAHPWeights [a; b; c] comparisons in
  let total := Q2R y + Q2R z + 1 in
  ahp_weights result !! a = Some (RFin (Q2R y / total)) /\
  ahp_weights result !! b = Some (RFin (Q2R z / total)) /\
  ahp_weights result !! c = Some (RFin (1 / total)) /\
  ahp_consistencyRatio result = RFin 0 /\
  ahp_isConsistent result = true.
Proof.
  intros Hab Hac Hbc Pa Pb Pc Hx Hy Hz Hxyz Kab Kac Kbc result total.
  pose proof (Q2R_pos y Hy) as Ry. pose proof (Q2R_pos z Hz) as Rz.
  assert (Hres : result
                 = mkAHPWeights
                     (weights_object (map RFin (normalize [Q2R y; Q2R z; 1])) [a; b; c])
                     (RFin 0) true).
  { apply calculateAHPWeights_rank_one.
    - cbn. lia.
    - repeat constructor; rlra.
    - apply (three_criteria_matrix a b c comparisons x y z); assumption. }
  rewrite Hres. cbn [ahp_weights ahp_consistencyRatio ahp_isConsistent].
  unfold total.
  split; [| split; [| split; [| split; reflexivity]]].
  - rewrite (weights_object_lookup _ [a; b; c] 0 a Pa eq_refl).
    + unfold weight_at, normalize, Rsum. cbn. do 2 f_equal. field. rlra.
    + intros [| [| [| j]]] Hj; cbn; [lia | congruence | congruence | discriminate].
  - rewrite (weights_object_lookup _ [a; b; c] 1 b Pb eq_refl).
    + unfold weight_at, normalize, Rsum. cbn. do 2 f_equal. field. rlra.
    + intros [| [| [| j]]] Hj; cbn; [lia | lia | congruence | discriminate].
  - rewrite (weights_object_lookup _ [a; b; c] 2 c Pc eq_refl).
    + unfold weight_at, normalize, Rsum. cbn. do 2 f_equal. field. rlra.
    + intros [| [| [| j]]] Hj; cbn; [lia | lia | lia | discriminate].
Qed.

Lemma calculateAHPWeights_transitive_witness :
  let result := calculateAHPWeights main_criteria transitive_comparisons in
  ahp_weights result !! "Comfort"%string = Some (RFin (Q2R 6 / (Q2R 6 + Q2R 3 + 1))) /\
  ahp_consistencyRatio result = RFin 0 /\
  ahp_isConsistent result = true.
Proof.
  destruct (calculateAHPWeights_transitive "Comfort" "Health" "Usability"
              transitive_comparisons 2 6 3) as (H1 & _ & _ & H4 & H5);
    try discriminate; try reflexivity.
  repeat split; assumption.
Defined.

End Transitive.
